(** * knuu instances: lifecycle, sidecars, commit cache and live operations

    A shallow embedding of [pkg/instance] (the part of the source that
    follows the cluster service helpers).  Every [*Instance] of the Go
    program is a pointer into a heap of instance records, so that the
    parent/sidecar aliasing of the source is kept.  Calls to the external
    collaborators (image builder, cluster client, fault-injection client,
    operating system, timers) are answered by a record of oracles and are
    written to a log, so that statements such as "the push ran at most
    once" or "no cluster call was made" can be read off the log. *)

From Stdlib Require Import ZArith Lia.
From stdpp Require Import gmap strings list fin_maps.
From stdpp Require Import pretty.

#[local] Set Primitive Projections.

(** ** Errors

    The Go program builds its errors from package-level values with
    [WithParams] and [Wrap].  The values themselves are declared outside
    the files at hand; only their names and the way they are combined are
    used here. *)

Inductive ErrCode : Type :=
  | ErrEnablingBitTwister
  | ErrSettingCommand | ErrSettingArgsNotAllowed
  | ErrAddingPortNotAllowed | ErrPortAlreadyRegistered | ErrUDPPortAlreadyRegistered
  | ErrRandomPortForwardingNotAllowed | ErrPortNotRegistered | ErrGettingFreePort
  | ErrGettingPodFromReplicaSet | ErrForwardingPort
  | ErrExecutingCommandNotAllowed | ErrExecutingCommandInInstance
  | ErrExecutingCommandInSidecar
  | ErrAddingFileNotAllowed | ErrSrcDoesNotExist | ErrCreatingDirectory
  | ErrFailedToCreateDestFile | ErrFailedToOpenSrcFile | ErrFailedToCopyFile
  | ErrFileIsNotSubFolderOfVolumes | ErrSrcDoesNotExistOrIsDirectory
  | ErrInvalidFormat | ErrFailedToConvertToInt64 | ErrAllFilesMustHaveSameGroup
  | ErrAddingFolderNotAllowed | ErrSrcDoesNotExistOrIsNotDirectory
  | ErrCopyingFolderToInstance
  | ErrCommittingNotAllowed | ErrGettingImageRegistry | ErrGeneratingImageHash
  | ErrPushingImage
  | ErrMaximumVolumesExceeded | ErrAddingVolumeNotAllowed
  | ErrSettingMemoryNotAllowed | ErrSettingCPUNotAllowed | ErrSettingEnvNotAllowed
  | ErrGettingFileNotAllowed | ErrGettingFile | ErrReadingFile
  | ErrReadingFileNotAllowed | ErrReadingFileFromInstance
  | ErrAddingPolicyRuleNotAllowed | ErrSettingProbeNotAllowed
  | ErrAddingSidecarNotAllowed | ErrSidecarIsNil | ErrSidecarCannotBeSameInstance
  | ErrSidecarNotCommitted | ErrSidecarCannotHaveSidecar | ErrSidecarAlreadySidecar
  | ErrSettingNotAllowed
  | ErrSettingPrivilegedNotAllowed | ErrAddingCapabilityNotAllowed
  | ErrAddingCapabilitiesNotAllowed
  | ErrStartingNotAllowed | ErrStartingNotAllowedForSidecar
  | ErrStartingSidecarNotAllowed | ErrAddingOtelCollectorSidecar
  | ErrAddingNetworkSidecar | ErrDeployingResourcesForInstance
  | ErrDeployingResourcesForSidecars | ErrDeployingPodForInstance
  | ErrWaitingForInstanceRunning | ErrCheckingIfInstanceRunningNotAllowed
  | ErrWaitingForInstanceNotAllowed | ErrWaitingForInstanceTimeout
  | ErrCheckingIfInstanceRunning
  | ErrSettingBandwidthLimitNotAllowed | ErrSettingBandwidthLimitNotAllowedBitTwister
  | ErrStoppingBandwidthLimit | ErrSettingBandwidthLimit
  | ErrSettingLatencyJitterNotAllowed | ErrSettingLatencyJitterNotAllowedBitTwister
  | ErrStoppingLatencyJitter | ErrSettingLatencyJitter
  | ErrSettingPacketLossNotAllowed | ErrSettingPacketLossNotAllowedBitTwister
  | ErrStoppingPacketLoss | ErrSettingPacketLoss
  | ErrStoppingNotAllowed | ErrDestroyingPod
  (* errors of the fault-injection SDK that the setters tell apart *)
  | SdkServiceNotInitialized | SdkServiceNotReady | SdkServiceNotStarted
  (* any other error handed back by a collaborator *)
  | Foreign (msg : string).

(** One argument of [WithParams]. *)
Inductive Param : Type :=
  | PStr (s : string)
  | PInt (n : Z)
  | PStrs (l : list string).

(** An error value: its name, the arguments of [WithParams], and the error
    it wraps, if any. *)
Inductive Error : Type :=
  | Plain (code : ErrCode) (params : list Param)
  | Caused (code : ErrCode) (params : list Param) (cause : Error).

Definition New_ (c : ErrCode) : Error := Plain c [].

Definition err_code (e : Error) : ErrCode :=
  match e with Plain c _ | Caused c _ _ => c end.

Definition err_params (e : Error) : list Param :=
  match e with Plain _ ps | Caused _ ps _ => ps end.

Definition err_cause (e : Error) : option Error :=
  match e with Plain _ _ => None | Caused _ _ c => Some c end.

Definition WithParams (e : Error) (ps : list Param) : Error :=
  match e with
  | Plain c _ => Plain c ps
  | Caused c _ w => Caused c ps w
  end.

Definition Wrap (e inner : Error) : Error :=
  match e with Plain c ps | Caused c ps _ => Caused c ps inner end.

(** [sdk.IsErrorServiceNotInitialized] and its two siblings. *)
Definition IsErrorServiceNotInitialized (e : Error) : bool :=
  match err_code e with SdkServiceNotInitialized => true | _ => false end.

Definition IsErrorServiceNotReady (e : Error) : bool :=
  match err_code e with SdkServiceNotReady => true | _ => false end.

Definition IsErrorServiceNotStarted (e : Error) : bool :=
  match err_code e with SdkServiceNotStarted => true | _ => false end.

(** ** Data model *)

(** The lifecycle states.  Go's [None] is spelled [StateNone] here, the
    bare name being the constructor of [option]. *)
Inductive InstanceState : Type :=
  | StateNone | Preparing | Committed | Started | Stopped.

#[global] Instance InstanceState_eq_dec : EqDecision InstanceState.
Proof. solve_decision. Defined.

(** Modelled from the spec: [InstanceState.String], declared next to the
    state type outside the files at hand; it names the state (section 4.1). *)
Definition State_String (s : InstanceState) : string :=
  match s with
  | StateNone => "None"
  | Preparing => "Preparing"
  | Committed => "Committed"
  | Started => "Started"
  | Stopped => "Stopped"
  end.

Inductive InstanceType : Type :=
  | BasicInstance | ExecutorInstance.

Record Volume := mkVolume { Path : string; Size : string; Owner : Z }.

Record File := mkFile { Source : string; Dest : string }.

Record Probe := mkProbe { probeSpec : string }.

Record PolicyRule := mkPolicyRule
  { Verbs : list string; APIGroups : list string; Resources : list string }.

Record Service := mkService { ClusterIP : string }.

Record ReplicaSet := mkReplicaSet { rsName : string }.

Record ObsyConfig := mkObsyConfig
  { otelCollectorVersion : string;
    prometheusEndpointPort : Z;
    prometheusEndpointJobName : string;
    prometheusEndpointScrapeInterval : string;
    jaegerGrpcPort : Z;
    jaegerThriftCompactPort : Z;
    jaegerThriftHttpPort : Z;
    jaegerEndpoint : string;
    otlpPort : Z;
    otlpEndpoint : string;
    otlpUsername : string;
    otlpPassword : string;
    prometheusExporterEndpoint : string;
    prometheusRemoteWriteExporterEndpoint : string }.

Record SecurityContext := mkSecurityContext
  { privileged : bool; capabilitiesAdd : list string }.

(** Modelled from the spec: the fault-injection configuration [btConfig]
    (declared outside the files at hand) with its enabled flag and target
    interface name (section 3); [enable] and [disable] switch the flag. *)
Record btConfig := mkBtConfig
  { enabled : bool; networkInterface : string }.

Definition bt_enable (c : btConfig) : btConfig :=
  mkBtConfig true (networkInterface c).

Definition bt_disable (c : btConfig) : btConfig :=
  mkBtConfig false (networkInterface c).

(** The image builder of one instance, an external collaborator: what it
    answers when asked. *)
Record BuilderFactory := mkBuilderFactory
  { Changed : bool;
    GenerateImageHash : Error + string;
    PushBuilderImage : string -> option Error;
    ImageNameFrom : string;
    SetEnvVar : string -> string -> option Error;
    ReadFileFromBuilder : string -> Error + list Byte.byte;
    ExecuteCmdInBuilder : list string -> Error + string }.

(** Pointers to instances; the nil pointer is [None : option ptr]. *)
Definition ptr : Type := nat.

Record Instance := mkInstance
  { name : string;
    imageName : string;
    k8sName : string;
    state : InstanceState;
    instanceType : InstanceType;
    kubernetesService : option Service;
    builderFactory : option BuilderFactory;
    kubernetesReplicaSet : option ReplicaSet;
    portsTCP : list Z;
    portsUDP : list Z;
    command : list string;
    args : list string;
    env : gmap string string;
    volumes : list Volume;
    memoryRequest : string;
    memoryLimit : string;
    cpuRequest : string;
    policyRules : list PolicyRule;
    livenessProbe : option Probe;
    readinessProbe : option Probe;
    startupProbe : option Probe;
    files : list File;
    isSidecar : bool;
    parentInstance : option ptr;
    sidecars : list ptr;
    fsGroup : Z;
    obsyConfig : ObsyConfig;
    securityContext : SecurityContext;
    BitTwister : btConfig }.

(** ** Field assignments

    [set_f v x] is the Go assignment [x.f = v]: every other field keeps its
    value. *)

Definition set_otelCollectorVersion (v : string) (x : ObsyConfig) : ObsyConfig :=
  let '(mkObsyConfig _ a1 a2 a3 a4 a5 a6 a7 a8 a9 a10 a11 a12 a13) := x in
  mkObsyConfig v a1 a2 a3 a4 a5 a6 a7 a8 a9 a10 a11 a12 a13.

Definition set_prometheusEndpointPort (v : Z) (x : ObsyConfig) : ObsyConfig :=
  let '(mkObsyConfig a0 _ a2 a3 a4 a5 a6 a7 a8 a9 a10 a11 a12 a13) := x in
  mkObsyConfig a0 v a2 a3 a4 a5 a6 a7 a8 a9 a10 a11 a12 a13.

Definition set_prometheusEndpointJobName (v : string) (x : ObsyConfig) : ObsyConfig :=
  let '(mkObsyConfig a0 a1 _ a3 a4 a5 a6 a7 a8 a9 a10 a11 a12 a13) := x in
  mkObsyConfig a0 a1 v a3 a4 a5 a6 a7 a8 a9 a10 a11 a12 a13.

Definition set_prometheusEndpointScrapeInterval (v : string) (x : ObsyConfig) : ObsyConfig :=
  let '(mkObsyConfig a0 a1 a2 _ a4 a5 a6 a7 a8 a9 a10 a11 a12 a13) := x in
  mkObsyConfig a0 a1 a2 v a4 a5 a6 a7 a8 a9 a10 a11 a12 a13.

Definition set_jaegerGrpcPort (v : Z) (x : ObsyConfig) : ObsyConfig :=
  let '(mkObsyConfig a0 a1 a2 a3 _ a5 a6 a7 a8 a9 a10 a11 a12 a13) := x in
  mkObsyConfig a0 a1 a2 a3 v a5 a6 a7 a8 a9 a10 a11 a12 a13.

Definition set_jaegerThriftCompactPort (v : Z) (x : ObsyConfig) : ObsyConfig :=
  let '(mkObsyConfig a0 a1 a2 a3 a4 _ a6 a7 a8 a9 a10 a11 a12 a13) := x in
  mkObsyConfig a0 a1 a2 a3 a4 v a6 a7 a8 a9 a10 a11 a12 a13.

Definition set_jaegerThriftHttpPort (v : Z) (x : ObsyConfig) : ObsyConfig :=
  let '(mkObsyConfig a0 a1 a2 a3 a4 a5 _ a7 a8 a9 a10 a11 a12 a13) := x in
  mkObsyConfig a0 a1 a2 a3 a4 a5 v a7 a8 a9 a10 a11 a12 a13.

Definition set_jaegerEndpoint (v : string) (x : ObsyConfig) : ObsyConfig :=
  let '(mkObsyConfig a0 a1 a2 a3 a4 a5 a6 _ a8 a9 a10 a11 a12 a13) := x in
  mkObsyConfig a0 a1 a2 a3 a4 a5 a6 v a8 a9 a10 a11 a12 a13.

Definition set_otlpPort (v : Z) (x : ObsyConfig) : ObsyConfig :=
  let '(mkObsyConfig a0 a1 a2 a3 a4 a5 a6 a7 _ a9 a10 a11 a12 a13) := x in
  mkObsyConfig a0 a1 a2 a3 a4 a5 a6 a7 v a9 a10 a11 a12 a13.

Definition set_otlpEndpoint (v : string) (x : ObsyConfig) : ObsyConfig :=
  let '(mkObsyConfig a0 a1 a2 a3 a4 a5 a6 a7 a8 _ a10 a11 a12 a13) := x in
  mkObsyConfig a0 a1 a2 a3 a4 a5 a6 a7 a8 v a10 a11 a12 a13.

Definition set_otlpUsername (v : string) (x : ObsyConfig) : ObsyConfig :=
  let '(mkObsyConfig a0 a1 a2 a3 a4 a5 a6 a7 a8 a9 _ a11 a12 a13) := x in
  mkObsyConfig a0 a1 a2 a3 a4 a5 a6 a7 a8 a9 v a11 a12 a13.

Definition set_otlpPassword (v : string) (x : ObsyConfig) : ObsyConfig :=
  let '(mkObsyConfig a0 a1 a2 a3 a4 a5 a6 a7 a8 a9 a10 _ a12 a13) := x in
  mkObsyConfig a0 a1 a2 a3 a4 a5 a6 a7 a8 a9 a10 v a12 a13.

Definition set_prometheusExporterEndpoint (v : string) (x : ObsyConfig) : ObsyConfig :=
  let '(mkObsyConfig a0 a1 a2 a3 a4 a5 a6 a7 a8 a9 a10 a11 _ a13) := x in
  mkObsyConfig a0 a1 a2 a3 a4 a5 a6 a7 a8 a9 a10 a11 v a13.

Definition set_prometheusRemoteWriteExporterEndpoint (v : string) (x : ObsyConfig) : ObsyConfig :=
  let '(mkObsyConfig a0 a1 a2 a3 a4 a5 a6 a7 a8 a9 a10 a11 a12 _) := x in
  mkObsyConfig a0 a1 a2 a3 a4 a5 a6 a7 a8 a9 a10 a11 a12 v.

Definition set_privileged (v : bool) (x : SecurityContext) : SecurityContext :=
  let '(mkSecurityContext _ a1) := x in
  mkSecurityContext v a1.

Definition set_capabilitiesAdd (v : list string) (x : SecurityContext) : SecurityContext :=
  let '(mkSecurityContext a0 _) := x in
  mkSecurityContext a0 v.

Definition set_imageName (v : string) (x : Instance) : Instance :=
  let '(mkInstance a0 _ a2 a3 a4 a5 a6 a7 a8 a9 a10 a11 a12 a13 a14 a15 a16 a17 a18 a19 a20 a21 a22 a23 a24 a25 a26 a27 a28) := x in
  mkInstance a0 v a2 a3 a4 a5 a6 a7 a8 a9 a10 a11 a12 a13 a14 a15 a16 a17 a18 a19 a20 a21 a22 a23 a24 a25 a26 a27 a28.

Definition set_state (v : InstanceState) (x : Instance) : Instance :=
  let '(mkInstance a0 a1 a2 _ a4 a5 a6 a7 a8 a9 a10 a11 a12 a13 a14 a15 a16 a17 a18 a19 a20 a21 a22 a23 a24 a25 a26 a27 a28) := x in
  mkInstance a0 a1 a2 v a4 a5 a6 a7 a8 a9 a10 a11 a12 a13 a14 a15 a16 a17 a18 a19 a20 a21 a22 a23 a24 a25 a26 a27 a28.

Definition set_portsTCP (v : list Z) (x : Instance) : Instance :=
  let '(mkInstance a0 a1 a2 a3 a4 a5 a6 a7 _ a9 a10 a11 a12 a13 a14 a15 a16 a17 a18 a19 a20 a21 a22 a23 a24 a25 a26 a27 a28) := x in
  mkInstance a0 a1 a2 a3 a4 a5 a6 a7 v a9 a10 a11 a12 a13 a14 a15 a16 a17 a18 a19 a20 a21 a22 a23 a24 a25 a26 a27 a28.

Definition set_portsUDP (v : list Z) (x : Instance) : Instance :=
  let '(mkInstance a0 a1 a2 a3 a4 a5 a6 a7 a8 _ a10 a11 a12 a13 a14 a15 a16 a17 a18 a19 a20 a21 a22 a23 a24 a25 a26 a27 a28) := x in
  mkInstance a0 a1 a2 a3 a4 a5 a6 a7 a8 v a10 a11 a12 a13 a14 a15 a16 a17 a18 a19 a20 a21 a22 a23 a24 a25 a26 a27 a28.

Definition set_command (v : list string) (x : Instance) : Instance :=
  let '(mkInstance a0 a1 a2 a3 a4 a5 a6 a7 a8 a9 _ a11 a12 a13 a14 a15 a16 a17 a18 a19 a20 a21 a22 a23 a24 a25 a26 a27 a28) := x in
  mkInstance a0 a1 a2 a3 a4 a5 a6 a7 a8 a9 v a11 a12 a13 a14 a15 a16 a17 a18 a19 a20 a21 a22 a23 a24 a25 a26 a27 a28.

Definition set_args (v : list string) (x : Instance) : Instance :=
  let '(mkInstance a0 a1 a2 a3 a4 a5 a6 a7 a8 a9 a10 _ a12 a13 a14 a15 a16 a17 a18 a19 a20 a21 a22 a23 a24 a25 a26 a27 a28) := x in
  mkInstance a0 a1 a2 a3 a4 a5 a6 a7 a8 a9 a10 v a12 a13 a14 a15 a16 a17 a18 a19 a20 a21 a22 a23 a24 a25 a26 a27 a28.

Definition set_env (v : gmap string string) (x : Instance) : Instance :=
  let '(mkInstance a0 a1 a2 a3 a4 a5 a6 a7 a8 a9 a10 a11 _ a13 a14 a15 a16 a17 a18 a19 a20 a21 a22 a23 a24 a25 a26 a27 a28) := x in
  mkInstance a0 a1 a2 a3 a4 a5 a6 a7 a8 a9 a10 a11 v a13 a14 a15 a16 a17 a18 a19 a20 a21 a22 a23 a24 a25 a26 a27 a28.

Definition set_volumes (v : list Volume) (x : Instance) : Instance :=
  let '(mkInstance a0 a1 a2 a3 a4 a5 a6 a7 a8 a9 a10 a11 a12 _ a14 a15 a16 a17 a18 a19 a20 a21 a22 a23 a24 a25 a26 a27 a28) := x in
  mkInstance a0 a1 a2 a3 a4 a5 a6 a7 a8 a9 a10 a11 a12 v a14 a15 a16 a17 a18 a19 a20 a21 a22 a23 a24 a25 a26 a27 a28.

Definition set_memoryRequest (v : string) (x : Instance) : Instance :=
  let '(mkInstance a0 a1 a2 a3 a4 a5 a6 a7 a8 a9 a10 a11 a12 a13 _ a15 a16 a17 a18 a19 a20 a21 a22 a23 a24 a25 a26 a27 a28) := x in
  mkInstance a0 a1 a2 a3 a4 a5 a6 a7 a8 a9 a10 a11 a12 a13 v a15 a16 a17 a18 a19 a20 a21 a22 a23 a24 a25 a26 a27 a28.

Definition set_memoryLimit (v : string) (x : Instance) : Instance :=
  let '(mkInstance a0 a1 a2 a3 a4 a5 a6 a7 a8 a9 a10 a11 a12 a13 a14 _ a16 a17 a18 a19 a20 a21 a22 a23 a24 a25 a26 a27 a28) := x in
  mkInstance a0 a1 a2 a3 a4 a5 a6 a7 a8 a9 a10 a11 a12 a13 a14 v a16 a17 a18 a19 a20 a21 a22 a23 a24 a25 a26 a27 a28.

Definition set_cpuRequest (v : string) (x : Instance) : Instance :=
  let '(mkInstance a0 a1 a2 a3 a4 a5 a6 a7 a8 a9 a10 a11 a12 a13 a14 a15 _ a17 a18 a19 a20 a21 a22 a23 a24 a25 a26 a27 a28) := x in
  mkInstance a0 a1 a2 a3 a4 a5 a6 a7 a8 a9 a10 a11 a12 a13 a14 a15 v a17 a18 a19 a20 a21 a22 a23 a24 a25 a26 a27 a28.

Definition set_policyRules (v : list PolicyRule) (x : Instance) : Instance :=
  let '(mkInstance a0 a1 a2 a3 a4 a5 a6 a7 a8 a9 a10 a11 a12 a13 a14 a15 a16 _ a18 a19 a20 a21 a22 a23 a24 a25 a26 a27 a28) := x in
  mkInstance a0 a1 a2 a3 a4 a5 a6 a7 a8 a9 a10 a11 a12 a13 a14 a15 a16 v a18 a19 a20 a21 a22 a23 a24 a25 a26 a27 a28.

Definition set_livenessProbe (v : option Probe) (x : Instance) : Instance :=
  let '(mkInstance a0 a1 a2 a3 a4 a5 a6 a7 a8 a9 a10 a11 a12 a13 a14 a15 a16 a17 _ a19 a20 a21 a22 a23 a24 a25 a26 a27 a28) := x in
  mkInstance a0 a1 a2 a3 a4 a5 a6 a7 a8 a9 a10 a11 a12 a13 a14 a15 a16 a17 v a19 a20 a21 a22 a23 a24 a25 a26 a27 a28.

Definition set_readinessProbe (v : option Probe) (x : Instance) : Instance :=
  let '(mkInstance a0 a1 a2 a3 a4 a5 a6 a7 a8 a9 a10 a11 a12 a13 a14 a15 a16 a17 a18 _ a20 a21 a22 a23 a24 a25 a26 a27 a28) := x in
  mkInstance a0 a1 a2 a3 a4 a5 a6 a7 a8 a9 a10 a11 a12 a13 a14 a15 a16 a17 a18 v a20 a21 a22 a23 a24 a25 a26 a27 a28.

Definition set_startupProbe (v : option Probe) (x : Instance) : Instance :=
  let '(mkInstance a0 a1 a2 a3 a4 a5 a6 a7 a8 a9 a10 a11 a12 a13 a14 a15 a16 a17 a18 a19 _ a21 a22 a23 a24 a25 a26 a27 a28) := x in
  mkInstance a0 a1 a2 a3 a4 a5 a6 a7 a8 a9 a10 a11 a12 a13 a14 a15 a16 a17 a18 a19 v a21 a22 a23 a24 a25 a26 a27 a28.

Definition set_files (v : list File) (x : Instance) : Instance :=
  let '(mkInstance a0 a1 a2 a3 a4 a5 a6 a7 a8 a9 a10 a11 a12 a13 a14 a15 a16 a17 a18 a19 a20 _ a22 a23 a24 a25 a26 a27 a28) := x in
  mkInstance a0 a1 a2 a3 a4 a5 a6 a7 a8 a9 a10 a11 a12 a13 a14 a15 a16 a17 a18 a19 a20 v a22 a23 a24 a25 a26 a27 a28.

Definition set_isSidecar (v : bool) (x : Instance) : Instance :=
  let '(mkInstance a0 a1 a2 a3 a4 a5 a6 a7 a8 a9 a10 a11 a12 a13 a14 a15 a16 a17 a18 a19 a20 a21 _ a23 a24 a25 a26 a27 a28) := x in
  mkInstance a0 a1 a2 a3 a4 a5 a6 a7 a8 a9 a10 a11 a12 a13 a14 a15 a16 a17 a18 a19 a20 a21 v a23 a24 a25 a26 a27 a28.

Definition set_parentInstance (v : option ptr) (x : Instance) : Instance :=
  let '(mkInstance a0 a1 a2 a3 a4 a5 a6 a7 a8 a9 a10 a11 a12 a13 a14 a15 a16 a17 a18 a19 a20 a21 a22 _ a24 a25 a26 a27 a28) := x in
  mkInstance a0 a1 a2 a3 a4 a5 a6 a7 a8 a9 a10 a11 a12 a13 a14 a15 a16 a17 a18 a19 a20 a21 a22 v a24 a25 a26 a27 a28.

Definition set_sidecars (v : list ptr) (x : Instance) : Instance :=
  let '(mkInstance a0 a1 a2 a3 a4 a5 a6 a7 a8 a9 a10 a11 a12 a13 a14 a15 a16 a17 a18 a19 a20 a21 a22 a23 _ a25 a26 a27 a28) := x in
  mkInstance a0 a1 a2 a3 a4 a5 a6 a7 a8 a9 a10 a11 a12 a13 a14 a15 a16 a17 a18 a19 a20 a21 a22 a23 v a25 a26 a27 a28.

Definition set_fsGroup (v : Z) (x : Instance) : Instance :=
  let '(mkInstance a0 a1 a2 a3 a4 a5 a6 a7 a8 a9 a10 a11 a12 a13 a14 a15 a16 a17 a18 a19 a20 a21 a22 a23 a24 _ a26 a27 a28) := x in
  mkInstance a0 a1 a2 a3 a4 a5 a6 a7 a8 a9 a10 a11 a12 a13 a14 a15 a16 a17 a18 a19 a20 a21 a22 a23 a24 v a26 a27 a28.

Definition set_obsyConfig (v : ObsyConfig) (x : Instance) : Instance :=
  let '(mkInstance a0 a1 a2 a3 a4 a5 a6 a7 a8 a9 a10 a11 a12 a13 a14 a15 a16 a17 a18 a19 a20 a21 a22 a23 a24 a25 _ a27 a28) := x in
  mkInstance a0 a1 a2 a3 a4 a5 a6 a7 a8 a9 a10 a11 a12 a13 a14 a15 a16 a17 a18 a19 a20 a21 a22 a23 a24 a25 v a27 a28.

Definition set_securityContext (v : SecurityContext) (x : Instance) : Instance :=
  let '(mkInstance a0 a1 a2 a3 a4 a5 a6 a7 a8 a9 a10 a11 a12 a13 a14 a15 a16 a17 a18 a19 a20 a21 a22 a23 a24 a25 a26 _ a28) := x in
  mkInstance a0 a1 a2 a3 a4 a5 a6 a7 a8 a9 a10 a11 a12 a13 a14 a15 a16 a17 a18 a19 a20 a21 a22 a23 a24 a25 a26 v a28.

Definition set_BitTwister (v : btConfig) (x : Instance) : Instance :=
  let '(mkInstance a0 a1 a2 a3 a4 a5 a6 a7 a8 a9 a10 a11 a12 a13 a14 a15 a16 a17 a18 a19 a20 a21 a22 a23 a24 a25 a26 a27 _) := x in
  mkInstance a0 a1 a2 a3 a4 a5 a6 a7 a8 a9 a10 a11 a12 a13 a14 a15 a16 a17 a18 a19 a20 a21 a22 a23 a24 a25 a26 a27 v.

(** ** The world: heap of instances, build cache, log of external calls *)

(** One request to the fault-injection client. *)
Inductive BtCall : Type :=
  | BandwidthStop
  | BandwidthStart (iface : string) (limit : Z)
  | LatencyStop
  | LatencyStart (iface : string) (latency jitter : Z)
  | PacketlossStop
  | PacketlossStart (iface : string) (rate : Z).

(** What the program asked of its collaborators, oldest first. *)
Inductive Event : Type :=
  | EvSetEnvVar (key value : string)
  | EvReadFileFromBuilder (file : string)
  | EvExecuteCmdInBuilder (cmd : list string)
  | EvAddFileToBuilder (src dest chown : string)
  | EvGenerateImageHash
  | EvPushBuilderImage (image : string)
  | EvGetFirstPodFromReplicaSet (rs : string)
  | EvPortForwardPod (pod : string) (localPort port : Z)
  | EvRunCommandInPod (pod container : string) (cmd : list string)
  | EvIsReplicaSetRunning (rs : string)
  | EvDeployResources (k8s : string)
  | EvDeployPod (k8s : string)
  | EvDestroyPod (k8s : string)
  | EvBitTwister (call : BtCall) (answer : option Error)
  | EvFileSystem (op path : string)
  | EvSleep (d : Z).

Record World := mkWorld
  { heap : gmap ptr Instance;
    imageCache : gmap string string;
    log : list Event;
    now : Z }.

Definition set_heap (v : gmap ptr Instance) (w : World) : World :=
  mkWorld v (imageCache w) (log w) (now w).

Definition set_imageCache (v : gmap string string) (w : World) : World :=
  mkWorld (heap w) v (log w) (now w).

Definition set_log (v : list Event) (w : World) : World :=
  mkWorld (heap w) (imageCache w) v (now w).

Definition set_now (v : Z) (w : World) : World :=
  mkWorld (heap w) (imageCache w) (log w) v.

(** How a call ends: with a value, with a Go [error], or in a run-time
    panic (a nil pointer dereferenced). *)
Inductive Res (A : Type) : Type :=
  | Ok (a : A)
  | Fail (e : Error)
  | Panic.

Arguments Ok {A} a.
Arguments Fail {A} e.
Arguments Panic {A}.

Definition M (A : Type) : Type := World -> World * Res A.

Definition ret {A} (a : A) : M A := fun w => (w, Ok a).

Definition fail {A} (e : Error) : M A := fun w => (w, Fail e).

Definition panic {A} : M A := fun w => (w, Panic).

Definition bind {A B} (m : M A) (k : A -> M B) : M B :=
  fun w =>
    match m w with
    | (w', Ok a) => k a w'
    | (w', Fail e) => (w', Fail e)
    | (w', Panic) => (w', Panic)
    end.

Declare Scope go_scope.
Delimit Scope go_scope with go.

Notation "'let*' x ':=' c 'in' k" := (bind c (fun x => k))
  (at level 10, x name, c at level 100, k at level 200) : go_scope.

#[local] Open Scope go_scope.

(** [if !cond { return e }] *)
Definition check (cond : bool) (e : Error) : M unit :=
  if cond then ret tt else fail e.

(** [if err != nil { return err }] *)
Definition orReturn (err : option Error) : M unit :=
  match err with
  | Some e => fail e
  | None => ret tt
  end.

(** [v, err := ...; if err != nil { return err }] *)
Definition orReturnV {A} (r : Error + A) : M A :=
  match r with
  | inl e => fail e
  | inr a => ret a
  end.

(** [if err := m; err != nil { return outer.Wrap(err) }] *)
Definition wrapWith {A} (outer : Error) (m : M A) : M A :=
  fun w =>
    match m w with
    | (w', Fail e) => (w', Fail (Wrap outer e))
    | r => r
    end.

(** Dereference of an instance pointer. *)
Definition load (p : ptr) : M Instance :=
  fun w =>
    match heap w !! p with
    | Some i => (w, Ok i)
    | None => (w, Panic)
    end.

(** Assignment to fields of the instance behind a pointer. *)
Definition update (p : ptr) (f : Instance -> Instance) : M unit :=
  fun w =>
    match heap w !! p with
    | Some i => (set_heap (<[p := f i]> (heap w)) w, Ok tt)
    | None => (w, Panic)
    end.

(** Dereference of a pointer field that may be nil. *)
Definition deref {A} (o : option A) : M A :=
  match o with
  | Some a => ret a
  | None => panic
  end.

Definition emit (ev : Event) : M unit :=
  fun w => (set_log (log w ++ [ev]) w, Ok tt).

(** A question to a collaborator, which may answer by what happened so far. *)
Definition ask {A} (q : list Event -> A) : M A :=
  fun w => (w, Ok (q (log w))).

(** [time.Sleep] *)
Definition Sleep (d : Z) : M unit :=
  fun w => (set_now (now w + d) (set_log (log w ++ [EvSleep d]) w), Ok tt).

Definition E (c : ErrCode) (ps : list Param) : Error := WithParams (New_ c) ps.

(** Modelled from the spec: [Instance.IsInState], declared with the other
    helpers outside the files at hand: the state is one of those listed. *)
Definition IsInState (i : Instance) (states : list InstanceState) : bool :=
  existsb (fun s => bool_decide (state i = s)) states.

(** Modelled from the spec: [isTCPPortRegistered] and [isUDPPortRegistered]
    (helpers outside the files at hand): the port is in the instance's set
    (sections 3 and 8). *)
Definition isTCPPortRegistered (i : Instance) (port : Z) : bool :=
  existsb (Z.eqb port) (portsTCP i).

Definition isUDPPortRegistered (i : Instance) (port : Z) : bool :=
  existsb (Z.eqb port) (portsUDP i).

(** [time.Second], [time.Minute] in nanoseconds, and the retry policy. *)
Definition Second : Z := 1000000000.
Definition Minute : Z := 60 * Second.
Definition maxRetries : Z := 5.
Definition retryInterval : Z := 5 * Second.

(** What [os.Stat] can say about a path. *)
Inductive StatResult : Type :=
  | StatOk (isDir : bool)
  | StatNotExist (err : Error)
  | StatError (err : Error).

(** One visit of [filepath.Walk]. *)
Record WalkEntry := mkWalkEntry
  { wPath : string; wIsDir : bool; wErr : option Error }.

(** The collaborators, and the helpers of the package that are declared
    outside the files at hand.  A field that takes the log may answer
    differently from one call to the next. *)
Record Collaborators := mkCollaborators
  { (* helpers of the package *)
    validatePort : Z -> option Error;
    validateFileArgs : string -> string -> string -> option Error;
    getBuildDir : Instance -> string;
    getImageRegistry : list Event -> Instance -> Error + string;
    isSubFolderOfVolumes : Instance -> string -> bool;
    addFileToBuilder : list Event -> Instance -> string -> string -> string -> option Error;
    isObservabilityEnabled : Instance -> bool;
    createOtelCollectorInstance : list Event -> Instance -> Error + Instance;
    createBitTwisterInstance : list Event -> Instance -> Error + Instance;
    deployResources : list Event -> Instance -> option Error;
    deployPod : list Event -> Instance -> option Error;
    destroyPod : list Event -> Instance -> option Error;
    (* cluster client *)
    GetFirstPodFromReplicaSet : list Event -> string -> Error + string;
    PortForwardPod : list Event -> string -> Z -> Z -> option Error;
    RunCommandInPod : list Event -> string -> string -> list string -> Error + string;
    IsReplicaSetRunning : list Event -> string -> Error + bool;
    (* fault-injection client *)
    BitTwisterClient : list Event -> BtCall -> option Error;
    (* operating system and standard library *)
    getFreePortTCP : list Event -> Error + Z;
    os_Stat : list Event -> string -> StatResult;
    os_MkdirAll : list Event -> string -> option Error;
    os_Create : list Event -> string -> option Error;
    os_Open : list Event -> string -> option Error;
    io_Copy : list Event -> string -> string -> option Error;
    os_CreateTemp : list Event -> Error + string;
    tmp_Write : list Event -> string -> list Byte.byte -> option Error;
    tmp_Close : list Event -> string -> option Error;
    filepath_Join : string -> string -> string;
    filepath_Dir : string -> string;
    filepath_Rel : string -> string -> Error + string;
    filepath_Walk : list Event -> string -> list WalkEntry;
    strconv_ParseInt : string -> Error + Z;
    (* the scheduler: which of two ready channels a select takes *)
    selectTickFirst : list Event -> bool }.

(** [strings.Split(s, ":")]: a string with n colons has n + 1 parts. *)
Fixpoint splitColon (s : string) : list string :=
  match s with
  | EmptyString => [EmptyString]
  | String c rest =>
      if Ascii.eqb c (Ascii.ascii_of_nat 58) then EmptyString :: splitColon rest
      else match splitColon rest with
           | p :: ps => String c p :: ps
           | [] => [String c EmptyString]
           end
  end.

(** A collaborator is asked, and the request is written to the log. *)
Definition call {A} (ev : Event) (q : list Event -> A) : M A :=
  fun w => (set_log (log w ++ [ev]) w, Ok (q (log w))).

(** [defer d]: [d] runs when the body is left, however it is left. *)
Definition deferring {A} (d : M unit) (body : M A) : M A :=
  fun w => match body w with (w', r) => (fst (d w'), r) end.

(** The image cache of the package: a process-wide map from image hash to
    image name, here the [imageCache] component of the world. *)
Definition checkImageHashInCache (imageHash : string) : M (string * bool) :=
  fun w =>
    match imageCache w !! imageHash with
    | Some imageName => (w, Ok (imageName, true))
    | None => (w, Ok (EmptyString, false))
    end.

Definition updateImageCacheWithHash (imageHash imageName : string) : M unit :=
  fun w => (set_imageCache (<[imageHash := imageName]> (imageCache w)) w, Ok tt).

(** A call made as a statement: the error it returns is not looked at. *)
Definition discard {A} (m : M A) : M unit :=
  fun w =>
    match m w with
    | (w', Panic) => (w', Panic)
    | (w', _) => (w', Ok tt)
    end.

(** A new instance on the heap. *)
Definition alloc (v : Instance) : M ptr :=
  fun w =>
    let p := fresh (dom (heap w)) in
    (set_heap (<[p := v]> (heap w)) w, Ok p).

(** The clock moves on to an instant that is not in the past. *)
Definition waitUntil (t : Z) : M unit :=
  fun w => (set_now (Z.max (now w) t) w, Ok tt).

(** Modelled from the spec: [applyFunctionToInstances], a helper outside
    the files at hand.  The function is run on each instance of the list in
    order (it takes the instance by value); the first error ends the run
    and is the result. *)
Fixpoint applyFunctionToInstances (instances : list ptr)
    (function : Instance -> M unit) : M unit :=
  match instances with
  | [] => ret tt
  | p :: rest =>
      let* sidecar := load p in
      let* _ := function sidecar in
      applyFunctionToInstances rest function
  end.

(** Modelled from the spec: [setStateForSidecars], a helper outside the
    files at hand.  "Flip state to Started for parent and all sidecars
    synchronously", "state becomes Stopped for parent and sidecars together"
    (section 4.4): every sidecar of the list gets the state. *)
Fixpoint setStateForSidecars (sidecars : list ptr) (st : InstanceState) : M unit :=
  match sidecars with
  | [] => ret tt
  | p :: rest =>
      let* _ := update p (set_state st) in
      setStateForSidecars rest st
  end.

(** ** The methods of [*Instance] *)

Section Methods.

Context (sys : Collaborators).

Definition stateParam (i : Instance) : list Param :=
  [PStr (State_String (state i))].

Definition EnableBitTwister (i : ptr) : M unit :=
  let* this := load i in
  let* _ := check (negb (IsInState this [Started])) (New_ ErrEnablingBitTwister) in
  update i (fun x => set_BitTwister (bt_enable (BitTwister x)) x).

Definition DisableBitTwister (i : ptr) : M unit :=
  update i (fun x => set_BitTwister (bt_disable (BitTwister x)) x).

Definition SetCommand (i : ptr) (cmd : list string) : M unit :=
  let* this := load i in
  let* _ := check (IsInState this [Preparing; Committed])
                  (E ErrSettingCommand (stateParam this)) in
  update i (set_command cmd).

Definition SetArgs (i : ptr) (a : list string) : M unit :=
  let* this := load i in
  let* _ := check (IsInState this [Preparing; Committed])
                  (E ErrSettingArgsNotAllowed (stateParam this)) in
  update i (set_args a).

Definition AddPortTCP (i : ptr) (port : Z) : M unit :=
  let* this := load i in
  let* _ := check (IsInState this [Preparing; Committed])
                  (E ErrAddingPortNotAllowed (stateParam this)) in
  let* _ := orReturn (validatePort sys port) in
  let* _ := check (negb (isTCPPortRegistered this port))
                  (E ErrPortAlreadyRegistered [PInt port]) in
  update i (fun x => set_portsTCP (portsTCP x ++ [port]) x).

Definition AddPortUDP (i : ptr) (port : Z) : M unit :=
  let* this := load i in
  let* _ := check (IsInState this [Preparing; Committed])
                  (E ErrAddingPortNotAllowed (stateParam this)) in
  let* _ := orReturn (validatePort sys port) in
  let* _ := check (negb (isUDPPortRegistered this port))
                  (E ErrUDPPortAlreadyRegistered [PInt port]) in
  update i (fun x => set_portsUDP (portsUDP x ++ [port]) x).

Definition checkStateForAddingFile (i : ptr) : M unit :=
  let* this := load i in
  check (IsInState this [Preparing; Committed])
        (E ErrAddingFileNotAllowed (stateParam this)).

(** The [Committed] arm of the switch at the end of [AddFile]. *)
Definition addFileCommitted (i : ptr) (src dest chown dstPath : string) : M unit :=
  let* this := load i in
  let* _ := check (isSubFolderOfVolumes sys this dest)
                  (E ErrFileIsNotSubFolderOfVolumes [PStr dest]) in
  let* st := ask (fun l => os_Stat sys l src) in
  let* _ := match st with
            | StatNotExist err =>
                fail (Wrap (E ErrSrcDoesNotExistOrIsDirectory [PStr src]) err)
            | StatError _ => panic (* srcInfo is nil *)
            | StatOk true => fail (E ErrSrcDoesNotExistOrIsDirectory [PStr src])
            | StatOk false => ret tt
            end in
  let file := mkFile dstPath dest in
  match splitColon chown with
  | [_; part1] =>
      let* group := wrapWith (New_ ErrFailedToConvertToInt64)
                             (orReturnV (strconv_ParseInt sys part1)) in
      let* _ := check (negb (negb (fsGroup this =? 0)%Z && negb (fsGroup this =? group)%Z))
                      (New_ ErrAllFilesMustHaveSameGroup) in
      let* _ := update i (set_fsGroup group) in
      update i (fun x => set_files (files x ++ [file]) x)
  | _ => fail (New_ ErrInvalidFormat)
  end.

Definition AddFile (i : ptr) (src dest chown : string) : M unit :=
  let* _ := checkStateForAddingFile i in
  let* this := load i in
  let* _ := orReturn (validateFileArgs sys src dest chown) in
  let* st := ask (fun l => os_Stat sys l src) in
  let* _ := match st with
            | StatNotExist err => fail (Wrap (E ErrSrcDoesNotExist [PStr src]) err)
            | _ => ret tt
            end in
  let dstPath := filepath_Join sys (getBuildDir sys this) dest in
  let* _ := wrapWith (New_ ErrCreatingDirectory)
              (let* r := call (EvFileSystem "MkdirAll" (filepath_Dir sys dstPath))
                              (fun l => os_MkdirAll sys l (filepath_Dir sys dstPath)) in
               orReturn r) in
  let* _ := wrapWith (E ErrFailedToCreateDestFile [PStr dstPath])
              (let* r := call (EvFileSystem "Create" dstPath)
                              (fun l => os_Create sys l dstPath) in
               orReturn r) in
  let* _ := wrapWith (E ErrFailedToOpenSrcFile [PStr src])
              (let* r := ask (fun l => os_Open sys l src) in orReturn r) in
  let* _ := wrapWith (E ErrFailedToCopyFile [PStr src; PStr dstPath])
              (let* r := call (EvFileSystem "Copy" dstPath)
                              (fun l => io_Copy sys l dstPath src) in
               orReturn r) in
  match state this with
  | Preparing =>
      let* r := call (EvAddFileToBuilder src dest chown)
                     (fun l => addFileToBuilder sys l this src dest chown) in
      orReturn r
  | Committed => addFileCommitted i src dest chown dstPath
  | _ => ret tt
  end.

(** The function that [AddFolder] hands to [filepath.Walk], run on the
    entries in the order of the walk; the first error ends the walk. *)
Fixpoint walkFolder (i : ptr) (src dest chown : string) (entries : list WalkEntry)
  : M unit :=
  match entries with
  | [] => ret tt
  | e :: rest =>
      let* this := load i in
      let* _ := orReturn (wErr e) in
      let* relPath := orReturnV (filepath_Rel sys src (wPath e)) in
      let dstPath :=
        filepath_Join sys (filepath_Join sys (getBuildDir sys this) dest) relPath in
      let* _ := if wIsDir e
                then let* r := call (EvFileSystem "MkdirAll" dstPath)
                                    (fun l => os_MkdirAll sys l dstPath) in
                     orReturn r
                else AddFile i (wPath e) (filepath_Join sys dest relPath) chown in
      walkFolder i src dest chown rest
  end.

Definition AddFolder (i : ptr) (src dest chown : string) : M unit :=
  let* this := load i in
  let* _ := check (IsInState this [Preparing; Committed])
                  (E ErrAddingFolderNotAllowed (stateParam this)) in
  (* the result of validateFileArgs is dropped *)
  let* st := ask (fun l => os_Stat sys l src) in
  let* _ := match st with
            | StatNotExist err =>
                fail (Wrap (E ErrSrcDoesNotExistOrIsNotDirectory [PStr src]) err)
            | StatError _ => panic (* srcInfo is nil *)
            | StatOk false => fail (E ErrSrcDoesNotExistOrIsNotDirectory [PStr src])
            | StatOk true => ret tt
            end in
  let* entries := ask (fun l => filepath_Walk sys l src) in
  wrapWith (E ErrCopyingFolderToInstance [PStr src; PStr (name this)])
           (walkFolder i src dest chown entries).

Definition AddFileBytes (i : ptr) (bytes : list Byte.byte) (dest chown : string)
  : M unit :=
  let* _ := checkStateForAddingFile i in
  let* tmpfile := let* r := call (EvFileSystem "CreateTemp" "temp")
                                 (fun l => os_CreateTemp sys l) in
                  orReturnV r in
  deferring (emit (EvFileSystem "Remove" tmpfile))
    (let* _ := let* r := call (EvFileSystem "Write" tmpfile)
                              (fun l => tmp_Write sys l tmpfile bytes) in
               orReturn r in
     let* _ := let* r := call (EvFileSystem "Close" tmpfile)
                              (fun l => tmp_Close sys l tmpfile) in
               orReturn r in
     AddFile i tmpfile dest chown).

Definition Commit (i : ptr) : M unit :=
  let* this := load i in
  let* _ := check (IsInState this [Preparing])
                  (E ErrCommittingNotAllowed (stateParam this)) in
  let* bf := deref (builderFactory this) in
  let* _ :=
    if Changed bf then
      let* imageName := wrapWith (New_ ErrGettingImageRegistry)
                          (let* r := ask (fun l => getImageRegistry sys l this) in
                           orReturnV r) in
      let* imageHash := wrapWith (New_ ErrGeneratingImageHash)
                          (let* r := call EvGenerateImageHash
                                          (fun _ => GenerateImageHash bf) in
                           orReturnV r) in
      let* cached := checkImageHashInCache imageHash in
      if snd cached then
        update i (set_imageName (fst cached))
      else
        let* _ := wrapWith (E ErrPushingImage [PStr (name this)])
                    (let* r := call (EvPushBuilderImage imageName)
                                    (fun _ => PushBuilderImage bf imageName) in
                     orReturn r) in
        let* _ := updateImageCacheWithHash imageHash imageName in
        update i (set_imageName imageName)
    else
      update i (set_imageName (ImageNameFrom bf)) in
  update i (set_state Committed).

Definition AddVolumeWithOwner (i : ptr) (path size : string) (owner : Z) : M unit :=
  let* this := load i in
  let* _ := check (IsInState this [Preparing; Committed])
                  (E ErrAddingVolumeNotAllowed (stateParam this)) in
  let* _ := check (negb (0 <? length (volumes this))%nat)
                  (E ErrMaximumVolumesExceeded [PStr (name this)]) in
  let volume := mkVolume path size owner in
  update i (fun x => set_volumes (volumes x ++ [volume]) x).

(** [AddVolume] calls [AddVolumeWithOwner] as a statement: the error it
    returns is dropped, and [AddVolume] returns nil. *)
Definition AddVolume (i : ptr) (path size : string) : M unit :=
  let* this := load i in
  let* _ := check (negb (0 <? length (volumes this))%nat)
                  (E ErrMaximumVolumesExceeded [PStr (name this)]) in
  discard (AddVolumeWithOwner i path size 0).

Definition SetMemory (i : ptr) (request limit : string) : M unit :=
  let* this := load i in
  let* _ := check (IsInState this [Preparing; Committed])
                  (E ErrSettingMemoryNotAllowed (stateParam this)) in
  let* _ := update i (set_memoryRequest request) in
  update i (set_memoryLimit limit).

Definition SetCPU (i : ptr) (request : string) : M unit :=
  let* this := load i in
  let* _ := check (IsInState this [Preparing; Committed])
                  (E ErrSettingCPUNotAllowed (stateParam this)) in
  update i (set_cpuRequest request).

Definition SetEnvironmentVariable (i : ptr) (key value : string) : M unit :=
  let* this := load i in
  let* _ := check (IsInState this [Preparing; Committed])
                  (E ErrSettingEnvNotAllowed (stateParam this)) in
  match state this with
  | Preparing =>
      let* bf := deref (builderFactory this) in
      let* r := call (EvSetEnvVar key value) (fun _ => SetEnvVar bf key value) in
      orReturn r
  | Committed => update i (fun x => set_env (<[key := value]> (env x)) x)
  | _ => ret tt
  end.

Definition ExecuteCommand (i : ptr) (cmd : list string) : M string :=
  let* this := load i in
  let* _ := check (IsInState this [Preparing; Started])
                  (E ErrExecutingCommandNotAllowed (stateParam this)) in
  if IsInState this [Preparing] then
    let* bf := deref (builderFactory this) in
    wrapWith (E ErrExecutingCommandInInstance [PStrs cmd; PStr (name this)])
      (let* r := call (EvExecuteCmdInBuilder cmd)
                      (fun _ => ExecuteCmdInBuilder bf cmd) in
       orReturnV r)
  else
    let containerName := k8sName this in
    let* target :=
      if isSidecar this then
        let* pp := deref (parentInstance this) in
        let* parent := load pp in
        ret (k8sName parent,
             E ErrExecutingCommandInSidecar
               [PStrs cmd; PStr (k8sName this); PStr (k8sName parent)])
      else
        ret (k8sName this,
             E ErrExecutingCommandInInstance [PStrs cmd; PStr (k8sName this)]) in
    let* pod := wrapWith (E ErrGettingPodFromReplicaSet [PStr (k8sName this)])
                  (let* r := call (EvGetFirstPodFromReplicaSet (fst target))
                                  (fun l => GetFirstPodFromReplicaSet sys l (fst target)) in
                   orReturnV r) in
    let commandWithShell := ["/bin/sh"; "-c"; String.concat " " cmd] in
    wrapWith (snd target)
      (let* r := call (EvRunCommandInPod pod containerName commandWithShell)
                      (fun l => RunCommandInPod sys l pod containerName commandWithShell) in
       orReturnV r).

Definition ReadFileFromRunningInstance (i : ptr) (filePath : string) : M string :=
  let* this := load i in
  let* _ := check (IsInState this [Started])
                  (E ErrReadingFileNotAllowed (stateParam this)) in
  wrapWith (E ErrReadingFileFromInstance [PStr filePath; PStr (name this)])
           (ExecuteCommand i ["cat"; filePath]).

Definition GetFileBytes (i : ptr) (file : string) : M (list Byte.byte) :=
  let* this := load i in
  let* _ := check (IsInState this [Preparing; Committed; Started])
                  (E ErrGettingFileNotAllowed (stateParam this)) in
  if negb (bool_decide (state this = Started)) then
    let* bf := deref (builderFactory this) in
    wrapWith (E ErrGettingFile [PStr file; PStr (name this)])
      (let* r := call (EvReadFileFromBuilder file)
                      (fun _ => ReadFileFromBuilder bf file) in
       orReturnV r)
  else
    let* rc := wrapWith (E ErrReadingFile [PStr file; PStr (name this)])
                        (ReadFileFromRunningInstance i file) in
    ret (String.list_byte_of_string rc).

Definition AddPolicyRule (i : ptr) (rule : PolicyRule) : M unit :=
  let* this := load i in
  let* _ := check (IsInState this [Preparing; Committed])
                  (E ErrAddingPolicyRuleNotAllowed (stateParam this)) in
  update i (fun x => set_policyRules (policyRules x ++ [rule]) x).

Definition checkStateForProbe (i : ptr) : M unit :=
  let* this := load i in
  check (IsInState this [Preparing; Committed])
        (E ErrSettingProbeNotAllowed (stateParam this)).

Definition SetLivenessProbe (i : ptr) (probe : option Probe) : M unit :=
  let* _ := checkStateForProbe i in
  update i (set_livenessProbe probe).

Definition SetReadinessProbe (i : ptr) (probe : option Probe) : M unit :=
  let* _ := checkStateForProbe i in
  update i (set_readinessProbe probe).

Definition SetStartupProbe (i : ptr) (probe : option Probe) : M unit :=
  let* _ := checkStateForProbe i in
  update i (set_startupProbe probe).

Definition AddSidecar (i : ptr) (sidecar : option ptr) : M unit :=
  let* this := load i in
  let* _ := check (IsInState this [Preparing; Committed])
                  (E ErrAddingSidecarNotAllowed (stateParam this)) in
  match sidecar with
  | None => fail (New_ ErrSidecarIsNil)
  | Some s =>
      let* _ := check (negb (bool_decide (s = i)))
                      (New_ ErrSidecarCannotBeSameInstance) in
      let* sc := load s in
      let* _ := check (bool_decide (state sc = Committed))
                      (E ErrSidecarNotCommitted [PStr (name sc)]) in
      let* _ := check (negb (isSidecar this))
                      (E ErrSidecarCannotHaveSidecar [PStr (name this)]) in
      let* _ := check (negb (isSidecar sc))
                      (E ErrSidecarAlreadySidecar [PStr (name sc)]) in
      let* _ := update i (fun x => set_sidecars (sidecars x ++ [s]) x) in
      let* _ := update s (set_isSidecar true) in
      update s (set_parentInstance (Some i))
  end.

(** Modelled from the spec: [validateStateForObsy], a helper outside the
    files at hand.  The observability mutators "are legal only in
    {Preparing, Committed}; violation fails with a state-violation error
    naming the operation and current state" (section 4.1). *)
Definition validateStateForObsy (i : ptr) (endpoint : string) : M unit :=
  let* this := load i in
  check (IsInState this [Preparing; Committed])
        (E ErrSettingNotAllowed [PStr endpoint; PStr (State_String (state this))]).

Definition onObsy (f : ObsyConfig -> ObsyConfig) (x : Instance) : Instance :=
  set_obsyConfig (f (obsyConfig x)) x.

Definition SetOtelCollectorVersion (i : ptr) (version : string) : M unit :=
  let* _ := validateStateForObsy i "OpenTelemetry collector version" in
  update i (onObsy (set_otelCollectorVersion version)).

Definition SetOtelEndpoint (i : ptr) (port : Z) : M unit :=
  let* _ := validateStateForObsy i "OpenTelemetry endpoint" in
  update i (onObsy (set_otlpPort port)).

Definition SetPrometheusEndpoint (i : ptr) (port : Z) (jobName scapeInterval : string)
  : M unit :=
  let* _ := validateStateForObsy i "Prometheus endpoint" in
  let* _ := update i (onObsy (set_prometheusEndpointPort port)) in
  let* _ := update i (onObsy (set_prometheusEndpointJobName jobName)) in
  update i (onObsy (set_prometheusEndpointScrapeInterval scapeInterval)).

Definition SetJaegerEndpoint (i : ptr) (grpcPort thriftCompactPort thriftHttpPort : Z)
  : M unit :=
  let* _ := validateStateForObsy i "Jaeger endpoint" in
  let* _ := update i (onObsy (set_jaegerGrpcPort grpcPort)) in
  let* _ := update i (onObsy (set_jaegerThriftCompactPort thriftCompactPort)) in
  update i (onObsy (set_jaegerThriftHttpPort thriftHttpPort)).

Definition SetOtlpExporter (i : ptr) (endpoint username password : string) : M unit :=
  let* _ := validateStateForObsy i "OTLP exporter" in
  let* _ := update i (onObsy (set_otlpEndpoint endpoint)) in
  let* _ := update i (onObsy (set_otlpUsername username)) in
  update i (onObsy (set_otlpPassword password)).

Definition SetJaegerExporter (i : ptr) (endpoint : string) : M unit :=
  let* _ := validateStateForObsy i "Jaeger exporter" in
  update i (onObsy (set_jaegerEndpoint endpoint)).

Definition SetPrometheusExporter (i : ptr) (endpoint : string) : M unit :=
  let* _ := validateStateForObsy i "Prometheus exporter" in
  update i (onObsy (set_prometheusExporterEndpoint endpoint)).

Definition SetPrometheusRemoteWriteExporter (i : ptr) (endpoint : string) : M unit :=
  let* _ := validateStateForObsy i "Prometheus remote write exporter" in
  update i (onObsy (set_prometheusRemoteWriteExporterEndpoint endpoint)).

Definition onSecurity (f : SecurityContext -> SecurityContext) (x : Instance)
  : Instance :=
  set_securityContext (f (securityContext x)) x.

Definition SetPrivileged (i : ptr) (p : bool) : M unit :=
  let* this := load i in
  let* _ := check (IsInState this [Preparing; Committed])
                  (E ErrSettingPrivilegedNotAllowed (stateParam this)) in
  update i (onSecurity (set_privileged p)).

Definition appendCapability (capability : string) (x : Instance) : Instance :=
  onSecurity (fun sc => set_capabilitiesAdd (capabilitiesAdd sc ++ [capability]) sc) x.

Definition AddCapability (i : ptr) (capability : string) : M unit :=
  let* this := load i in
  let* _ := check (IsInState this [Preparing; Committed])
                  (E ErrAddingCapabilityNotAllowed (stateParam this)) in
  update i (appendCapability capability).

Fixpoint addEachCapability (i : ptr) (capabilities : list string) : M unit :=
  match capabilities with
  | [] => ret tt
  | capability :: rest =>
      let* _ := update i (appendCapability capability) in
      addEachCapability i rest
  end.

Definition AddCapabilities (i : ptr) (capabilities : list string) : M unit :=
  let* this := load i in
  let* _ := check (IsInState this [Preparing; Committed])
                  (E ErrAddingCapabilitiesNotAllowed (stateParam this)) in
  addEachCapability i capabilities.

Fixpoint forwardAttempts (i : ptr) (pod : string) (localPort port : Z)
    (attempts : list Z) : M unit :=
  match attempts with
  | [] => ret tt
  | attempt :: rest =>
      let* err := call (EvPortForwardPod pod localPort port)
                       (fun l => PortForwardPod sys l pod localPort port) in
      match err with
      | None => ret tt (* break *)
      | Some _ =>
          let* _ := check (negb (attempt =? maxRetries)%Z)
                          (E ErrForwardingPort [PInt maxRetries]) in
          let* _ := Sleep retryInterval in
          forwardAttempts i pod localPort port rest
      end
  end.

(** The integer that Go returns next to a non-nil error (-1 or 0) is not
    kept: a failure is [Fail]. *)
Definition PortForwardTCP (i : ptr) (port : Z) : M Z :=
  let* this := load i in
  let* _ := check (IsInState this [Started])
                  (E ErrRandomPortForwardingNotAllowed (stateParam this)) in
  let* _ := orReturn (validatePort sys port) in
  let* _ := check (isTCPPortRegistered this port)
                  (E ErrPortNotRegistered [PInt port]) in
  let* free := ask (getFreePortTCP sys) in
  let* localPort := match free with
                    | inl _ => fail (E ErrGettingFreePort [PInt port])
                    | inr lp => ret lp
                    end in
  let* pod := wrapWith (E ErrGettingPodFromReplicaSet [PStr (k8sName this)])
                (let* r := call (EvGetFirstPodFromReplicaSet (k8sName this))
                                (fun l => GetFirstPodFromReplicaSet sys l (k8sName this)) in
                 orReturnV r) in
  let* _ := forwardAttempts i pod localPort port (seqZ 1 maxRetries) in
  ret localPort.

(** Modelled from the spec: [addOtelCollectorSidecar] and
    [addBitTwisterSidecar], helpers outside the files at hand.  "If
    observability or fault-injection is configured, synthesize and attach
    the corresponding sidecar automatically" (section 4.4): the sidecar
    instance is made by a collaborator and attached with [AddSidecar]. *)
Definition addOtelCollectorSidecar (i : ptr) : M unit :=
  let* this := load i in
  let* made := ask (fun l => createOtelCollectorInstance sys l this) in
  let* sc := orReturnV made in
  let* p := alloc sc in
  AddSidecar i (Some p).

Definition addBitTwisterSidecar (i : ptr) : M unit :=
  let* this := load i in
  let* made := ask (fun l => createBitTwisterInstance sys l this) in
  let* sc := orReturnV made in
  let* p := alloc sc in
  AddSidecar i (Some p).

(** The three deployment helpers are outside the files at hand; what they
    do happens in the cluster, and the cluster's answer is theirs. *)
Definition deployResourcesOf (this : Instance) : M unit :=
  let* r := call (EvDeployResources (k8sName this))
                 (fun l => deployResources sys l this) in
  orReturn r.

Definition deployPodOf (this : Instance) : M unit :=
  let* r := call (EvDeployPod (k8sName this)) (fun l => deployPod sys l this) in
  orReturn r.

Definition destroyPodOf (this : Instance) : M unit :=
  let* r := call (EvDestroyPod (k8sName this)) (fun l => destroyPod sys l this) in
  orReturn r.

(** The check that [StartWithoutWait] and nothing else makes on each
    sidecar before anything is deployed. *)
Definition checkSidecarStartable (sidecar : Instance) : M unit :=
  check (IsInState sidecar [Committed; Stopped])
        (E ErrStartingNotAllowedForSidecar
           [PStr (name sidecar); PStr (State_String (state sidecar))]).

(** The body of [if i.state == Committed { ... }] in [StartWithoutWait]. *)
Definition startCommitted (i : ptr) (this : Instance) : M unit :=
  let* _ := if isObservabilityEnabled sys this
            then wrapWith (E ErrAddingOtelCollectorSidecar [PStr (k8sName this)])
                          (addOtelCollectorSidecar i)
            else ret tt in
  let* _ := if enabled (BitTwister this)
            then wrapWith (E ErrAddingNetworkSidecar [PStr (k8sName this)])
                          (addBitTwisterSidecar i)
            else ret tt in
  let* cur := load i in
  let* _ := wrapWith (E ErrDeployingResourcesForInstance [PStr (k8sName this)])
                     (deployResourcesOf cur) in
  wrapWith (E ErrDeployingResourcesForSidecars [PStr (k8sName this)])
           (applyFunctionToInstances (sidecars cur) deployResourcesOf).

Definition StartWithoutWait (i : ptr) : M unit :=
  let* this := load i in
  let* _ := check (IsInState this [Committed; Stopped])
                  (E ErrStartingNotAllowed (stateParam this)) in
  let* _ := applyFunctionToInstances (sidecars this) checkSidecarStartable in
  let* _ := check (negb (isSidecar this)) (New_ ErrStartingSidecarNotAllowed) in
  let* _ := if bool_decide (state this = Committed)
            then startCommitted i this
            else ret tt in
  let* cur := load i in
  let* _ := wrapWith (E ErrDeployingPodForInstance [PStr (k8sName this)])
                     (deployPodOf cur) in
  let* _ := update i (set_state Started) in
  setStateForSidecars (sidecars cur) Started.

Definition StartAsync (i : ptr) : M unit := StartWithoutWait i.

Definition IsRunning (i : ptr) : M bool :=
  let* this := load i in
  let* _ := check (IsInState this [Started; Stopped])
                  (E ErrCheckingIfInstanceRunningNotAllowed (stateParam this)) in
  let* r := call (EvIsReplicaSetRunning (k8sName this))
                 (fun l => IsReplicaSetRunning sys l (k8sName this)) in
  orReturnV r.

(** The two timers of [WaitInstanceIsRunning].  [time.After(1 * time.Minute)]
    fires once, one minute after the call; the ticker made by
    [time.NewTicker(1 * time.Second)] fires every second.  A readiness
    query is taken to return at the instant it is made. *)
Definition waitDeadline (start : Z) : Z := start + 1 * Minute.

Definition tickInstants (start : Z) : list Z :=
  (fun k => start + k * (1 * Second))%Z <$> seqZ 1 (1 * Minute / (1 * Second)).

(** The [for { select { ... } }] of [WaitInstanceIsRunning], over the ticks
    that are not later than the deadline.  A tick before the deadline is
    taken when it fires; at the deadline itself both channels are ready and
    the scheduler chooses; with no tick left the timeout is next. *)
Fixpoint waitLoop (i : ptr) (deadline : Z) (ticks : list Z) : M unit :=
  match ticks with
  | [] =>
      let* this := load i in
      let* _ := waitUntil deadline in
      fail (E ErrWaitingForInstanceTimeout [PStr (k8sName this)])
  | t :: rest =>
      let* this := load i in
      let* tickFirst := if (t <? deadline)%Z then ret true
                        else ask (selectTickFirst sys) in
      if tickFirst then
        let* _ := waitUntil t in
        let* running := wrapWith (E ErrCheckingIfInstanceRunning [PStr (k8sName this)])
                                 (IsRunning i) in
        if running then ret tt else waitLoop i deadline rest
      else
        let* _ := waitUntil deadline in
        fail (E ErrWaitingForInstanceTimeout [PStr (k8sName this)])
  end.

Definition WaitInstanceIsRunning (i : ptr) : M unit :=
  let* this := load i in
  let* _ := check (IsInState this [Started])
                  (E ErrWaitingForInstanceNotAllowed (stateParam this)) in
  fun w => waitLoop i (waitDeadline (now w)) (tickInstants (now w)) w.

Definition Start (i : ptr) : M unit :=
  let* _ := StartWithoutWait i in
  let* this := load i in
  wrapWith (E ErrWaitingForInstanceRunning [PStr (k8sName this)])
           (WaitInstanceIsRunning i).

(** A request to the fault-injection client; the log keeps the answer. *)
Definition btCall (c : BtCall) : M (option Error) :=
  fun w =>
    let a := BitTwisterClient sys (log w) c in
    (set_log (log w ++ [EvBitTwister c a]) w, Ok a).

(** The three conditions under which a failed stop is passed over. *)
Definition stopErrorTolerated (err : Error) : bool :=
  negb (negb (IsErrorServiceNotInitialized err)
        && negb (IsErrorServiceNotReady err)
        && negb (IsErrorServiceNotStarted err)).

Definition SetBandwidthLimit (i : ptr) (limit : Z) : M unit :=
  let* this := load i in
  let* _ := check (IsInState this [Started])
                  (E ErrSettingBandwidthLimitNotAllowed (stateParam this)) in
  let* _ := check (enabled (BitTwister this))
                  (New_ ErrSettingBandwidthLimitNotAllowedBitTwister) in
  let* stopped := btCall BandwidthStop in
  let* _ := match stopped with
            | Some err =>
                check (stopErrorTolerated err)
                      (Wrap (E ErrStoppingBandwidthLimit [PStr (k8sName this)]) err)
            | None => ret tt
            end in
  let* started := btCall (BandwidthStart (networkInterface (BitTwister this)) limit) in
  match started with
  | Some err => fail (Wrap (E ErrSettingBandwidthLimit [PStr (k8sName this)]) err)
  | None => ret tt
  end.

Definition SetLatencyAndJitter (i : ptr) (latency jitter : Z) : M unit :=
  let* this := load i in
  let* _ := check (IsInState this [Started])
                  (E ErrSettingLatencyJitterNotAllowed (stateParam this)) in
  let* _ := check (enabled (BitTwister this))
                  (New_ ErrSettingLatencyJitterNotAllowedBitTwister) in
  let* stopped := btCall LatencyStop in
  let* _ := match stopped with
            | Some err =>
                check (stopErrorTolerated err)
                      (Wrap (E ErrStoppingLatencyJitter [PStr (k8sName this)]) err)
            | None => ret tt
            end in
  let* started := btCall (LatencyStart (networkInterface (BitTwister this))
                                       latency jitter) in
  match started with
  | Some err => fail (Wrap (E ErrSettingLatencyJitter [PStr (k8sName this)]) err)
  | None => ret tt
  end.

Definition SetPacketLoss (i : ptr) (packetLoss : Z) : M unit :=
  let* this := load i in
  let* _ := check (IsInState this [Started])
                  (E ErrSettingPacketLossNotAllowed (stateParam this)) in
  let* _ := check (enabled (BitTwister this))
                  (New_ ErrSettingPacketLossNotAllowedBitTwister) in
  let* stopped := btCall PacketlossStop in
  let* _ := match stopped with
            | Some err =>
                check (stopErrorTolerated err)
                      (Wrap (E ErrStoppingPacketLoss [PStr (k8sName this)]) err)
            | None => ret tt
            end in
  let* started := btCall (PacketlossStart (networkInterface (BitTwister this))
                                          packetLoss) in
  match started with
  | Some err => fail (Wrap (E ErrSettingPacketLoss [PStr (k8sName this)]) err)
  | None => ret tt
  end.

Definition Stop (i : ptr) : M unit :=
  let* this := load i in
  let* _ := check (IsInState this [Started])
                  (E ErrStoppingNotAllowed (stateParam this)) in
  let* _ := wrapWith (E ErrDestroyingPod [PStr (k8sName this)]) (destroyPodOf this) in
  let* _ := update i (set_state Stopped) in
  setStateForSidecars (sidecars this) Stopped.

End Methods.

(** ** The descriptor mutators as one family *)

Inductive Mutator : Type :=
  | MSetCommand (cmd : list string)
  | MSetArgs (a : list string)
  | MAddPortTCP (port : Z)
  | MAddPortUDP (port : Z)
  | MAddFile (src dest chown : string)
  | MAddFolder (src dest chown : string)
  | MAddFileBytes (bytes : list Byte.byte) (dest chown : string)
  | MAddVolume (path size : string)
  | MAddVolumeWithOwner (path size : string) (owner : Z)
  | MSetMemory (request limit : string)
  | MSetCPU (request : string)
  | MSetEnvironmentVariable (key value : string)
  | MAddPolicyRule (rule : PolicyRule)
  | MSetLivenessProbe (probe : option Probe)
  | MSetReadinessProbe (probe : option Probe)
  | MSetStartupProbe (probe : option Probe)
  | MSetOtelCollectorVersion (version : string)
  | MSetOtelEndpoint (port : Z)
  | MSetPrometheusEndpoint (port : Z) (jobName scapeInterval : string)
  | MSetJaegerEndpoint (grpcPort thriftCompactPort thriftHttpPort : Z)
  | MSetOtlpExporter (endpoint username password : string)
  | MSetJaegerExporter (endpoint : string)
  | MSetPrometheusExporter (endpoint : string)
  | MSetPrometheusRemoteWriteExporter (endpoint : string)
  | MSetPrivileged (p : bool)
  | MAddCapability (capability : string)
  | MAddCapabilities (capabilities : list string)
  | MEnableBitTwister
  | MDisableBitTwister.

Definition runMutator (sys : Collaborators) (m : Mutator) (i : ptr) : M unit :=
  match m with
  | MSetCommand c => SetCommand i c
  | MSetArgs a => SetArgs i a
  | MAddPortTCP p => AddPortTCP sys i p
  | MAddPortUDP p => AddPortUDP sys i p
  | MAddFile s d c => AddFile sys i s d c
  | MAddFolder s d c => AddFolder sys i s d c
  | MAddFileBytes b d c => AddFileBytes sys i b d c
  | MAddVolume p s => AddVolume i p s
  | MAddVolumeWithOwner p s o => AddVolumeWithOwner i p s o
  | MSetMemory r l => SetMemory i r l
  | MSetCPU r => SetCPU i r
  | MSetEnvironmentVariable k v => SetEnvironmentVariable i k v
  | MAddPolicyRule r => AddPolicyRule i r
  | MSetLivenessProbe p => SetLivenessProbe i p
  | MSetReadinessProbe p => SetReadinessProbe i p
  | MSetStartupProbe p => SetStartupProbe i p
  | MSetOtelCollectorVersion v => SetOtelCollectorVersion i v
  | MSetOtelEndpoint p => SetOtelEndpoint i p
  | MSetPrometheusEndpoint p j s => SetPrometheusEndpoint i p j s
  | MSetJaegerEndpoint g c h => SetJaegerEndpoint i g c h
  | MSetOtlpExporter e u p => SetOtlpExporter i e u p
  | MSetJaegerExporter e => SetJaegerExporter i e
  | MSetPrometheusExporter e => SetPrometheusExporter i e
  | MSetPrometheusRemoteWriteExporter e => SetPrometheusRemoteWriteExporter i e
  | MSetPrivileged p => SetPrivileged i p
  | MAddCapability c => AddCapability i c
  | MAddCapabilities cs => AddCapabilities i cs
  | MEnableBitTwister => EnableBitTwister i
  | MDisableBitTwister => DisableBitTwister i
  end.

(** The mutators whose first statement is the guard
    [if !i.IsInState(Preparing, Committed)].  [AddVolume] tests the volume
    count first and drops the result of the guarded call; the two
    fault-injection switches have a guard of their own. *)
Definition guardedByPreparingCommitted (m : Mutator) : bool :=
  match m with
  | MAddVolume _ _ | MEnableBitTwister | MDisableBitTwister => false
  | _ => true
  end.

(** The error of that guard, per mutator: the error value names the
    operation, and its last parameter is the state. *)
Definition notAllowed (m : Mutator) (st : InstanceState) : Error :=
  let s := PStr (State_String st) in
  match m with
  | MSetCommand _ => E ErrSettingCommand [s]
  | MSetArgs _ => E ErrSettingArgsNotAllowed [s]
  | MAddPortTCP _ | MAddPortUDP _ => E ErrAddingPortNotAllowed [s]
  | MAddFile _ _ _ | MAddFileBytes _ _ _ => E ErrAddingFileNotAllowed [s]
  | MAddFolder _ _ _ => E ErrAddingFolderNotAllowed [s]
  | MAddVolume _ _ | MAddVolumeWithOwner _ _ _ => E ErrAddingVolumeNotAllowed [s]
  | MSetMemory _ _ => E ErrSettingMemoryNotAllowed [s]
  | MSetCPU _ => E ErrSettingCPUNotAllowed [s]
  | MSetEnvironmentVariable _ _ => E ErrSettingEnvNotAllowed [s]
  | MAddPolicyRule _ => E ErrAddingPolicyRuleNotAllowed [s]
  | MSetLivenessProbe _ | MSetReadinessProbe _ | MSetStartupProbe _ =>
      E ErrSettingProbeNotAllowed [s]
  | MSetOtelCollectorVersion _ =>
      E ErrSettingNotAllowed [PStr "OpenTelemetry collector version"; s]
  | MSetOtelEndpoint _ => E ErrSettingNotAllowed [PStr "OpenTelemetry endpoint"; s]
  | MSetPrometheusEndpoint _ _ _ =>
      E ErrSettingNotAllowed [PStr "Prometheus endpoint"; s]
  | MSetJaegerEndpoint _ _ _ => E ErrSettingNotAllowed [PStr "Jaeger endpoint"; s]
  | MSetOtlpExporter _ _ _ => E ErrSettingNotAllowed [PStr "OTLP exporter"; s]
  | MSetJaegerExporter _ => E ErrSettingNotAllowed [PStr "Jaeger exporter"; s]
  | MSetPrometheusExporter _ => E ErrSettingNotAllowed [PStr "Prometheus exporter"; s]
  | MSetPrometheusRemoteWriteExporter _ =>
      E ErrSettingNotAllowed [PStr "Prometheus remote write exporter"; s]
  | MSetPrivileged _ => E ErrSettingPrivilegedNotAllowed [s]
  | MAddCapability _ => E ErrAddingCapabilityNotAllowed [s]
  | MAddCapabilities _ => E ErrAddingCapabilitiesNotAllowed [s]
  | MEnableBitTwister | MDisableBitTwister => New_ ErrEnablingBitTwister
  end.

(** ** The shaping modes and what the log says about them *)

Inductive Mode : Type := Bandwidth | Latency | PacketLoss.

#[global] Instance Mode_eq_dec : EqDecision Mode.
Proof. solve_decision. Defined.

(** The mode that a request starts or stops. *)
Definition modeOf (c : BtCall) : Mode :=
  match c with
  | BandwidthStop | BandwidthStart _ _ => Bandwidth
  | LatencyStop | LatencyStart _ _ _ => Latency
  | PacketlossStop | PacketlossStart _ _ => PacketLoss
  end.

Definition isStart (c : BtCall) : bool :=
  match c with
  | BandwidthStart _ _ | LatencyStart _ _ _ | PacketlossStart _ _ => true
  | _ => false
  end.

(** A request that the client answered without error switches its mode on
    (a start) or off (a stop); nothing else changes what is active. *)
Definition btStep (act : Mode -> bool) (ev : Event) : Mode -> bool :=
  match ev with
  | EvBitTwister c None =>
      fun m => if bool_decide (m = modeOf c) then isStart c else act m
  | _ => act
  end.

(** The modes that were started and not stopped since. *)
Definition active (l : list Event) : Mode -> bool :=
  fold_left btStep l (fun _ => false).

(** ** Sample collaborators and instances, for the closed examples *)

(** [New]: the instance as the constructor leaves it.  The generated
    cluster name and the default fault-injection configuration come from
    outside the files at hand and are taken as arguments. *)
Definition New (name k8sName : string) (bt : btConfig) : Instance :=
  {| name := name;
     k8sName := k8sName;
     imageName := EmptyString;
     state := StateNone;
     instanceType := BasicInstance;
     kubernetesService := None;
     builderFactory := None;
     kubernetesReplicaSet := None;
     portsTCP := [];
     portsUDP := [];
     command := [];
     args := [];
     env := ∅;
     volumes := [];
     memoryRequest := EmptyString;
     memoryLimit := EmptyString;
     cpuRequest := EmptyString;
     policyRules := [];
     livenessProbe := None;
     readinessProbe := None;
     startupProbe := None;
     files := [];
     isSidecar := false;
     parentInstance := None;
     sidecars := [];
     fsGroup := 0;
     obsyConfig := mkObsyConfig "0.83.0" 0 EmptyString EmptyString 0 0 0 EmptyString
                                0 EmptyString EmptyString EmptyString EmptyString
                                EmptyString;
     securityContext := mkSecurityContext false [];
     BitTwister := bt |}.

(** Collaborators that never fail: every port is valid, every cluster call
    succeeds, every start of a shaping mode succeeds, and a stop succeeds
    when the mode is active and answers "not started" when it is not. *)
Definition quietSys : Collaborators :=
  {| validatePort := fun _ => None;
     validateFileArgs := fun _ _ _ => None;
     getBuildDir := fun i => name i;
     getImageRegistry := fun l i => inr (String.append "ttl.sh/" (k8sName i));
     isSubFolderOfVolumes := fun _ _ => true;
     addFileToBuilder := fun _ _ _ _ _ => None;
     isObservabilityEnabled := fun _ => false;
     createOtelCollectorInstance := fun _ _ => inl (New_ (Foreign "no collector"));
     createBitTwisterInstance := fun _ _ => inl (New_ (Foreign "no bittwister"));
     deployResources := fun _ _ => None;
     deployPod := fun _ _ => None;
     destroyPod := fun _ _ => None;
     GetFirstPodFromReplicaSet := fun _ rs => inr (String.append rs "-pod");
     PortForwardPod := fun _ _ _ _ => None;
     RunCommandInPod := fun _ _ _ _ => inr "ok";
     IsReplicaSetRunning := fun _ _ => inr true;
     BitTwisterClient := fun l c =>
       if isStart c || active l (modeOf c) then None
       else Some (New_ SdkServiceNotStarted);
     getFreePortTCP := fun _ => inr 40000%Z;
     os_Stat := fun _ _ => StatOk false;
     os_MkdirAll := fun _ _ => None;
     os_Create := fun _ _ => None;
     os_Open := fun _ _ => None;
     io_Copy := fun _ _ _ => None;
     os_CreateTemp := fun _ => inr "/tmp/temp1";
     tmp_Write := fun _ _ _ => None;
     tmp_Close := fun _ _ => None;
     filepath_Join := fun a b => String.append a (String.append "/" b);
     filepath_Dir := fun p => p;
     filepath_Rel := fun _ p => inr p;
     filepath_Walk := fun _ _ => [];
     strconv_ParseInt := fun _ => inr 0%Z;
     selectTickFirst := fun _ => false |}.

Definition defaultBt : btConfig := mkBtConfig false "eth0".

Definition emptyWorld : World := mkWorld ∅ ∅ [] 0.

(** A world with one instance, at address 0. *)
Definition oneInstance (x : Instance) : World :=
  set_heap (<[0%nat := x]> ∅) emptyWorld.

(** ** Notions used in the statements, and sample data for the closed
    examples *)

(** [relField R f w w']: every instance that is on the heap of [w] is still
    on the heap of [w'], and the value of its field [f] has moved along the
    relation [R]. *)
Definition relField {F : Type} (R : relation F) (f : Instance -> F)
    (w w' : World) : Prop :=
  forall p x, heap w !! p = Some x ->
    exists x', heap w' !! p = Some x' /\ R (f x) (f x').

(** [evolves R f m]: that holds between the world before [m] and the world
    after it, whichever way [m] ends. *)
Definition evolves {F : Type} (R : relation F) (f : Instance -> F)
    {A} (m : M A) : Prop :=
  forall w, relField R f w (fst (m w)).

(** [keeps f m]: [m] leaves the field [f] of every instance as it was. *)
Abbreviation keeps f := (evolves eq f).

(** The instance "web" as [New] leaves it, and the same in state Started. *)
Definition webNew : Instance := New "web" "web-7f3a" defaultBt.

Definition webStarted : Instance := set_state Started webNew.

(** Every operation of an instance that is modelled, as one family. *)
Inductive Operation : Type :=
  | OMutate (m : Mutator) (i : ptr)
  | OCommit (i : ptr)
  | OAddSidecar (i : ptr) (sidecar : option ptr)
  | OStartWithoutWait (i : ptr)
  | OStartAsync (i : ptr)
  | OStart (i : ptr)
  | OIsRunning (i : ptr)
  | OWaitInstanceIsRunning (i : ptr)
  | OStop (i : ptr)
  | OExecuteCommand (i : ptr) (cmd : list string)
  | OReadFileFromRunningInstance (i : ptr) (filePath : string)
  | OGetFileBytes (i : ptr) (file : string)
  | OPortForwardTCP (i : ptr) (port : Z)
  | OSetBandwidthLimit (i : ptr) (limit : Z)
  | OSetLatencyAndJitter (i : ptr) (latency jitter : Z)
  | OSetPacketLoss (i : ptr) (packetLoss : Z).

(** The world an operation leaves behind, whatever it returns. *)
Definition worldAfter (sys : Collaborators) (op : Operation) (w : World) : World :=
  match op with
  | OMutate m i => fst (runMutator sys m i w)
  | OCommit i => fst (Commit sys i w)
  | OAddSidecar i s => fst (AddSidecar i s w)
  | OStartWithoutWait i => fst (StartWithoutWait sys i w)
  | OStartAsync i => fst (StartAsync sys i w)
  | OStart i => fst (Start sys i w)
  | OIsRunning i => fst (IsRunning sys i w)
  | OWaitInstanceIsRunning i => fst (WaitInstanceIsRunning sys i w)
  | OStop i => fst (Stop sys i w)
  | OExecuteCommand i c => fst (ExecuteCommand sys i c w)
  | OReadFileFromRunningInstance i f => fst (ReadFileFromRunningInstance sys i f w)
  | OGetFileBytes i f => fst (GetFileBytes sys i f w)
  | OPortForwardTCP i p => fst (PortForwardTCP sys i p w)
  | OSetBandwidthLimit i l => fst (SetBandwidthLimit sys i l w)
  | OSetLatencyAndJitter i l j => fst (SetLatencyAndJitter sys i l j w)
  | OSetPacketLoss i p => fst (SetPacketLoss sys i p w)
  end.

(** "web", started, holding one volume. *)
Definition dataVolume : Volume := mkVolume "/data" "1Gi" 0.

Definition webStartedWithVolume : Instance := set_volumes [dataVolume] webStarted.

(** The conditions under which [AddSidecar] refuses. *)
Definition sidecarRejected (w : World) (i : ptr) (this : Instance)
    (sidecar : option ptr) : Prop :=
  ~ (state this = Preparing \/ state this = Committed)
  \/ sidecar = None
  \/ sidecar = Some i
  \/ isSidecar this = true
  \/ exists s sc, sidecar = Some s /\ heap w !! s = Some sc
                  /\ (state sc ≠ Committed \/ isSidecar sc = true).

(** "web" and "side", both committed. *)
Definition webCommitted : Instance := set_state Committed webNew.

Definition sideCommitted : Instance :=
  set_state Committed (New "side" "side-91c2" defaultBt).

(** A world with two instances, at addresses 0 and 1. *)
Definition twoInstances (x y : Instance) : World :=
  set_heap (<[1%nat := y]> (<[0%nat := x]> ∅)) emptyWorld.

(** The parent "web" with the sidecar "side" attached by [AddSidecar]. *)
Definition webWithSidecar : World :=
  fst (AddSidecar 0%nat (Some 1%nat) (twoInstances webCommitted sideCommitted)).

(** The same after [StartWithoutWait] on the parent. *)
Definition webWithSidecarStarted : World :=
  fst (StartWithoutWait quietSys 0%nat webWithSidecar).

(** A parent whose sidecar is already running. *)
Definition webWithRunningSidecar : World :=
  twoInstances (set_sidecars [1%nat] webCommitted)
               (set_parentInstance (Some 0%nat)
                  (set_isSidecar true (set_state Started sideCommitted))).

(** The request is a push of the builder's image. *)
Definition isPush (ev : Event) : bool :=
  match ev with EvPushBuilderImage _ => true | _ => false end.

(** How often the builder's push was called. *)
Definition pushes (l : list Event) : nat := length (filter (fun ev => isPush ev = true) l).

(** Entries of the image cache are never overwritten or removed. *)
Definition cacheKept (w w' : World) : Prop :=
  forall h n, imageCache w !! h = Some n -> imageCache w' !! h = Some n.

(** Commits of several instances, one after the other, whatever each
    returns. *)
Fixpoint commitEach (sys : Collaborators) (l : list ptr) (w : World) : World :=
  match l with
  | [] => w
  | p :: rest => commitEach sys rest (fst (Commit sys p w))
  end.

(** A builder whose context was changed and hashes to "c0ffee". *)
Definition changedBuilder : BuilderFactory :=
  {| Changed := true;
     GenerateImageHash := inr "c0ffee";
     PushBuilderImage := fun _ => None;
     ImageNameFrom := "nginx:alpine";
     SetEnvVar := fun _ _ => None;
     ReadFileFromBuilder := fun _ => inr [];
     ExecuteCmdInBuilder := fun _ => inr "ok" |}.

(** An instance after [SetImage]: Preparing, with its builder. *)
Definition preparing (humanName clusterName : string) : Instance :=
  let x := New humanName clusterName defaultBt in
  mkInstance (name x) (imageName x) (k8sName x) Preparing
    (instanceType x) (kubernetesService x) (Some changedBuilder)
    (kubernetesReplicaSet x) (portsTCP x) (portsUDP x) (command x) (args x) (env x)
    (volumes x) (memoryRequest x) (memoryLimit x) (cpuRequest x) (policyRules x)
    (livenessProbe x) (readinessProbe x) (startupProbe x) (files x) (isSidecar x)
    (parentInstance x) (sidecars x) (fsGroup x) (obsyConfig x) (securityContext x)
    (BitTwister x).

(** Two instances in Preparing whose build contexts are the same. *)
Definition twoPreparing : World :=
  twoInstances (preparing "a" "a-01") (preparing "b" "b-02").

(** The three setters as one family. *)
Inductive Shaping : Type :=
  | ShBandwidth (limit : Z)
  | ShLatency (latency jitter : Z)
  | ShPacketLoss (packetLoss : Z).

Definition setShaping (sys : Collaborators) (sh : Shaping) (i : ptr) : M unit :=
  match sh with
  | ShBandwidth l => SetBandwidthLimit sys i l
  | ShLatency l j => SetLatencyAndJitter sys i l j
  | ShPacketLoss p => SetPacketLoss sys i p
  end.

Definition modeOfShaping (sh : Shaping) : Mode :=
  match sh with
  | ShBandwidth _ => Bandwidth
  | ShLatency _ _ => Latency
  | ShPacketLoss _ => PacketLoss
  end.

Definition stopCall (sh : Shaping) : BtCall :=
  match sh with
  | ShBandwidth _ => BandwidthStop
  | ShLatency _ _ => LatencyStop
  | ShPacketLoss _ => PacketlossStop
  end.

Definition startCall (iface : string) (sh : Shaping) : BtCall :=
  match sh with
  | ShBandwidth l => BandwidthStart iface l
  | ShLatency l j => LatencyStart iface l j
  | ShPacketLoss p => PacketlossStart iface p
  end.

(** The four errors of each setter: wrong state, fault injection off, the
    stop failed, the start failed. *)
Definition shapingErrors (sh : Shaping) : ErrCode * ErrCode * ErrCode * ErrCode :=
  match sh with
  | ShBandwidth _ =>
      (ErrSettingBandwidthLimitNotAllowed, ErrSettingBandwidthLimitNotAllowedBitTwister,
       ErrStoppingBandwidthLimit, ErrSettingBandwidthLimit)
  | ShLatency _ _ =>
      (ErrSettingLatencyJitterNotAllowed, ErrSettingLatencyJitterNotAllowedBitTwister,
       ErrStoppingLatencyJitter, ErrSettingLatencyJitter)
  | ShPacketLoss _ =>
      (ErrSettingPacketLossNotAllowed, ErrSettingPacketLossNotAllowedBitTwister,
       ErrStoppingPacketLoss, ErrSettingPacketLoss)
  end.

Definition errNotAllowed (sh : Shaping) : ErrCode := fst (fst (fst (shapingErrors sh))).
Definition errNotEnabled (sh : Shaping) : ErrCode := snd (fst (fst (shapingErrors sh))).
Definition errStopping (sh : Shaping) : ErrCode := snd (fst (shapingErrors sh)).
Definition errSetting (sh : Shaping) : ErrCode := snd (shapingErrors sh).

(** The stop is passed over: it succeeded, or it failed with one of the
    three tolerated conditions. *)
Definition stopPassed (answer : option Error) : bool :=
  match answer with
  | None => true
  | Some err => stopErrorTolerated err
  end.

(** "web", started, with fault injection enabled on eth0. *)
Definition webShaped : Instance :=
  set_BitTwister (bt_enable defaultBt) webStarted.

(** [k] attempts at the tunnel, with a sleep between one attempt and the
    next. *)
Fixpoint attemptTrace (pod : string) (localPort port : Z) (k : nat) : list Event :=
  match k with
  | O => []
  | S O => [EvPortForwardPod pod localPort port]
  | S k' => EvPortForwardPod pod localPort port :: EvSleep retryInterval
            :: attemptTrace pod localPort port k'
  end.

(** Collaborators as [quietSys], but the tunnel never comes up. *)
Definition brokenTunnelSys : Collaborators :=
  {| validatePort := validatePort quietSys;
     validateFileArgs := validateFileArgs quietSys;
     getBuildDir := getBuildDir quietSys;
     getImageRegistry := getImageRegistry quietSys;
     isSubFolderOfVolumes := isSubFolderOfVolumes quietSys;
     addFileToBuilder := addFileToBuilder quietSys;
     isObservabilityEnabled := isObservabilityEnabled quietSys;
     createOtelCollectorInstance := createOtelCollectorInstance quietSys;
     createBitTwisterInstance := createBitTwisterInstance quietSys;
     deployResources := deployResources quietSys;
     deployPod := deployPod quietSys;
     destroyPod := destroyPod quietSys;
     GetFirstPodFromReplicaSet := GetFirstPodFromReplicaSet quietSys;
     PortForwardPod := fun _ _ _ _ => Some (New_ (Foreign "address already in use"));
     RunCommandInPod := RunCommandInPod quietSys;
     IsReplicaSetRunning := fun _ _ => inr false;
     BitTwisterClient := BitTwisterClient quietSys;
     getFreePortTCP := getFreePortTCP quietSys;
     os_Stat := os_Stat quietSys;
     os_MkdirAll := os_MkdirAll quietSys;
     os_Create := os_Create quietSys;
     os_Open := os_Open quietSys;
     io_Copy := io_Copy quietSys;
     os_CreateTemp := os_CreateTemp quietSys;
     tmp_Write := tmp_Write quietSys;
     tmp_Close := tmp_Close quietSys;
     filepath_Join := filepath_Join quietSys;
     filepath_Dir := filepath_Dir quietSys;
     filepath_Rel := filepath_Rel quietSys;
     filepath_Walk := filepath_Walk quietSys;
     strconv_ParseInt := strconv_ParseInt quietSys;
     selectTickFirst := selectTickFirst quietSys |}.

(** "web", started, with TCP port 80 registered. *)
Definition webServing : Instance := set_portsTCP [80%Z] webStarted.

(** What [j] failed attempts at the tunnel leave in the log: each attempt is
    followed by a sleep. *)
Fixpoint failedAttempts (pod : string) (localPort port : Z) (j : nat) : list Event :=
  match j with
  | O => []
  | S j' => EvPortForwardPod pod localPort port :: EvSleep retryInterval
            :: failedAttempts pod localPort port j'
  end.

(** Whether the tunnel comes up at the attempt made after [j] failed ones,
    in a run whose log was [l0] before the first attempt. *)
Definition tunnelUp (sys : Collaborators) (l0 : list Event) (pod : string)
    (localPort port : Z) (j : nat) : bool :=
  match PortForwardPod sys (l0 ++ failedAttempts pod localPort port j)
          pod localPort port with
  | None => true
  | Some _ => false
  end.

(** The number of failed attempts before the first one at which the tunnel
    comes up, among the [maxRetries] attempts; [None] when it comes up at
    none of them. *)
Definition firstUp (sys : Collaborators) (l0 : list Event) (pod : string)
    (localPort port : Z) : option nat :=
  find (tunnelUp sys l0 pod localPort port) (seq 0 (Z.to_nat maxRetries)).

(** Collaborators as [quietSys], but the tunnel fails at the first attempt
    and comes up at the second. *)
Definition flakyTunnelSys : Collaborators :=
  {| validatePort := validatePort quietSys;
     validateFileArgs := validateFileArgs quietSys;
     getBuildDir := getBuildDir quietSys;
     getImageRegistry := getImageRegistry quietSys;
     isSubFolderOfVolumes := isSubFolderOfVolumes quietSys;
     addFileToBuilder := addFileToBuilder quietSys;
     isObservabilityEnabled := isObservabilityEnabled quietSys;
     createOtelCollectorInstance := createOtelCollectorInstance quietSys;
     createBitTwisterInstance := createBitTwisterInstance quietSys;
     deployResources := deployResources quietSys;
     deployPod := deployPod quietSys;
     destroyPod := destroyPod quietSys;
     GetFirstPodFromReplicaSet := GetFirstPodFromReplicaSet quietSys;
     PortForwardPod := fun l _ _ _ =>
       if existsb (fun ev => match ev with
                             | EvPortForwardPod _ _ _ => true
                             | _ => false
                             end) l
       then None
       else Some (New_ (Foreign "address already in use"));
     RunCommandInPod := RunCommandInPod quietSys;
     IsReplicaSetRunning := IsReplicaSetRunning quietSys;
     BitTwisterClient := BitTwisterClient quietSys;
     getFreePortTCP := getFreePortTCP quietSys;
     os_Stat := os_Stat quietSys;
     os_MkdirAll := os_MkdirAll quietSys;
     os_Create := os_Create quietSys;
     os_Open := os_Open quietSys;
     io_Copy := io_Copy quietSys;
     os_CreateTemp := os_CreateTemp quietSys;
     tmp_Write := tmp_Write quietSys;
     tmp_Close := tmp_Close quietSys;
     filepath_Join := filepath_Join quietSys;
     filepath_Dir := filepath_Dir quietSys;
     filepath_Rel := filepath_Rel quietSys;
     filepath_Walk := filepath_Walk quietSys;
     strconv_ParseInt := strconv_ParseInt quietSys;
     selectTickFirst := selectTickFirst quietSys |}.

(** The instants of the ticks numbered [a], [a + 1], ... *)
Definition ticksFrom (start a : Z) (n : nat) : list Z :=
  (fun k => start + k * (1 * Second))%Z <$> seqZ a (Z.of_nat n).

(** The polls of readiness that a run of the loop has made. *)
Definition polls (this : Instance) (k : nat) : list Event :=
  repeat (EvIsReplicaSetRunning (k8sName this)) k.

(** What the cluster answers to the poll that comes after [j] earlier ones. *)
Definition answerAfter (sys : Collaborators) (this : Instance) (l : list Event)
    (j : nat) : Error + bool :=
  IsReplicaSetRunning sys (l ++ polls this j) (k8sName this).

(** The three ways in which the wait can end, after [k] polls, for a loop
    that began at log [l] with tick number [a] and [n] ticks to go. *)
Definition waitOutcome (sys : Collaborators) (this : Instance) (start : Z)
    (l : list Event) (a : Z) (n k : nat) (r : World * Res unit) : Prop :=
  (snd r = Ok tt
   /\ (1 <= k)%nat
   /\ now (fst r) = (start + (a + Z.of_nat k - 1) * Second)%Z
   /\ answerAfter sys this l (k - 1) = inr true
   /\ forall j, (S j < k)%nat -> answerAfter sys this l j = inr false)
  \/ (snd r = Fail (E ErrWaitingForInstanceTimeout [PStr (k8sName this)])
      /\ (n <= k + 1)%nat
      /\ now (fst r) = (start + 60 * Second)%Z
      /\ forall j, (j < k)%nat -> answerAfter sys this l j = inr false)
  \/ (exists e,
        snd r = Fail (Wrap (E ErrCheckingIfInstanceRunning [PStr (k8sName this)]) e)
        /\ (1 <= k)%nat
        /\ now (fst r) = (start + (a + Z.of_nat k - 1) * Second)%Z
        /\ answerAfter sys this l (k - 1) = inl e
        /\ forall j, (S j < k)%nat -> answerAfter sys this l j = inr false).

(** Requests that go to the cluster. *)
Definition isClusterEvent (ev : Event) : bool :=
  match ev with
  | EvGetFirstPodFromReplicaSet _ | EvPortForwardPod _ _ _ | EvRunCommandInPod _ _ _
  | EvIsReplicaSetRunning _ | EvDeployResources _ | EvDeployPod _ | EvDestroyPod _ =>
      true
  | _ => false
  end.

(** Requests that go to the image builder. *)
Definition isBuilderEvent (ev : Event) : bool :=
  match ev with
  | EvSetEnvVar _ _ | EvReadFileFromBuilder _ | EvExecuteCmdInBuilder _
  | EvAddFileToBuilder _ _ _ | EvGenerateImageHash | EvPushBuilderImage _ => true
  | _ => false
  end.

(** The two cluster calls of [ExecuteCommand] on a started instance: find
    the first pod of [target], run the command in the instance's
    container. *)
Definition runInPod (sys : Collaborators) (this : Instance) (cmd : list string)
    (target : string) (eErr : Error) (w : World) : World * Res string :=
  let log1 := log w ++ [EvGetFirstPodFromReplicaSet target] in
  let commandWithShell := ["/bin/sh"; "-c"; String.concat " " cmd] in
  match GetFirstPodFromReplicaSet sys (log w) target with
  | inl e =>
      (set_log log1 w,
       Fail (Wrap (E ErrGettingPodFromReplicaSet [PStr (k8sName this)]) e))
  | inr pod =>
      (set_log (log1 ++ [EvRunCommandInPod pod (k8sName this) commandWithShell]) w,
       match RunCommandInPod sys log1 pod (k8sName this) commandWithShell with
       | inl e => Fail (Wrap eErr e)
       | inr out => Ok out
       end)
  end.

(** "web" committed from a build context that holds a file. *)
Definition webBuilt : Instance :=
  set_state Committed (preparing "web" "web-7f3a").

(** * The service client of the cluster ([pkg/k8s])

    The first part of the source: the functions of [*Client] that create,
    patch, delete and look up a Kubernetes service, and that wait for one
    to be reachable.  The API server and the network are collaborators;
    every request made of them is written to a log, and what they answer
    may depend on the log. *)

Module k8s.

(** The error values of package [k8s] that the service client returns. *)
Inductive ErrCode : Type :=
  | ErrGettingService | ErrPreparingService | ErrCreatingService
  | ErrPatchingService | ErrDeletingService
  | ErrNamespaceRequired | ErrServiceNameRequired | ErrNoPortsSpecified
  | ErrTimeoutWaitingForServiceReady | ErrCheckingServiceReady
  | ErrGettingServiceEndpoint | ErrLoadBalancerIPNotAvailable
  | ErrGettingNodes | ErrNoNodesFound | ErrFailedToConnect
  (* any error handed back by the API server or the network *)
  | Foreign (msg : string).

Inductive Error : Type :=
  | Plain (code : ErrCode) (params : list Param)
  | Caused (code : ErrCode) (params : list Param) (cause : Error).

Definition New_ (c : ErrCode) : Error := Plain c [].

Definition WithParams (e : Error) (ps : list Param) : Error :=
  match e with
  | Plain c _ => Plain c ps
  | Caused c _ w => Caused c ps w
  end.

Definition Wrap (e inner : Error) : Error :=
  match e with Plain c ps | Caused c ps _ => Caused c ps inner end.

Definition E (c : ErrCode) (ps : list Param) : Error := WithParams (New_ c) ps.

(** The errors wrapped in an error, outermost first. *)
Fixpoint chain (e : Error) : list ErrCode :=
  match e with
  | Plain c _ => [c]
  | Caused c _ inner => c :: chain inner
  end.

(** ** The API objects, with the fields that the client reads or writes *)

(** [v1.Protocol] and [v1.ServiceType] are string types. *)
Definition ProtocolTCP : string := "TCP".
Definition ProtocolUDP : string := "UDP".
Definition ServiceTypeClusterIP : string := "ClusterIP".
Definition ServiceTypeNodePort : string := "NodePort".
Definition ServiceTypeLoadBalancer : string := "LoadBalancer".

(** The conversion [int32(n)] of a Go [int]. *)
Definition int32 (n : Z) : Z := ((n + 2 ^ 31) mod 2 ^ 32 - 2 ^ 31)%Z.

(** [intstr.IntOrString]; [intstr.FromInt] keeps its argument as an
    [int32]. *)
Inductive IntOrString : Type :=
  | IntValue (v : Z)
  | StrValue (s : string).

Definition FromInt (val : Z) : IntOrString := IntValue (int32 val).

Record ServicePort := mkServicePort
  { Name : string;
    Protocol : string;
    Port : Z;
    TargetPort : IntOrString;
    NodePort : Z }.

Record ObjectMeta := mkObjectMeta
  { Namespace : string;
    ObjectMeta_Name : string;
    Labels : option (gmap string string) }.

Record ServiceSpec := mkServiceSpec
  { Ports : list ServicePort;
    Selector : option (gmap string string);
    Type_ : string;
    ClusterIP : string;
    ExternalIPs : list string }.

Record LoadBalancerIngress := mkLoadBalancerIngress { IP : string }.

(** [Status.LoadBalancer.Ingress] *)
Record ServiceStatus := mkServiceStatus
  { LoadBalancer_Ingress : list LoadBalancerIngress }.

Record Service := mkService
  { Meta : ObjectMeta;
    Spec : ServiceSpec;
    Status : ServiceStatus }.

Record NodeAddress := mkNodeAddress { AddressType : string; Address : string }.

(** [Status.Addresses] of a node *)
Record Node := mkNode { Status_Addresses : list NodeAddress }.

(** ** The collaborators *)

(** What the client asks of the API server and of the network. *)
Inductive Request : Type :=
  | ReqGet (namespace name : string)
  | ReqCreate (namespace : string) (svc : Service)
  | ReqUpdate (namespace : string) (svc : Service)
  | ReqDelete (namespace name : string)
  | ReqNodesList
  | ReqDial (network address : string) (timeout : Z).

(** The typed client of the API server ([clientset.CoreV1()]), the dialer
    of package [net], the context of the caller, and the retry period of
    the package (a constant declared outside the files at hand). *)
Record Cluster := mkCluster
  { Get : list Request -> string -> string -> Error + Service;
    Create : list Request -> string -> Service -> Error + Service;
    Update : list Request -> string -> Service -> Error + Service;
    Delete : list Request -> string -> string -> option Error;
    NodesList : list Request -> Error + list Node;
    DialTimeout : list Request -> string -> string -> Z -> option Error;
    (* [<-ctx.Done()] is the case that the select takes *)
    ctxDone : list Request -> bool;
    waitRetry : Z }.

Record Client := mkClient { clientset : Cluster; namespace : string }.

(** ** Calls: state is the log of requests *)

Inductive Res (A : Type) : Type :=
  | Ok (a : A)
  | Fail (e : Error)
  | Panic.

Arguments Ok {A} a.
Arguments Fail {A} e.
Arguments Panic {A}.

Definition M (A : Type) : Type := list Request -> list Request * Res A.

Definition ret {A} (a : A) : M A := fun l => (l, Ok a).

Definition fail {A} (e : Error) : M A := fun l => (l, Fail e).

Definition panic {A} : M A := fun l => (l, Panic).

Definition bind {A B} (m : M A) (k : A -> M B) : M B :=
  fun l =>
    match m l with
    | (l', Ok a) => k a l'
    | (l', Fail e) => (l', Fail e)
    | (l', Panic) => (l', Panic)
    end.

Declare Scope k8s_scope.

Notation "'let*' x ':=' c 'in' k" := (bind c (fun x => k))
  (at level 10, x name, c at level 100, k at level 200) : k8s_scope.

#[local] Open Scope k8s_scope.

(** [v, err := ...; if err != nil { return nil, err }] *)
Definition orReturnV {A} (r : Error + A) : M A :=
  match r with
  | inl e => fail e
  | inr a => ret a
  end.

Definition orReturn (err : option Error) : M unit :=
  match err with
  | Some e => fail e
  | None => ret tt
  end.

(** [if err != nil { return outer.Wrap(err) }] *)
Definition wrapWith {A} (outer : Error) (m : M A) : M A :=
  fun l =>
    match m l with
    | (l', Fail e) => (l', Fail (Wrap outer e))
    | r => r
    end.

(** [err := m], where the error is looked at and not returned. *)
Definition errorOf (m : M unit) : M (option Error) :=
  fun l =>
    match m l with
    | (l', Ok _) => (l', Ok None)
    | (l', Fail e) => (l', Ok (Some e))
    | (l', Panic) => (l', Panic)
    end.

(** A request: it is written to the log, and answered from what came
    before it. *)
Definition request {A} (r : Request) (q : list Request -> A) : M A :=
  fun l => (l ++ [r], Ok (q l)).

(** A question that leaves no trace. *)
Definition ask {A} (q : list Request -> A) : M A :=
  fun l => (l, Ok (q l)).

(** [s[0]]: a run-time panic when the slice is empty. *)
Definition first {A} (s : list A) : M A :=
  match s with
  | a :: _ => ret a
  | [] => panic
  end.

(** ** The functions *)

Definition GetService (c : Client) (name : string) : M Service :=
  wrapWith (E ErrGettingService [PStr name])
    (let* r := request (ReqGet (namespace c) name)
                       (fun l => Get (clientset c) l (namespace c) name) in
     orReturnV r).

Definition buildPorts (tcpPorts udpPorts : list Z) : list ServicePort :=
  let ports := [] in
  let ports :=
    fold_left (fun ports port =>
                 ports ++ [ {| Name := "tcp-" +:+ pretty port;
                               Protocol := ProtocolTCP;
                               Port := int32 port;
                               TargetPort := FromInt port;
                               NodePort := 0 |} ])
              tcpPorts ports in
  let ports :=
    fold_left (fun ports port =>
                 ports ++ [ {| Name := "udp-" +:+ pretty port;
                               Protocol := ProtocolUDP;
                               Port := int32 port;
                               TargetPort := FromInt port;
                               NodePort := 0 |} ])
              udpPorts ports in
  ports.

(** A nil map is [None]. *)
Definition prepareService (namespace name : string)
    (labels selectorMap : option (gmap string string))
    (tcpPorts udpPorts : list Z) : Error + Service :=
  if bool_decide (namespace = EmptyString) then inl (New_ ErrNamespaceRequired)
  else if bool_decide (name = EmptyString) then inl (New_ ErrServiceNameRequired)
  else
    let labels := match labels with None => Some ∅ | Some m => Some m end in
    let selectorMap := match selectorMap with None => Some ∅ | Some m => Some m end in
    let servicePorts := buildPorts tcpPorts udpPorts in
    if bool_decide (length servicePorts = 0%nat)
    then inl (E ErrNoPortsSpecified [PStr name])
    else inr {| Meta := {| Namespace := namespace;
                           ObjectMeta_Name := name;
                           Labels := labels |};
                Spec := {| Ports := servicePorts;
                           Selector := selectorMap;
                           Type_ := ServiceTypeClusterIP;
                           ClusterIP := EmptyString;
                           ExternalIPs := [] |};
                Status := {| LoadBalancer_Ingress := [] |} |}.

Definition CreateService (c : Client) (name : string)
    (labels selectorMap : option (gmap string string))
    (portsTCP portsUDP : list Z) : M Service :=
  let* svc := wrapWith (E ErrPreparingService [PStr name])
                (orReturnV (prepareService (namespace c) name labels selectorMap
                                           portsTCP portsUDP)) in
  wrapWith (E ErrCreatingService [PStr name])
    (let* r := request (ReqCreate (namespace c) svc)
                       (fun l => Create (clientset c) l (namespace c) svc) in
     orReturnV r).

Definition PatchService (c : Client) (name : string)
    (labels selectorMap : option (gmap string string))
    (portsTCP portsUDP : list Z) : M Service :=
  let* svc := wrapWith (E ErrPreparingService [PStr name])
                (orReturnV (prepareService (namespace c) name labels selectorMap
                                           portsTCP portsUDP)) in
  wrapWith (E ErrPatchingService [PStr name])
    (let* r := request (ReqUpdate (namespace c) svc)
                       (fun l => Update (clientset c) l (namespace c) svc) in
     orReturnV r).

Definition DeleteService (c : Client) (name : string) : M unit :=
  let* _ := wrapWith (E ErrGettingService [PStr name]) (GetService c name) in
  wrapWith (E ErrDeletingService [PStr name])
    (let* r := request (ReqDelete (namespace c) name)
                       (fun l => Delete (clientset c) l (namespace c) name) in
     orReturn r).

Definition GetServiceIP (c : Client) (name : string) : M string :=
  let* svc := wrapWith (E ErrGettingService [PStr name]) (GetService c name) in
  ret (ClusterIP (Spec svc)).

(** The loop over the addresses of the first node: the first address of
    type "ExternalIP", and the empty string when there is none. *)
Fixpoint nodeIPOf (addresses : list NodeAddress) : string :=
  match addresses with
  | [] => EmptyString
  | address :: rest =>
      if bool_decide (AddressType address = "ExternalIP") then Address address
      else nodeIPOf rest
  end.

(** [fmt.Sprintf("%s:%d", host, port)] *)
Definition hostPort (host : string) (port : Z) : string :=
  host +:+ ":" +:+ pretty port.

Definition GetServiceEndpoint (c : Client) (name : string) : M string :=
  let* srv := wrapWith (E ErrGettingService [PStr name])
                (let* r := request (ReqGet (namespace c) name)
                                   (fun l => Get (clientset c) l (namespace c) name) in
                 orReturnV r) in
  if bool_decide (Type_ (Spec srv) = ServiceTypeLoadBalancer) then
    if (0 <? length (LoadBalancer_Ingress (Status srv)))%nat then
      let* ingress := first (LoadBalancer_Ingress (Status srv)) in
      let* port := first (Ports (Spec srv)) in
      ret (hostPort (IP ingress) (Port port))
    else fail (New_ ErrLoadBalancerIPNotAvailable)
  else if bool_decide (Type_ (Spec srv) = ServiceTypeNodePort) then
    let* nodes := wrapWith (New_ ErrGettingNodes)
                    (let* r := request ReqNodesList
                                       (fun l => NodesList (clientset c) l) in
                     orReturnV r) in
    if bool_decide (length nodes = 0%nat) then fail (New_ ErrNoNodesFound)
    else
      let* node := first nodes in
      let nodeIP := nodeIPOf (Status_Addresses node) in
      let* port := first (Ports (Spec srv)) in
      ret (hostPort nodeIP (NodePort port))
  else
    let* port := first (Ports (Spec srv)) in
    ret (hostPort (ClusterIP (Spec srv)) (Port port)).

Definition checkServiceConnectivity (net : Cluster) (serviceEndpoint : string)
  : M unit :=
  let* err := request (ReqDial "tcp" serviceEndpoint (waitRetry net))
                      (fun l => DialTimeout net l "tcp" serviceEndpoint (waitRetry net)) in
  match err with
  | Some e => fail (Wrap (E ErrFailedToConnect [PStr serviceEndpoint]) e)
  | None => ret tt
  end.

Definition isServiceReady (c : Client) (name : string) : M bool :=
  let* service := wrapWith (E ErrGettingService [PStr name]) (GetService c name) in
  if bool_decide (Type_ (Spec service) = ServiceTypeLoadBalancer) then
    ret (0 <? length (LoadBalancer_Ingress (Status service)))%nat
  else if bool_decide (Type_ (Spec service) = ServiceTypeNodePort) then
    let* port := first (Ports (Spec service)) in
    ret (negb (NodePort port =? 0)%Z)
  else
    ret (0 <? length (ExternalIPs (Spec service)))%nat.

(** The [for { select { ... } }] of [WaitForService], for at most [rounds]
    passes through the select; [None] when the loop is still running after
    them. *)
Fixpoint waitForServiceLoop (rounds : nat) (c : Client) (name : string)
  : M (option unit) :=
  match rounds with
  | O => ret None
  | S rounds' =>
      let* done := ask (ctxDone (clientset c)) in
      if done then fail (New_ ErrTimeoutWaitingForServiceReady)
      else
        let* ready := wrapWith (E ErrCheckingServiceReady [PStr name])
                               (isServiceReady c name) in
        if negb ready then waitForServiceLoop rounds' c name
        else
          let* endpoint := wrapWith (E ErrGettingServiceEndpoint [PStr name])
                                    (GetServiceEndpoint c name) in
          let* err := errorOf (checkServiceConnectivity (clientset c) endpoint) in
          match err with
          | Some _ => waitForServiceLoop rounds' c name
          | None => ret (Some tt)
          end
  end.

Definition WaitForService (rounds : nat) (c : Client) (name : string)
  : M (option unit) :=
  waitForServiceLoop rounds c name.

(** ** Sample data for the closed examples *)

(** A service of the given type, with one TCP port 80 and the given
    external addresses. *)
Definition sampleService (type : string) (externalIPs : list string) : Service :=
  {| Meta := {| Namespace := "test"; ObjectMeta_Name := "web"; Labels := Some ∅ |};
     Spec := {| Ports := buildPorts [80%Z] [];
                Selector := Some ∅;
                Type_ := type;
                ClusterIP := "10.0.0.7";
                ExternalIPs := externalIPs |};
     Status := {| LoadBalancer_Ingress := [] |} |}.

(** A cluster in which every lookup finds [svc], every other request is
    granted, every dial connects, and the context is never done. *)
Definition steadyCluster (svc : Service) : Cluster :=
  {| Get := fun _ _ _ => inr svc;
     Create := fun _ _ s => inr s;
     Update := fun _ _ s => inr s;
     Delete := fun _ _ _ => None;
     NodesList := fun _ => inr [];
     DialTimeout := fun _ _ _ _ => None;
     ctxDone := fun _ => false;
     waitRetry := 5000000000 |}.

(** A cluster in which no service is found. *)
Definition emptyCluster : Cluster :=
  {| Get := fun _ _ _ => inl (New_ (Foreign "not found"));
     Create := fun _ _ s => inr s;
     Update := fun _ _ s => inr s;
     Delete := fun _ _ _ => None;
     NodesList := fun _ => inr [];
     DialTimeout := fun _ _ _ _ => None;
     ctxDone := fun _ => false;
     waitRetry := 5000000000 |}.

End k8s.

(** ** Notions for the statements about sequences of operations *)

(** Operations run one after the other, whatever each returns. *)
Definition runAll (sys : Collaborators) (ops : list Operation) (w : World) : World :=
  fold_left (fun w op => worldAfter sys op w) ops w.

(** The two lists of registered ports. *)
Definition ports (x : Instance) : list Z * list Z := (portsTCP x, portsUDP x).

(** The two names of an instance: the one given by the user and the one
    generated for the cluster. *)
Definition names (x : Instance) : string * string := (name x, k8sName x).

(** What the descriptor mutators leave alone: the names, the lifecycle
    state, the image, the builder and the sidecar links. *)
Definition core (x : Instance)
  : string * string * InstanceState * string * option BuilderFactory
    * bool * option ptr * list ptr :=
  (name x, k8sName x, state x, imageName x, builderFactory x,
   isSidecar x, parentInstance x, sidecars x).

(** [staysSidecar x x']: if [x] is a sidecar, then [x'] is a sidecar of the
    same parent. *)
Definition staysSidecar (x x' : Instance) : Prop :=
  isSidecar x = true -> isSidecar x' = true /\ parentInstance x' = parentInstance x.

(** [portsGrow a b]: every port registered in [a] is registered in [b], in
    the same order, and [b] lists no port twice when [a] does not. *)
Definition portsGrow (a b : list Z * list Z) : Prop :=
  (a.1 `prefix_of` b.1 /\ a.2 `prefix_of` b.2)
  /\ (NoDup a.1 -> NoDup b.1) /\ (NoDup a.2 -> NoDup b.2).


(** ** Setting the image, asking for the address, waiting for the stop

    Four more methods of [*Instance]: [SetImage], [SetImageInstant],
    [GetIP] and [WaitInstanceIsStopped]. *)

(** The error values of the package that these methods return.  Like the
    other error values they are declared outside the files at hand; the
    methods are read for any values of them. *)
Record Errors := mkErrors
  { ErrSettingImageNotAllowed : Error;
    ErrCreatingBuilder : Error;
    ErrSettingImageNotAllowedForSidecarsStarted : Error;
    ErrSettingImageNotAllowedForSidecars : Error;
    ErrDeployingServiceForInstance : Error;
    ErrGettingServiceForInstance : Error;
    ErrGettingServiceIP : Error;
    ErrWaitingForInstanceStoppedNotAllowed : Error;
    ErrCheckingIfInstanceStopped : Error }.

(** The collaborators of these methods.  [setImageWithGracePeriod] and
    [deployService] are methods of the package declared outside the files
    at hand: each may be any computation.  [NewBuilderFactory] is given the
    image and the build directory; its third argument in the source, the
    image builder, is one of the system dependencies and so the same at
    every call.  The cluster is asked for the
    service up to twice in one call of [GetIP]; it is told which of the two
    lookups it answers, and may answer them differently.
    [IsReplicaSetRunning] returns two values; [runningBesideError] is the
    boolean that it returns together with an error. *)
Record Helpers := mkHelpers
  { NewBuilderFactory : list Event -> string -> string -> Error + BuilderFactory;
    setImageWithGracePeriod : ptr -> string -> option Z -> M unit;
    deployService : ptr -> list Z -> list Z -> M unit;
    GetService : nat -> list Event -> string -> Error + option Service;
    runningBesideError : list Event -> string -> bool }.

Definition set_builderFactory (v : option BuilderFactory) (x : Instance) : Instance :=
  let '(mkInstance a0 a1 a2 a3 a4 a5 _ a7 a8 a9 a10 a11 a12 a13 a14 a15 a16 a17 a18 a19 a20 a21 a22 a23 a24 a25 a26 a27 a28) := x in
  mkInstance a0 a1 a2 a3 a4 a5 v a7 a8 a9 a10 a11 a12 a13 a14 a15 a16 a17 a18 a19 a20 a21 a22 a23 a24 a25 a26 a27 a28.

Definition set_kubernetesService (v : option Service) (x : Instance) : Instance :=
  let '(mkInstance a0 a1 a2 a3 a4 _ a6 a7 a8 a9 a10 a11 a12 a13 a14 a15 a16 a17 a18 a19 a20 a21 a22 a23 a24 a25 a26 a27 a28) := x in
  mkInstance a0 a1 a2 a3 a4 v a6 a7 a8 a9 a10 a11 a12 a13 a14 a15 a16 a17 a18 a19 a20 a21 a22 a23 a24 a25 a26 a27 a28.

(** [err := m], where the error is looked at and not returned at once. *)
Definition errorOf (m : M unit) : M (option Error) :=
  fun w =>
    match m w with
    | (w', Ok _) => (w', Ok None)
    | (w', Fail e) => (w', Ok (Some e))
    | (w', Panic) => (w', Panic)
    end.

Section MoreMethods.

Context (errs : Errors) (sys : Collaborators) (h : Helpers).

Definition SetImage (i : ptr) (image : string) : M unit :=
  let* this := load i in
  let* _ := check (IsInState this [StateNone; Started])
                  (WithParams (ErrSettingImageNotAllowed errs) (stateParam this)) in
  if bool_decide (state this = StateNone) then
    let* factory := wrapWith (ErrCreatingBuilder errs)
                      (let* r := ask (fun l => NewBuilderFactory h l image
                                                 (getBuildDir sys this)) in
                       orReturnV r) in
    let* _ := update i (set_builderFactory (Some factory)) in
    update i (set_state Preparing)
  else
    let* _ := check (negb (isSidecar this))
                    (ErrSettingImageNotAllowedForSidecarsStarted errs) in
    setImageWithGracePeriod h i image None.

Definition SetImageInstant (i : ptr) (image : string) : M unit :=
  let* this := load i in
  let* _ := check (IsInState this [Started])
                  (WithParams (ErrSettingImageNotAllowedForSidecarsStarted errs)
                              (stateParam this)) in
  let* _ := check (negb (isSidecar this)) (ErrSettingImageNotAllowedForSidecars errs) in
  let gracePeriod := 0%Z in
  setImageWithGracePeriod h i image (Some gracePeriod).

Definition GetIP (i : ptr) : M string :=
  let* this := load i in
  if match kubernetesService this with
     | Some known => negb (bool_decide (ClusterIP known = EmptyString))
     | None => false
     end
  then
    let* known := deref (kubernetesService this) in
    ret (ClusterIP known)
  else
    let* found := ask (fun l => GetService h 0 l (k8sName this)) in
    let* svc :=
      match found with
      | inr (Some svc) => ret (Some svc)
      | _ =>
          let* err := errorOf (deployService h i (portsTCP this) (portsUDP this)) in
          let* cur := load i in
          let* _ := match err with
                    | Some e =>
                        fail (Wrap (WithParams (ErrDeployingServiceForInstance errs)
                                               [PStr (k8sName cur)]) e)
                    | None => ret tt
                    end in
          wrapWith (WithParams (ErrGettingServiceForInstance errs) [PStr (k8sName cur)])
            (let* again := ask (fun l => GetService h 1 l (k8sName cur)) in
             orReturnV again)
      end in
    (* [svc.Spec.ClusterIP]: a nil pointer is dereferenced when the second
       lookup gave neither a service nor an error *)
    let* svc := deref svc in
    let ip := ClusterIP svc in
    let* cur := load i in
    let* _ := check (negb (bool_decide (ip = EmptyString)))
                    (WithParams (ErrGettingServiceIP errs) [PStr (k8sName cur)]) in
    let* _ := update i (set_kubernetesService (Some svc)) in
    ret ip.

(** [IsRunning] with the two values that it returns: when the state does
    not allow the call they are false and the state-violation error; else
    they are the two values of [IsReplicaSetRunning]. *)
Definition IsRunning_both (i : ptr) : M (bool * option Error) :=
  let* this := load i in
  if negb (IsInState this [Started; Stopped])
  then ret (false, Some (E ErrCheckingIfInstanceRunningNotAllowed (stateParam this)))
  else
    let* r := call (EvIsReplicaSetRunning (k8sName this))
                   (fun l => (IsReplicaSetRunning sys l (k8sName this),
                              runningBesideError h l (k8sName this))) in
    match r with
    | (inr running, _) => ret (running, None)
    | (inl err, running) => ret (running, Some err)
    end.

(** The [for { ... }] of [WaitInstanceIsStopped], for at most [rounds]
    passes; [None] when the loop is still running after them. *)
Fixpoint waitStoppedLoop (rounds : nat) (i : ptr) : M (option unit) :=
  match rounds with
  | O => ret None
  | S rounds' =>
      let* r := IsRunning_both i in
      if negb (fst r) then ret (Some tt) (* break *)
      else
        match snd r with
        | Some err =>
            let* this := load i in
            fail (Wrap (WithParams (ErrCheckingIfInstanceStopped errs)
                                   [PStr (k8sName this)]) err)
        | None => waitStoppedLoop rounds' i
        end
  end.

Definition WaitInstanceIsStopped (rounds : nat) (i : ptr) : M (option unit) :=
  let* this := load i in
  let* _ := check (IsInState this [Stopped])
                  (WithParams (ErrWaitingForInstanceStoppedNotAllowed errs)
                              (stateParam this)) in
  waitStoppedLoop rounds i.

End MoreMethods.

(** Sample values for the closed examples. *)
Definition sampleErrors : Errors :=
  {| ErrSettingImageNotAllowed := New_ (Foreign "setting image not allowed");
     ErrCreatingBuilder := New_ (Foreign "creating builder");
     ErrSettingImageNotAllowedForSidecarsStarted :=
       New_ (Foreign "setting image not allowed for sidecars started");
     ErrSettingImageNotAllowedForSidecars :=
       New_ (Foreign "setting image not allowed for sidecars");
     ErrDeployingServiceForInstance := New_ (Foreign "deploying service");
     ErrGettingServiceForInstance := New_ (Foreign "getting service");
     ErrGettingServiceIP := New_ (Foreign "getting service IP");
     ErrWaitingForInstanceStoppedNotAllowed :=
       New_ (Foreign "waiting for instance stopped not allowed");
     ErrCheckingIfInstanceStopped := New_ (Foreign "checking if instance stopped") |}.

(** A builder whose context needs no build. *)
Definition plainBuilder : BuilderFactory :=
  {| Changed := false;
     GenerateImageHash := inr "c0ffee";
     PushBuilderImage := fun _ => None;
     ImageNameFrom := "nginx:alpine";
     SetEnvVar := fun _ _ => None;
     ReadFileFromBuilder := fun _ => inr [];
     ExecuteCmdInBuilder := fun _ => inr "ok" |}.

(** Helpers that never fail; the service is found at the second lookup,
    after its deployment, and a failed readiness query reports "not
    running". *)
Definition quietHelpers : Helpers :=
  {| NewBuilderFactory := fun _ _ _ => inr plainBuilder;
     setImageWithGracePeriod := fun _ _ _ => ret tt;
     deployService := fun _ _ _ => ret tt;
     GetService := fun n _ _ =>
       match n with
       | O => inr None
       | S _ => inr (Some (mkService "10.0.0.7"))
       end;
     runningBesideError := fun _ _ => false |}.

(** What the readiness poll that comes after [j] earlier ones reports: the
    two values of [IsReplicaSetRunning]. *)
Definition reported (sys : Collaborators) (h : Helpers) (this : Instance)
    (l : list Event) (j : nat) : bool * option Error :=
  match IsReplicaSetRunning sys (l ++ polls this j) (k8sName this) with
  | inr running => (running, None)
  | inl err => (runningBesideError h (l ++ polls this j) (k8sName this), Some err)
  end.

(** Collaborators as [quietSys], but the readiness query fails. *)
Definition failingPollSys : Collaborators :=
  {| validatePort := validatePort quietSys;
     validateFileArgs := validateFileArgs quietSys;
     getBuildDir := getBuildDir quietSys;
     getImageRegistry := getImageRegistry quietSys;
     isSubFolderOfVolumes := isSubFolderOfVolumes quietSys;
     addFileToBuilder := addFileToBuilder quietSys;
     isObservabilityEnabled := isObservabilityEnabled quietSys;
     createOtelCollectorInstance := createOtelCollectorInstance quietSys;
     createBitTwisterInstance := createBitTwisterInstance quietSys;
     deployResources := deployResources quietSys;
     deployPod := deployPod quietSys;
     destroyPod := destroyPod quietSys;
     GetFirstPodFromReplicaSet := GetFirstPodFromReplicaSet quietSys;
     PortForwardPod := PortForwardPod quietSys;
     RunCommandInPod := RunCommandInPod quietSys;
     IsReplicaSetRunning := fun _ _ => inl (New_ (Foreign "connection refused"));
     BitTwisterClient := BitTwisterClient quietSys;
     getFreePortTCP := getFreePortTCP quietSys;
     os_Stat := os_Stat quietSys;
     os_MkdirAll := os_MkdirAll quietSys;
     os_Create := os_Create quietSys;
     os_Open := os_Open quietSys;
     io_Copy := io_Copy quietSys;
     os_CreateTemp := os_CreateTemp quietSys;
     tmp_Write := tmp_Write quietSys;
     tmp_Close := tmp_Close quietSys;
     filepath_Join := filepath_Join quietSys;
     filepath_Dir := filepath_Dir quietSys;
     filepath_Rel := filepath_Rel quietSys;
     filepath_Walk := filepath_Walk quietSys;
     strconv_ParseInt := strconv_ParseInt quietSys;
     selectTickFirst := selectTickFirst quietSys |}.

(** "web", stopped. *)
Definition webStopped : Instance := set_state Stopped webNew.


(** ** Lemmas on the guards *)

Lemma IsInState_PC_false (x : Instance) :
  state x ≠ Preparing -> state x ≠ Committed ->
  IsInState x [Preparing; Committed] = false.
Proof.
  intros H1 H2. unfold IsInState. cbn.
  rewrite !bool_decide_eq_false_2 by assumption. reflexivity.
Qed.

Lemma IsInState_PC_true (x : Instance) :
  state x = Preparing \/ state x = Committed ->
  IsInState x [Preparing; Committed] = true.
Proof.
  intros [H | H]; unfold IsInState; cbn; rewrite H; reflexivity.
Qed.

Lemma IsInState_Started (x : Instance) :
  IsInState x [Started] = bool_decide (state x = Started).
Proof. unfold IsInState. cbn. apply orb_false_r. Qed.

(** ** Equations of the monad *)

Lemma bind_ret {A B} (a : A) (k : A -> M B) (w : World) :
  bind (ret a) k w = k a w.
Proof. reflexivity. Qed.

Lemma bind_fail {A B} (e : Error) (k : A -> M B) (w : World) :
  bind (fail e) k w = (w, Fail e).
Proof. reflexivity. Qed.

Lemma bind_panic {A B} (k : A -> M B) (w : World) :
  bind panic k w = (w, Panic).
Proof. reflexivity. Qed.

Lemma bind_bind {A B C} (m : M A) (k : A -> M B) (k' : B -> M C) (w : World) :
  bind (bind m k) k' w = bind m (fun a => bind (k a) k') w.
Proof. unfold bind. destruct (m w) as [w' [a | e |]]; reflexivity. Qed.

Lemma bind_load {B} (p : ptr) (x : Instance) (k : Instance -> M B) (w : World) :
  heap w !! p = Some x -> bind (load p) k w = k x w.
Proof. intros H. unfold bind, load. rewrite H. reflexivity. Qed.

Lemma bind_load_nil {B} (p : ptr) (k : Instance -> M B) (w : World) :
  heap w !! p = None -> bind (load p) k w = (w, Panic).
Proof. intros H. unfold bind, load. rewrite H. reflexivity. Qed.

Lemma bind_check_true {B} (e : Error) (k : unit -> M B) (w : World) :
  bind (check true e) k w = k tt w.
Proof. reflexivity. Qed.

Lemma bind_check_false {B} (e : Error) (k : unit -> M B) (w : World) :
  bind (check false e) k w = (w, Fail e).
Proof. reflexivity. Qed.

Lemma update_at (p : ptr) (f : Instance -> Instance) (x : Instance) (w : World) :
  heap w !! p = Some x ->
  update p f w = (set_heap (<[p := f x]> (heap w)) w, Ok tt).
Proof. intros H. unfold update. rewrite H. reflexivity. Qed.

Lemma bind_update {B} (p : ptr) (f : Instance -> Instance) (x : Instance)
    (k : unit -> M B) (w : World) :
  heap w !! p = Some x ->
  bind (update p f) k w = k tt (set_heap (<[p := f x]> (heap w)) w).
Proof. intros H. unfold bind. rewrite (update_at p f x w H). reflexivity. Qed.

#[global] Arguments IsInState : simpl never.

(** The guard of a mutator fails: the instance is read, the test is false. *)
Ltac guard_fails Hl Hg :=
  unfold validateStateForObsy, checkStateForAddingFile, checkStateForProbe;
  rewrite ?bind_bind;
  rewrite (bind_load _ _ _ _ Hl); rewrite Hg;
  first [ rewrite bind_check_false; reflexivity | reflexivity ].

(** C1 (as amended).  Every mutator whose first statement is the guard
    [IsInState(Preparing, Committed)] -- command and arguments, ports,
    files and folders, [AddVolumeWithOwner], memory and CPU, environment,
    policy rules, probes, the observability setters, privileged flag and
    capabilities -- called on an instance in a state outside
    {Preparing, Committed} returns the state-violation error of that
    operation, whose last parameter is the name of the current state, and
    leaves the whole world (every descriptor field included) as it was.
    The two fault-injection switches are gated differently:
    [EnableBitTwister] is rejected in Started, with [ErrEnablingBitTwister]
    and nothing changed, and in Started only -- in every other state it
    returns nil and switches the configuration on; [DisableBitTwister]
    returns nil in every state and switches it off. *)
Theorem guarded_mutator_rejected_outside_preparing_committed
    (sys : Collaborators) (m : Mutator) (w : World) (i : ptr) (this : Instance) :
  heap w !! i = Some this ->
  (guardedByPreparingCommitted m = true ->
   state this ≠ Preparing ->
   state this ≠ Committed ->
   runMutator sys m i w = (w, Fail (notAllowed m (state this)))
   /\ last (err_params (notAllowed m (state this)))
      = Some (PStr (State_String (state this))))
  /\ (state this = Started ->
      runMutator sys MEnableBitTwister i w = (w, Fail (New_ ErrEnablingBitTwister)))
  /\ (state this ≠ Started ->
      runMutator sys MEnableBitTwister i w
      = (set_heap (<[i := set_BitTwister (bt_enable (BitTwister this)) this]> (heap w)) w,
         Ok tt))
  /\ runMutator sys MDisableBitTwister i w
     = (set_heap (<[i := set_BitTwister (bt_disable (BitTwister this)) this]> (heap w)) w,
        Ok tt).
Proof.
  intros Hl. split; [| split; [| split]].
  - intros Hg H1 H2.
    pose proof (IsInState_PC_false this H1 H2) as Hs.
    destruct m; try discriminate Hg; (split; [| reflexivity]);
      cbn [runMutator notAllowed];
      [ unfold SetCommand | unfold SetArgs | unfold AddPortTCP | unfold AddPortUDP
      | unfold AddFile | unfold AddFolder | unfold AddFileBytes
      | unfold AddVolumeWithOwner | unfold SetMemory | unfold SetCPU
      | unfold SetEnvironmentVariable | unfold AddPolicyRule
      | unfold SetLivenessProbe | unfold SetReadinessProbe | unfold SetStartupProbe
      | unfold SetOtelCollectorVersion | unfold SetOtelEndpoint
      | unfold SetPrometheusEndpoint | unfold SetJaegerEndpoint
      | unfold SetOtlpExporter | unfold SetJaegerExporter
      | unfold SetPrometheusExporter | unfold SetPrometheusRemoteWriteExporter
      | unfold SetPrivileged | unfold AddCapability | unfold AddCapabilities ];
      guard_fails Hl Hs.
  - intros Hst. cbn [runMutator]. unfold EnableBitTwister.
    rewrite (bind_load _ _ _ _ Hl), IsInState_Started,
      bool_decide_eq_true_2 by assumption.
    cbn [negb]. rewrite bind_check_false. reflexivity.
  - intros Hst. cbn [runMutator]. unfold EnableBitTwister.
    rewrite (bind_load _ _ _ _ Hl), IsInState_Started,
      bool_decide_eq_false_2 by assumption.
    cbn [negb]. rewrite bind_check_true. exact (update_at i _ this w Hl).
  - cbn [runMutator]. unfold DisableBitTwister. exact (update_at i _ this w Hl).
Qed.

Lemma guarded_mutator_rejected_witness :
  (runMutator quietSys (MAddPortTCP 80) 0%nat (oneInstance webStarted)
   = (oneInstance webStarted, Fail (notAllowed (MAddPortTCP 80) Started))
   /\ last (err_params (notAllowed (MAddPortTCP 80) Started))
      = Some (PStr (State_String Started)))
  /\ runMutator quietSys MEnableBitTwister 0%nat (oneInstance webStarted)
     = (oneInstance webStarted, Fail (New_ ErrEnablingBitTwister))
  /\ runMutator quietSys MEnableBitTwister 0%nat (oneInstance (set_state Stopped webNew))
     = (set_heap (<[0%nat := set_BitTwister (bt_enable defaultBt)
                               (set_state Stopped webNew)]>
                    (heap (oneInstance (set_state Stopped webNew))))
          (oneInstance (set_state Stopped webNew)),
        Ok tt)
  /\ runMutator quietSys MDisableBitTwister 0%nat (oneInstance webStarted)
     = (set_heap (<[0%nat := set_BitTwister (bt_disable defaultBt) webStarted]>
                    (heap (oneInstance webStarted)))
          (oneInstance webStarted),
        Ok tt).
Proof.
  destruct (guarded_mutator_rejected_outside_preparing_committed
              quietSys (MAddPortTCP 80) (oneInstance webStarted) 0%nat webStarted
              eq_refl) as (Hguard & Hon & _ & Hoff).
  destruct (guarded_mutator_rejected_outside_preparing_committed
              quietSys (MAddPortTCP 80) (oneInstance (set_state Stopped webNew)) 0%nat
              (set_state Stopped webNew) eq_refl) as (_ & _ & Hstopped & _).
  split; [apply Hguard; [reflexivity | discriminate | discriminate] |].
  split; [apply Hon; reflexivity |].
  split; [apply Hstopped; discriminate | exact Hoff].
Defined.

(** C1 (as stated) fails on the fault-injection switch: in state None,
    which is outside {Preparing, Committed}, [EnableBitTwister] returns nil
    and the configuration is switched on. *)
Lemma EnableBitTwister_accepted_in_state_None :
  state webNew = StateNone
  /\ runMutator quietSys MEnableBitTwister 0%nat (oneInstance webNew)
     = (oneInstance (set_BitTwister (bt_enable defaultBt) webNew), Ok tt)
  /\ enabled (BitTwister webNew) = false
  /\ enabled (BitTwister (set_BitTwister (bt_enable defaultBt) webNew)) = true.
Proof. repeat split. Qed.

(** [DisableBitTwister] has no guard at all. *)
Lemma DisableBitTwister_accepted_in_every_state
    (w : World) (i : ptr) (this : Instance) :
  heap w !! i = Some this ->
  DisableBitTwister i w
  = (set_heap (<[i := set_BitTwister (bt_disable (BitTwister this)) this]> (heap w)) w,
     Ok tt).
Proof. intros Hl. unfold DisableBitTwister. exact (update_at i _ this w Hl). Qed.

(** [AddVolume] outside {Preparing, Committed}, with no volume yet: the
    guard of [AddVolumeWithOwner] fails, the error is dropped, and
    [AddVolume] returns nil with nothing changed. *)
Lemma AddVolume_drops_the_state_error
    (w : World) (i : ptr) (this : Instance) (path size : string) :
  heap w !! i = Some this ->
  volumes this = [] ->
  state this ≠ Preparing ->
  state this ≠ Committed ->
  AddVolume i path size w = (w, Ok tt).
Proof.
  intros Hl Hv H1 H2. unfold AddVolume.
  rewrite (bind_load _ _ _ _ Hl), Hv. cbn [length Nat.ltb Nat.leb negb].
  rewrite bind_check_true. unfold discard, AddVolumeWithOwner.
  rewrite (bind_load _ _ _ _ Hl), (IsInState_PC_false _ H1 H2), bind_check_false.
  reflexivity.
Qed.

(** ** Frame reasoning: how a field may change under a computation

    The rules for [evolves R f], one per construct of the monad.  With [R]
    the equality the computation keeps the field; with [R] a preorder such
    as "is a prefix of" the field may only grow. *)

Section Evolves.

Context {F : Type} (R : relation F) `{!Reflexive R} `{!Transitive R}.
Context (f : Instance -> F).

Lemma relField_refl (w : World) : relField R f w w.
Proof. intros p x H. exists x. split; [assumption | reflexivity]. Qed.

Lemma relField_trans (w1 w2 w3 : World) :
  relField R f w1 w2 -> relField R f w2 w3 -> relField R f w1 w3.
Proof.
  intros H12 H23 p x H.
  destruct (H12 p x H) as (x2 & H2 & E2).
  destruct (H23 p x2 H2) as (x3 & H3 & E3).
  exists x3. split; [assumption | by transitivity (f x2)].
Qed.

Lemma relField_heap (w w' : World) : heap w' = heap w -> relField R f w w'.
Proof. intros E p x H. rewrite E. exists x. split; [assumption | reflexivity]. Qed.

Lemma evolves_ret {A} (a : A) : evolves R f (ret a).
Proof. intros w. apply relField_refl. Qed.

Lemma evolves_fail {A} (e : Error) : evolves R f (@fail A e).
Proof. intros w. apply relField_refl. Qed.

Lemma evolves_panic {A} : evolves R f (@panic A).
Proof. intros w. apply relField_refl. Qed.

Lemma evolves_bind {A B} (m : M A) (k : A -> M B) :
  evolves R f m -> (forall a, evolves R f (k a)) -> evolves R f (bind m k).
Proof.
  intros Hm Hk w. unfold bind. specialize (Hm w).
  destruct (m w) as [w' [a | e |]]; cbn in *; try assumption.
  eapply relField_trans; [exact Hm | apply Hk].
Qed.

Lemma evolves_check (b : bool) (e : Error) : evolves R f (check b e).
Proof. destruct b; [apply evolves_ret | apply evolves_fail]. Qed.

Lemma evolves_orReturn (o : option Error) : evolves R f (orReturn o).
Proof. destruct o; [apply evolves_fail | apply evolves_ret]. Qed.

Lemma evolves_orReturnV {A} (r : Error + A) : evolves R f (orReturnV r).
Proof. destruct r; [apply evolves_fail | apply evolves_ret]. Qed.

Lemma evolves_deref {A} (o : option A) : evolves R f (deref o).
Proof. destruct o; [apply evolves_ret | apply evolves_panic]. Qed.

Lemma evolves_load (p : ptr) : evolves R f (load p).
Proof. intros w. unfold load. destruct (heap w !! p); apply relField_refl. Qed.

Lemma evolves_ask {A} (q : list Event -> A) : evolves R f (ask q).
Proof. intros w. apply relField_refl. Qed.

Lemma evolves_call {A} (ev : Event) (q : list Event -> A) : evolves R f (call ev q).
Proof. intros w. apply relField_heap. reflexivity. Qed.

Lemma evolves_emit (ev : Event) : evolves R f (emit ev).
Proof. intros w. apply relField_heap. reflexivity. Qed.

Lemma evolves_Sleep (d : Z) : evolves R f (Sleep d).
Proof. intros w. apply relField_heap. reflexivity. Qed.

Lemma evolves_waitUntil (t : Z) : evolves R f (waitUntil t).
Proof. intros w. apply relField_heap. reflexivity. Qed.

Lemma evolves_checkImageHashInCache (h : string) :
  evolves R f (checkImageHashInCache h).
Proof.
  intros w. unfold checkImageHashInCache.
  destruct (imageCache w !! h); apply relField_refl.
Qed.

Lemma evolves_updateImageCacheWithHash (h n : string) :
  evolves R f (updateImageCacheWithHash h n).
Proof. intros w. apply relField_heap. reflexivity. Qed.

Lemma evolves_wrapWith {A} (outer : Error) (m : M A) :
  evolves R f m -> evolves R f (wrapWith outer m).
Proof.
  intros Hm w. unfold wrapWith. specialize (Hm w).
  destruct (m w) as [w' [a | e |]]; exact Hm.
Qed.

Lemma evolves_discard {A} (m : M A) : evolves R f m -> evolves R f (discard m).
Proof.
  intros Hm w. unfold discard. specialize (Hm w).
  destruct (m w) as [w' [a | e |]]; exact Hm.
Qed.

Lemma evolves_deferring {A} (d : M unit) (body : M A) :
  evolves R f d -> evolves R f body -> evolves R f (deferring d body).
Proof.
  intros Hd Hb w. unfold deferring. specialize (Hb w).
  destruct (body w) as [w' r]. cbn in *.
  eapply relField_trans; [exact Hb | apply Hd].
Qed.

Lemma evolves_at_world {A} (m : World -> M A) :
  (forall w0, evolves R f (m w0)) -> evolves R f (fun w => m w w).
Proof. intros H w. apply H. Qed.

Lemma evolves_update (p : ptr) (g : Instance -> Instance) :
  (forall x, R (f x) (f (g x))) -> evolves R f (update p g).
Proof.
  intros Hg w. unfold update.
  destruct (heap w !! p) as [x |] eqn:Hp; [| apply relField_refl].
  intros q y Hq. cbn. destruct (decide (p = q)) as [-> | Hne].
  - rewrite lookup_insert_eq. exists (g x). split; [reflexivity |].
    assert (y = x) as -> by congruence. apply Hg.
  - rewrite lookup_insert_ne by assumption.
    exists y. split; [assumption | reflexivity].
Qed.

Lemma evolves_alloc (v : Instance) : evolves R f (alloc v).
Proof.
  intros w q y Hq. unfold alloc. cbn.
  assert (fresh (dom (heap w)) ≠ q) as Hne.
  { intros <-. apply (is_fresh (dom (heap w))). apply elem_of_dom. eauto. }
  rewrite lookup_insert_ne by assumption.
  exists y. split; [assumption | reflexivity].
Qed.

Lemma evolves_btCall (sys : Collaborators) (c : BtCall) : evolves R f (btCall sys c).
Proof. intros w. apply relField_heap. reflexivity. Qed.

End Evolves.

(** One step of a frame proof: the shape of the computation decides. *)
(** The side conditions on the preorder are found by instance search. *)
Ltac order_side :=
  try match goal with
      | |- Reflexive _ => typeclasses eauto
      | |- Transitive _ => typeclasses eauto
      end.

Ltac keeps_step :=
  match goal with
  | |- evolves _ _ (bind _ _) => apply evolves_bind; order_side; [| intros ?]
  | |- evolves _ _ (ret _) => apply evolves_ret; order_side
  | |- evolves _ _ (fail _) => apply evolves_fail; order_side
  | |- evolves _ _ panic => apply evolves_panic; order_side
  | |- evolves _ _ (check _ _) => apply evolves_check; order_side
  | |- evolves _ _ (orReturn _) => apply evolves_orReturn; order_side
  | |- evolves _ _ (orReturnV _) => apply evolves_orReturnV; order_side
  | |- evolves _ _ (deref _) => apply evolves_deref; order_side
  | |- evolves _ _ (load _) => apply evolves_load; order_side
  | |- evolves _ _ (ask _) => apply evolves_ask; order_side
  | |- evolves _ _ (call _ _) => apply evolves_call; order_side
  | |- evolves _ _ (emit _) => apply evolves_emit; order_side
  | |- evolves _ _ (Sleep _) => apply evolves_Sleep; order_side
  | |- evolves _ _ (waitUntil _) => apply evolves_waitUntil; order_side
  | |- evolves _ _ (alloc _) => apply evolves_alloc; order_side
  | |- evolves _ _ (btCall _ _) => apply evolves_btCall; order_side
  | |- evolves _ _ (checkImageHashInCache _) => apply evolves_checkImageHashInCache; order_side
  | |- evolves _ _ (updateImageCacheWithHash _ _) =>
      apply evolves_updateImageCacheWithHash; order_side
  | |- evolves _ _ (wrapWith _ _) => apply evolves_wrapWith; order_side
  | |- evolves _ _ (discard _) => apply evolves_discard; order_side
  | |- evolves _ _ (deferring _ _) => apply evolves_deferring; order_side
  | |- evolves _ _ (update _ _) => apply evolves_update; order_side; intros ?; try reflexivity
  | |- evolves _ _ (if ?b then _ else _) => destruct b
  | |- evolves _ _ (match ?x with _ => _ end) => destruct x
  | H : evolves ?R ?f ?m |- evolves ?R ?f ?m => exact H
  | H : forall a, evolves ?R ?f (?m a) |- evolves ?R ?f (?m _) => apply H
  end.

Ltac keeps_auto := repeat keeps_step.

(** ** Operations that write no field of any instance *)

Section EvolvesMethods.

Context {F : Type} (R : relation F) `{!Reflexive R} `{!Transitive R}.
Context (f : Instance -> F) (sys : Collaborators).

Lemma evolves_applyFunctionToInstances (l : list ptr) (fn : Instance -> M unit) :
  (forall x, evolves R f (fn x)) -> evolves R f (applyFunctionToInstances l fn).
Proof. intros H. induction l as [| p l IH]; cbn; keeps_auto. Qed.

Lemma evolves_forwardAttempts (i : ptr) (pod : string) (lp port : Z)
    (attempts : list Z) :
  evolves R f (forwardAttempts sys i pod lp port attempts).
Proof. induction attempts as [| a attempts IH]; cbn; keeps_auto. Qed.

Lemma evolves_IsRunning (i : ptr) : evolves R f (IsRunning sys i).
Proof. unfold IsRunning. keeps_auto. Qed.

Lemma evolves_waitLoop (i : ptr) (deadline : Z) (ticks : list Z) :
  evolves R f (waitLoop sys i deadline ticks).
Proof.
  induction ticks as [| t ticks IH]; cbn; keeps_auto; apply evolves_IsRunning.
Qed.

Lemma evolves_WaitInstanceIsRunning (i : ptr) :
  evolves R f (WaitInstanceIsRunning sys i).
Proof.
  unfold WaitInstanceIsRunning. keeps_auto.
  apply (evolves_at_world R f
           (fun w0 => waitLoop sys i (waitDeadline (now w0)) (tickInstants (now w0)))).
  intros w0. apply evolves_waitLoop.
Qed.

Lemma evolves_ExecuteCommand (i : ptr) (cmd : list string) :
  evolves R f (ExecuteCommand sys i cmd).
Proof. unfold ExecuteCommand. keeps_auto. Qed.

Lemma evolves_deployResourcesOf (x : Instance) : evolves R f (deployResourcesOf sys x).
Proof. unfold deployResourcesOf. keeps_auto. Qed.

Lemma evolves_deployPodOf (x : Instance) : evolves R f (deployPodOf sys x).
Proof. unfold deployPodOf. keeps_auto. Qed.

Lemma evolves_destroyPodOf (x : Instance) : evolves R f (destroyPodOf sys x).
Proof. unfold destroyPodOf. keeps_auto. Qed.

End EvolvesMethods.

(** ** Volumes are touched by [AddVolumeWithOwner] alone *)

Section VolumesFrame.

Context (sys : Collaborators).

Lemma keeps_volumes_setStateForSidecars (l : list ptr) (st : InstanceState) :
  keeps volumes (setStateForSidecars l st).
Proof. induction l as [| p l IH]; cbn; keeps_auto. Qed.

Lemma keeps_volumes_addEachCapability (i : ptr) (l : list string) :
  keeps volumes (addEachCapability i l).
Proof. induction l as [| c l IH]; cbn; keeps_auto. Qed.

Lemma keeps_volumes_AddFile (i : ptr) (src dest chown : string) :
  keeps volumes (AddFile sys i src dest chown).
Proof.
  unfold AddFile, checkStateForAddingFile, addFileCommitted. keeps_auto.
Qed.

Lemma keeps_volumes_walkFolder (i : ptr) (src dest chown : string)
    (entries : list WalkEntry) :
  keeps volumes (walkFolder sys i src dest chown entries).
Proof.
  induction entries as [| e entries IH]; cbn; keeps_auto;
    apply keeps_volumes_AddFile.
Qed.

Lemma keeps_volumes_AddSidecar (i : ptr) (sidecar : option ptr) :
  keeps volumes (AddSidecar i sidecar).
Proof. unfold AddSidecar. keeps_auto. Qed.

Lemma keeps_volumes_StartWithoutWait (i : ptr) :
  keeps volumes (StartWithoutWait sys i).
Proof.
  unfold StartWithoutWait, startCommitted, checkSidecarStartable,
    addOtelCollectorSidecar, addBitTwisterSidecar.
  keeps_auto;
    first [ apply keeps_volumes_AddSidecar
          | apply keeps_volumes_setStateForSidecars
          | apply evolves_deployResourcesOf; typeclasses eauto
          | apply evolves_deployPodOf; typeclasses eauto
          | apply evolves_applyFunctionToInstances; order_side; intros ?;
            first [ apply evolves_deployResourcesOf; typeclasses eauto
                  | keeps_auto ] ].
Qed.

(** Every mutator but the two that add a volume. *)
Lemma keeps_volumes_runMutator (m : Mutator) (i : ptr) :
  (forall p s, m ≠ MAddVolume p s) ->
  (forall p s o, m ≠ MAddVolumeWithOwner p s o) ->
  keeps volumes (runMutator sys m i).
Proof.
  intros H1 H2. destruct m; cbn [runMutator];
    try (exfalso; eapply H1; reflexivity);
    try (exfalso; eapply H2; reflexivity);
    try apply keeps_volumes_AddFile.
  all: unfold SetCommand, SetArgs, AddPortTCP, AddPortUDP, AddFolder, AddFileBytes,
         SetMemory, SetCPU, SetEnvironmentVariable, AddPolicyRule, SetLivenessProbe,
         SetReadinessProbe, SetStartupProbe, SetOtelCollectorVersion, SetOtelEndpoint,
         SetPrometheusEndpoint, SetJaegerEndpoint, SetOtlpExporter, SetJaegerExporter,
         SetPrometheusExporter, SetPrometheusRemoteWriteExporter, SetPrivileged,
         AddCapability, AddCapabilities, EnableBitTwister, DisableBitTwister,
         validateStateForObsy, checkStateForProbe, checkStateForAddingFile.
  all: keeps_auto.
  all: first [ apply keeps_volumes_walkFolder | apply keeps_volumes_AddFile
             | apply keeps_volumes_addEachCapability ].
Qed.

End VolumesFrame.

(** ** At most one volume *)

Lemma keeps_same_volumes {A} (m : M A) (w : World) (p : ptr) (x : Instance) :
  keeps volumes m ->
  heap w !! p = Some x ->
  length (volumes x) <= 1 ->
  exists x', heap (fst (m w)) !! p = Some x' /\ length (volumes x') <= 1.
Proof.
  intros Hk Hp Hlen. destruct (Hk w p x Hp) as (x' & Hx' & Ev).
  exists x'. split; [assumption |].
  exact (eq_ind (volumes x) (fun v => length v <= 1) Hlen _ Ev).
Qed.

Lemma AddVolumeWithOwner_bound (i : ptr) (path size : string) (owner : Z)
    (w : World) (p : ptr) (x : Instance) :
  heap w !! p = Some x ->
  length (volumes x) <= 1 ->
  exists x', heap (fst (AddVolumeWithOwner i path size owner w)) !! p = Some x'
             /\ length (volumes x') <= 1.
Proof.
  intros Hp Hlen. unfold AddVolumeWithOwner.
  destruct (heap w !! i) as [this |] eqn:Hi.
  2:{ rewrite (bind_load_nil _ _ _ Hi). cbn. eauto. }
  rewrite (bind_load _ _ _ _ Hi).
  destruct (IsInState this [Preparing; Committed]).
  2:{ rewrite bind_check_false. cbn. eauto. }
  rewrite bind_check_true.
  destruct (volumes this) as [| v vs] eqn:Hv; cbn [length Nat.ltb Nat.leb negb].
  2:{ rewrite bind_check_false. cbn. eauto. }
  rewrite bind_check_true, (update_at _ _ _ _ Hi). cbn.
  destruct (decide (i = p)) as [-> | Hne].
  - rewrite lookup_insert_eq. eexists. split; [reflexivity |].
    cbn. rewrite Hv. cbn. lia.
  - rewrite lookup_insert_ne by assumption. eauto.
Qed.

Lemma AddVolume_bound (i : ptr) (path size : string)
    (w : World) (p : ptr) (x : Instance) :
  heap w !! p = Some x ->
  length (volumes x) <= 1 ->
  exists x', heap (fst (AddVolume i path size w)) !! p = Some x'
             /\ length (volumes x') <= 1.
Proof.
  intros Hp Hlen. unfold AddVolume.
  destruct (heap w !! i) as [this |] eqn:Hi.
  2:{ rewrite (bind_load_nil _ _ _ Hi). cbn. eauto. }
  rewrite (bind_load _ _ _ _ Hi).
  destruct (negb (0 <? length (volumes this))%nat).
  2:{ rewrite bind_check_false. cbn. eauto. }
  rewrite bind_check_true. unfold discard.
  pose proof (AddVolumeWithOwner_bound i path size 0 w p x Hp Hlen) as H.
  destruct (AddVolumeWithOwner i path size 0 w) as [w' [a | e |]]; exact H.
Qed.

Lemma every_operation_bounds_volumes (sys : Collaborators) (op : Operation)
    (w : World) (p : ptr) (x : Instance) :
  heap w !! p = Some x ->
  length (volumes x) <= 1 ->
  exists x', heap (worldAfter sys op w) !! p = Some x'
             /\ length (volumes x') <= 1.
Proof.
  intros Hp Hlen. destruct op; cbn [worldAfter].
  - destruct m;
      try (apply (keeps_same_volumes _ w p x);
           [apply keeps_volumes_runMutator; intros; discriminate | assumption
           | assumption]).
    + apply (AddVolume_bound i path size w p x); assumption.
    + apply (AddVolumeWithOwner_bound i path size owner w p x); assumption.
  - apply (keeps_same_volumes _ w p x); [| assumption | assumption].
    unfold Commit. keeps_auto.
  - apply (keeps_same_volumes _ w p x); [apply keeps_volumes_AddSidecar | assumption | assumption].
  - apply (keeps_same_volumes _ w p x);
      [apply keeps_volumes_StartWithoutWait | assumption | assumption].
  - apply (keeps_same_volumes _ w p x);
      [apply keeps_volumes_StartWithoutWait | assumption | assumption].
  - apply (keeps_same_volumes _ w p x); [| assumption | assumption].
    unfold Start. keeps_auto;
      [apply keeps_volumes_StartWithoutWait
      | apply evolves_WaitInstanceIsRunning; typeclasses eauto].
  - apply (keeps_same_volumes _ w p x);
      [apply evolves_IsRunning; typeclasses eauto | assumption | assumption].
  - apply (keeps_same_volumes _ w p x);
      [apply evolves_WaitInstanceIsRunning; typeclasses eauto | assumption | assumption].
  - apply (keeps_same_volumes _ w p x); [| assumption | assumption].
    unfold Stop, destroyPodOf. keeps_auto. apply keeps_volumes_setStateForSidecars.
  - apply (keeps_same_volumes _ w p x);
      [apply evolves_ExecuteCommand; typeclasses eauto | assumption | assumption].
  - apply (keeps_same_volumes _ w p x); [| assumption | assumption].
    unfold ReadFileFromRunningInstance. keeps_auto.
    apply evolves_ExecuteCommand; typeclasses eauto.
  - apply (keeps_same_volumes _ w p x); [| assumption | assumption].
    unfold GetFileBytes, ReadFileFromRunningInstance. keeps_auto.
    apply evolves_ExecuteCommand; typeclasses eauto.
  - apply (keeps_same_volumes _ w p x); [| assumption | assumption].
    unfold PortForwardTCP. keeps_auto.
    apply evolves_forwardAttempts; typeclasses eauto.
  - apply (keeps_same_volumes _ w p x); [| assumption | assumption].
    unfold SetBandwidthLimit. keeps_auto.
  - apply (keeps_same_volumes _ w p x); [| assumption | assumption].
    unfold SetLatencyAndJitter. keeps_auto.
  - apply (keeps_same_volumes _ w p x); [| assumption | assumption].
    unfold SetPacketLoss. keeps_auto.
Qed.

(** C9 (as amended).  With a volume already on the instance, [AddVolume]
    fails with the maximum-volumes-exceeded error in every state, and
    [AddVolumeWithOwner] fails with it in Preparing and Committed and with
    its state-violation error in any other state; either way nothing is
    changed.  And an instance that holds at most one volume still holds at
    most one after any operation on any instance. *)
Theorem at_most_one_volume
    (sys : Collaborators) (w : World) (i : ptr) (this : Instance)
    (path size : string) (owner : Z) (op : Operation) :
  heap w !! i = Some this ->
  (volumes this ≠ [] ->
     AddVolume i path size w
     = (w, Fail (E ErrMaximumVolumesExceeded [PStr (name this)]))
     /\ AddVolumeWithOwner i path size owner w
        = (w, Fail (if IsInState this [Preparing; Committed]
                    then E ErrMaximumVolumesExceeded [PStr (name this)]
                    else E ErrAddingVolumeNotAllowed
                           [PStr (State_String (state this))])))
  /\ (length (volumes this) <= 1 ->
      exists x', heap (worldAfter sys op w) !! i = Some x'
                 /\ length (volumes x') <= 1).
Proof.
  intros Hi. split.
  - intros Hne. destruct (volumes this) as [| v vs] eqn:Hv; [congruence |].
    split.
    + unfold AddVolume. rewrite (bind_load _ _ _ _ Hi), Hv. reflexivity.
    + unfold AddVolumeWithOwner. rewrite (bind_load _ _ _ _ Hi).
      destruct (IsInState this [Preparing; Committed]).
      * rewrite bind_check_true, Hv. reflexivity.
      * rewrite bind_check_false. reflexivity.
  - intros Hlen. apply (every_operation_bounds_volumes sys op w i this); assumption.
Qed.

Lemma at_most_one_volume_witness :
  (AddVolume 0%nat "/more" "1Gi" (oneInstance webStartedWithVolume)
   = (oneInstance webStartedWithVolume,
      Fail (E ErrMaximumVolumesExceeded [PStr "web"]))
   /\ AddVolumeWithOwner 0%nat "/more" "1Gi" 0 (oneInstance webStartedWithVolume)
      = (oneInstance webStartedWithVolume,
         Fail (E ErrAddingVolumeNotAllowed [PStr "Started"])))
  /\ (exists x', heap (worldAfter quietSys (OStop 0%nat)
                         (oneInstance webStartedWithVolume)) !! 0%nat = Some x'
                 /\ length (volumes x') <= 1).
Proof.
  destruct (at_most_one_volume quietSys (oneInstance webStartedWithVolume) 0%nat
              webStartedWithVolume "/more" "1Gi" 0 (OStop 0%nat) eq_refl)
    as [Hfull Hbound].
  split; [apply Hfull; discriminate | apply Hbound; cbn; lia].
Defined.

(** C9 (as stated) fails for [AddVolumeWithOwner] outside {Preparing,
    Committed}: on a started instance that already has a volume the state
    guard comes first, and the error is the state violation, not the
    maximum-volumes-exceeded error. *)
Lemma AddVolumeWithOwner_started_reports_state_not_maximum :
  state webStartedWithVolume = Started
  /\ volumes webStartedWithVolume = [dataVolume]
  /\ AddVolumeWithOwner 0%nat "/more" "1Gi" 0 (oneInstance webStartedWithVolume)
     = (oneInstance webStartedWithVolume,
        Fail (E ErrAddingVolumeNotAllowed [PStr "Started"]))
  /\ E ErrAddingVolumeNotAllowed [PStr "Started"]
     ≠ E ErrMaximumVolumesExceeded [PStr (name webStartedWithVolume)].
Proof. repeat split. discriminate. Qed.

(** ** Attaching a sidecar *)

Lemma IsInState_PC_spec (x : Instance) :
  IsInState x [Preparing; Committed] = true
  <-> state x = Preparing \/ state x = Committed.
Proof.
  split; [| apply IsInState_PC_true].
  intros H. destruct (decide (state x = Preparing)) as [| H1]; [by left |].
  destruct (decide (state x = Committed)) as [| H2]; [by right |].
  rewrite (IsInState_PC_false x H1 H2) in H. discriminate.
Qed.

(** C4.  [AddSidecar] fails, changing nothing, when the parent is outside
    {Preparing, Committed}, when the candidate is nil, is the parent
    itself, is not Committed or is already a sidecar, or when the parent is
    a sidecar.  In every other case it succeeds: the candidate is appended
    at the end of the parent's sidecar list, its sidecar flag is set and its
    parent reference points to the parent; nothing else changes. *)
Theorem AddSidecar_rejects_or_appends
    (w : World) (i : ptr) (this : Instance) (sidecar : option ptr) :
  heap w !! i = Some this ->
  (forall s, sidecar = Some s -> is_Some (heap w !! s)) ->
  (sidecarRejected w i this sidecar ->
     exists e, AddSidecar i sidecar w = (w, Fail e))
  /\ (~ sidecarRejected w i this sidecar ->
      exists s sc w',
        sidecar = Some s /\ heap w !! s = Some sc
        /\ AddSidecar i sidecar w = (w', Ok tt)
        /\ w' = set_heap (<[s := set_parentInstance (Some i) (set_isSidecar true sc)]>
                            (<[i := set_sidecars (sidecars this ++ [s]) this]> (heap w))) w
        /\ sidecars <$> heap w' !! i = Some (sidecars this ++ [s])
        /\ isSidecar <$> heap w' !! s = Some true
        /\ parentInstance <$> heap w' !! s = Some (Some i)).
Proof.
  intros Hi Hwf. unfold AddSidecar. rewrite (bind_load _ _ _ _ Hi).
  destruct (IsInState this [Preparing; Committed]) eqn:Hst.
  2:{ rewrite bind_check_false. split; [eauto |].
      intros Hn. exfalso. apply Hn. left. intros Hpc.
      apply IsInState_PC_spec in Hpc. congruence. }
  rewrite bind_check_true. apply IsInState_PC_spec in Hst.
  destruct sidecar as [s |].
  2:{ split; [eauto |]. intros Hn. exfalso. apply Hn. right. by left. }
  destruct (decide (s = i)) as [-> | Hne].
  { rewrite bool_decide_eq_true_2 by reflexivity. cbn [negb].
    rewrite bind_check_false. split; [eauto |].
    intros Hn. exfalso. apply Hn. do 2 right. by left. }
  rewrite bool_decide_eq_false_2 by assumption. cbn [negb].
  rewrite bind_check_true.
  destruct (Hwf s eq_refl) as [sc Hs]. rewrite (bind_load _ _ _ _ Hs).
  destruct (decide (state sc = Committed)) as [Hc | Hc].
  2:{ rewrite bool_decide_eq_false_2 by assumption. rewrite bind_check_false.
      split; [eauto |]. intros Hn. exfalso. apply Hn. do 4 right.
      exists s, sc. eauto. }
  rewrite bool_decide_eq_true_2 by assumption. rewrite bind_check_true.
  destruct (isSidecar this) eqn:Hps; cbn [negb].
  { rewrite bind_check_false. split; [eauto |].
    intros Hn. exfalso. apply Hn. do 3 right. by left. }
  rewrite bind_check_true.
  destruct (isSidecar sc) eqn:Hss; cbn [negb].
  { rewrite bind_check_false. split; [eauto |].
    intros Hn. exfalso. apply Hn. do 4 right. exists s, sc. eauto. }
  rewrite bind_check_true. split.
  { intros [Hr | [Hr | [Hr | [Hr | (s' & sc' & Hr & Hl' & Hr')]]]].
    - tauto.
    - discriminate.
    - congruence.
    - congruence.
    - assert (s' = s) as -> by congruence.
      assert (sc' = sc) as -> by congruence.
      destruct Hr'; congruence. }
  intros _. exists s, sc. eexists. split; [reflexivity |]. split; [assumption |].
  rewrite (bind_update _ _ _ _ _ Hi).
  assert (heap (set_heap (<[i := set_sidecars (sidecars this ++ [s]) this]> (heap w)) w)
            !! s = Some sc) as Hs1.
  { cbn. rewrite lookup_insert_ne by congruence. assumption. }
  rewrite (bind_update _ _ _ _ _ Hs1). cbv beta.
  match goal with |- update _ _ ?w1 = _ /\ _ =>
    assert (heap w1 !! s = Some (set_isSidecar true sc)) as Hs2
      by (cbn; apply lookup_insert_eq);
    rewrite (update_at _ _ _ _ Hs2)
  end.
  cbn. rewrite insert_insert_eq.
  split; [reflexivity |]. split; [reflexivity |]. cbn.
  rewrite lookup_insert_ne by congruence.
  rewrite !lookup_insert_eq. cbn. repeat split.
Qed.

Lemma AddSidecar_appends_witness :
  exists s sc w',
    Some 1%nat = Some s
    /\ heap (twoInstances webCommitted sideCommitted) !! s = Some sc
    /\ AddSidecar 0%nat (Some 1%nat) (twoInstances webCommitted sideCommitted)
       = (w', Ok tt)
    /\ w' = set_heap (<[s := set_parentInstance (Some 0%nat) (set_isSidecar true sc)]>
                        (<[0%nat := set_sidecars (sidecars webCommitted ++ [s])
                                      webCommitted]>
                           (heap (twoInstances webCommitted sideCommitted))))
                     (twoInstances webCommitted sideCommitted)
    /\ sidecars <$> heap w' !! 0%nat = Some (sidecars webCommitted ++ [s])
    /\ isSidecar <$> heap w' !! s = Some true
    /\ parentInstance <$> heap w' !! s = Some (Some 0%nat).
Proof.
  apply (AddSidecar_rejects_or_appends
           (twoInstances webCommitted sideCommitted) 0%nat webCommitted (Some 1%nat)).
  - reflexivity.
  - intros s [= <-]. exists sideCommitted. reflexivity.
  - intros [H | [H | [H | [H | (s & sc & [= <-] & Hl & H)]]]].
    + apply H. right. reflexivity.
    + discriminate H.
    + discriminate H.
    + discriminate H.
    + assert (Some sc = Some sideCommitted) as [= ->]
        by (rewrite <- Hl; reflexivity).
      destruct H as [H | H]; [apply H; reflexivity | discriminate H].
Defined.

(** ** Inversion of successful runs *)

Lemma bind_Ok_inv {A B} (m : M A) (k : A -> M B) (w w' : World) (b : B) :
  bind m k w = (w', Ok b) ->
  exists w1 a, m w = (w1, Ok a) /\ k a w1 = (w', Ok b).
Proof.
  unfold bind. destruct (m w) as [w1 [a | e |]]; intros H;
    [eauto | discriminate | discriminate].
Qed.

Lemma bind_Fail {A B} (m : M A) (k : A -> M B) (w w1 : World) (e : Error) :
  m w = (w1, Fail e) -> bind m k w = (w1, Fail e).
Proof. intros H. unfold bind. rewrite H. reflexivity. Qed.

Lemma bind_Ok {A B} (m : M A) (k : A -> M B) (w w1 : World) (a : A) :
  m w = (w1, Ok a) -> bind m k w = k a w1.
Proof. intros H. unfold bind. rewrite H. reflexivity. Qed.

Lemma wrapWith_Ok_inv {A} (outer : Error) (m : M A) (w w' : World) (a : A) :
  wrapWith outer m w = (w', Ok a) -> m w = (w', Ok a).
Proof.
  unfold wrapWith. destruct (m w) as [w1 [a1 | e |]]; intros H;
    [assumption | discriminate | discriminate].
Qed.

Lemma check_Ok_inv (b : bool) (e : Error) (w w' : World) (u : unit) :
  check b e w = (w', Ok u) -> b = true /\ w' = w.
Proof.
  destruct b; unfold check, ret, fail; intros H; [| discriminate].
  injection H as <-. split; reflexivity.
Qed.

Lemma load_Ok_inv (p : ptr) (w w' : World) (x : Instance) :
  load p w = (w', Ok x) -> w' = w /\ heap w !! p = Some x.
Proof.
  unfold load. destruct (heap w !! p); intros H; [| discriminate].
  injection H as <- <-. split; reflexivity.
Qed.

Lemma update_Ok_inv (p : ptr) (g : Instance -> Instance) (w w' : World) (u : unit) :
  update p g w = (w', Ok u) ->
  exists x, heap w !! p = Some x /\ w' = set_heap (<[p := g x]> (heap w)) w.
Proof.
  unfold update. destruct (heap w !! p) as [x |]; intros H; [| discriminate].
  exists x. injection H as <-. split; reflexivity.
Qed.

(** ** Start and Stop: the sidecars *)

Lemma setStateForSidecars_Ok (l : list ptr) (st : InstanceState) (w w' : World) :
  setStateForSidecars l st w = (w', Ok tt) ->
  (forall p, p ∈ l ->
     exists x, heap w !! p = Some x /\ heap w' !! p = Some (set_state st x))
  /\ (forall p, p ∉ l -> heap w' !! p = heap w !! p).
Proof.
  revert w. induction l as [| q l IH]; intros w H.
  - cbn in H. unfold ret in H. injection H as <-.
    split; [intros p Hp; by apply elem_of_nil in Hp | reflexivity].
  - cbn in H. apply bind_Ok_inv in H as (w1 & [] & Hu & Hrest).
    apply update_Ok_inv in Hu as (x & Hx & ->).
    destruct (IH _ Hrest) as [Hin Hout]. split.
    + intros p Hp. destruct (decide (p ∈ l)) as [Hl | Hl].
      * destruct (Hin p Hl) as (y & Hy & Hy'). cbn in Hy.
        destruct (decide (q = p)) as [-> | Hne].
        -- rewrite lookup_insert_eq in Hy. exists x. split; [assumption |].
           rewrite Hy'. injection Hy as <-. reflexivity.
        -- rewrite lookup_insert_ne in Hy by assumption. eauto.
      * apply elem_of_cons in Hp as [-> | Hp]; [| contradiction].
        exists x. split; [assumption |]. rewrite (Hout q Hl). cbn.
        apply lookup_insert_eq.
    + intros p Hp. apply not_elem_of_cons in Hp as [Hne Hl].
      rewrite (Hout p Hl). cbn. apply lookup_insert_ne. congruence.
Qed.

(** When every sidecar is there, [setStateForSidecars] ends well. *)
Lemma setStateForSidecars_total (l : list ptr) (st : InstanceState) (w : World) :
  (forall p, p ∈ l -> is_Some (heap w !! p)) ->
  exists w', setStateForSidecars l st w = (w', Ok tt).
Proof.
  revert w. induction l as [| q l IH]; intros w Hall; cbn.
  - eexists. reflexivity.
  - destruct (Hall q) as [x Hx]; [left |].
    rewrite (bind_update _ _ _ _ _ Hx). apply IH.
    intros p Hp. cbn. destruct (decide (q = p)) as [-> | Hne].
    + rewrite lookup_insert_eq. eauto.
    + rewrite lookup_insert_ne by assumption. apply Hall. by right.
Qed.

Lemma IsInState_CS_false (x : Instance) :
  state x ≠ Committed -> state x ≠ Stopped ->
  IsInState x [Committed; Stopped] = false.
Proof.
  intros H1 H2. unfold IsInState. cbn.
  rewrite !bool_decide_eq_false_2 by assumption. reflexivity.
Qed.

(** The check of the sidecars writes nothing. *)
Lemma precheck_world (l : list ptr) (w w1 : World) (r : Res unit) :
  applyFunctionToInstances l checkSidecarStartable w = (w1, r) -> w1 = w.
Proof.
  induction l as [| p l IH]; cbn.
  - unfold ret. intros H. injection H as <- _. reflexivity.
  - destruct (heap w !! p) as [x |] eqn:Hp.
    + rewrite (bind_load _ _ _ _ Hp). unfold checkSidecarStartable at 1.
      destruct (IsInState x [Committed; Stopped]).
      * rewrite bind_check_true. exact IH.
      * rewrite bind_check_false. intros H. injection H as <- _. reflexivity.
    + rewrite (bind_load_nil _ _ _ Hp). intros H. injection H as <- _. reflexivity.
Qed.

Lemma precheck_fails (l : list ptr) (w : World) :
  (forall s, s ∈ l -> is_Some (heap w !! s)) ->
  (exists s sc, s ∈ l /\ heap w !! s = Some sc
                /\ state sc ≠ Committed /\ state sc ≠ Stopped) ->
  exists e, applyFunctionToInstances l checkSidecarStartable w = (w, Fail e).
Proof.
  induction l as [| p l IH]; intros Hall (s & sc & Hin & Hs & H1 & H2).
  - by apply elem_of_nil in Hin.
  - cbn. destruct (Hall p) as [x Hp]; [left |].
    rewrite (bind_load _ _ _ _ Hp). unfold checkSidecarStartable at 1.
    destruct (IsInState x [Committed; Stopped]) eqn:Hx.
    + rewrite bind_check_true. apply IH.
      * intros q Hq. apply Hall. by right.
      * apply elem_of_cons in Hin as [-> | Hin].
        -- assert (x = sc) as -> by congruence.
           rewrite (IsInState_CS_false sc H1 H2) in Hx. discriminate.
        -- exists s, sc. eauto.
    + rewrite bind_check_false. eauto.
Qed.

Lemma sidecars_grow_AddSidecar (i : ptr) (s : option ptr) :
  evolves prefix sidecars (AddSidecar i s).
Proof. unfold AddSidecar. keeps_auto. by apply prefix_app_r. Qed.

Lemma sidecars_grow_startCommitted (sys : Collaborators) (i : ptr) (this : Instance) :
  evolves prefix sidecars (startCommitted sys i this).
Proof.
  unfold startCommitted, addOtelCollectorSidecar, addBitTwisterSidecar.
  keeps_auto;
    first [ apply sidecars_grow_AddSidecar
          | apply evolves_deployResourcesOf; typeclasses eauto
          | apply evolves_applyFunctionToInstances; order_side; intros ?;
            apply evolves_deployResourcesOf; typeclasses eauto ].
Qed.

Lemma deployPodOf_heap (sys : Collaborators) (x : Instance) (w w' : World)
    (r : Res unit) :
  deployPodOf sys x w = (w', r) -> heap w' = heap w.
Proof.
  unfold deployPodOf, bind, call, orReturn. cbn.
  destruct (deployPod sys (log w) x); cbn; intros [= <- _]; reflexivity.
Qed.

Lemma destroyPodOf_heap (sys : Collaborators) (x : Instance) (w w' : World)
    (r : Res unit) :
  destroyPodOf sys x w = (w', r) -> heap w' = heap w.
Proof.
  unfold destroyPodOf, bind, call, orReturn. cbn.
  destruct (destroyPod sys (log w) x); cbn; intros [= <- _]; reflexivity.
Qed.

Lemma StartWithoutWait_Ok (sys : Collaborators) (w w' : World) (i : ptr)
    (this : Instance) :
  heap w !! i = Some this ->
  StartWithoutWait sys i w = (w', Ok tt) ->
  exists cur, heap w' !! i = Some cur /\ state cur = Started
              /\ sidecars this `prefix_of` sidecars cur
              /\ forall s, s ∈ sidecars cur -> state <$> heap w' !! s = Some Started.
Proof.
  intros Hi H. unfold StartWithoutWait in H. rewrite (bind_load _ _ _ _ Hi) in H.
  apply bind_Ok_inv in H as (w1 & [] & Hc & H). apply check_Ok_inv in Hc as [_ ->].
  apply bind_Ok_inv in H as (w1 & [] & Hpre & H). apply precheck_world in Hpre as ->.
  apply bind_Ok_inv in H as (w1 & [] & Hc & H). apply check_Ok_inv in Hc as [_ ->].
  apply bind_Ok_inv in H as (w2 & [] & Hblock & H).
  assert (relField prefix sidecars w w2) as Hgrow.
  { destruct (bool_decide (state this = Committed)).
    - pose proof (sidecars_grow_startCommitted sys i this w) as Hg.
      rewrite Hblock in Hg. exact Hg.
    - unfold ret in Hblock. injection Hblock as <-. apply relField_refl.
      typeclasses eauto. }
  destruct (Hgrow i this Hi) as (cur0 & Hcur0 & Hprefix).
  apply bind_Ok_inv in H as (w3 & cur & Hload & H).
  apply load_Ok_inv in Hload as [-> Hcur].
  assert (cur0 = cur) as -> by congruence.
  apply bind_Ok_inv in H as (w3 & [] & Hpod & H).
  apply wrapWith_Ok_inv, deployPodOf_heap in Hpod.
  apply bind_Ok_inv in H as (w4 & [] & Hup & H).
  apply update_Ok_inv in Hup as (x & Hx & ->).
  rewrite Hpod in Hx. assert (x = cur) as -> by congruence.
  apply setStateForSidecars_Ok in H as [Hin Hout].
  assert (exists cur', heap w' !! i = Some cur' /\ state cur' = Started
                       /\ sidecars cur' = sidecars cur) as (cur' & Hi' & Hs' & Hsc').
  { destruct (decide (i ∈ sidecars cur)) as [Hmem | Hmem].
    - destruct (Hin i Hmem) as (y & Hy & Hy'). cbn in Hy.
      rewrite lookup_insert_eq in Hy. injection Hy as <-.
      eexists. split; [exact Hy' |]. split; reflexivity.
    - rewrite (Hout i Hmem). cbn. rewrite lookup_insert_eq.
      eexists. split; [reflexivity |]. split; reflexivity. }
  exists cur'. split; [assumption |]. split; [assumption |].
  split; [rewrite Hsc'; assumption |].
  intros s Hs. rewrite Hsc' in Hs. destruct (Hin s Hs) as (y & _ & Hy').
  rewrite Hy'. reflexivity.
Qed.

Lemma Stop_Ok (sys : Collaborators) (w w' : World) (i : ptr) (this : Instance) :
  heap w !! i = Some this ->
  Stop sys i w = (w', Ok tt) ->
  exists cur, heap w' !! i = Some cur /\ state cur = Stopped
              /\ sidecars cur = sidecars this
              /\ forall s, s ∈ sidecars this -> state <$> heap w' !! s = Some Stopped.
Proof.
  intros Hi H. unfold Stop in H. rewrite (bind_load _ _ _ _ Hi) in H.
  apply bind_Ok_inv in H as (w1 & [] & Hc & H). apply check_Ok_inv in Hc as [_ ->].
  apply bind_Ok_inv in H as (w3 & [] & Hpod & H).
  apply wrapWith_Ok_inv, destroyPodOf_heap in Hpod.
  apply bind_Ok_inv in H as (w4 & [] & Hup & H).
  apply update_Ok_inv in Hup as (x & Hx & ->).
  rewrite Hpod in Hx. assert (x = this) as -> by congruence.
  apply setStateForSidecars_Ok in H as [Hin Hout].
  assert (exists cur', heap w' !! i = Some cur' /\ state cur' = Stopped
                       /\ sidecars cur' = sidecars this) as (cur' & Hi' & Hs' & Hsc').
  { destruct (decide (i ∈ sidecars this)) as [Hmem | Hmem].
    - destruct (Hin i Hmem) as (y & Hy & Hy'). cbn in Hy.
      rewrite lookup_insert_eq in Hy. injection Hy as <-.
      eexists. split; [exact Hy' |]. split; reflexivity.
    - rewrite (Hout i Hmem). cbn. rewrite lookup_insert_eq.
      eexists. split; [reflexivity |]. split; reflexivity. }
  exists cur'. split; [assumption |]. split; [assumption |].
  split; [assumption |].
  intros s Hs. destruct (Hin s Hs) as (y & _ & Hy'). rewrite Hy'. reflexivity.
Qed.

(** [Start] is [StartWithoutWait] followed by the wait, which writes to no
    instance. *)
Lemma Start_Ok_inv (sys : Collaborators) (w w' : World) (i : ptr) :
  Start sys i w = (w', Ok tt) ->
  exists w1, StartWithoutWait sys i w = (w1, Ok tt)
             /\ forall p x, heap w1 !! p = Some x -> heap w' !! p = Some x.
Proof.
  intros H. unfold Start in H.
  apply bind_Ok_inv in H as (w1 & [] & Hs & H). exists w1. split; [assumption |].
  apply bind_Ok_inv in H as (w2 & this & Hl & H).
  apply load_Ok_inv in Hl as [-> _]. apply wrapWith_Ok_inv in H.
  intros p x Hp.
  pose proof (evolves_WaitInstanceIsRunning eq (fun y : Instance => y) sys i w1 p x Hp)
    as (x' & Hx' & Heq).
  rewrite H in Hx'. cbn in Hx'. rewrite Hx'. congruence.
Qed.

(** A sidecar cannot be started on its own: the call ends in an error (or
    in a panic, when the heap is broken), never in success, and writes
    nothing. *)
Lemma StartWithoutWait_refuses_sidecar (sys : Collaborators) (w : World) (i : ptr)
    (this : Instance) :
  heap w !! i = Some this ->
  isSidecar this = true ->
  exists r, StartWithoutWait sys i w = (w, r) /\ r ≠ Ok tt.
Proof.
  intros Hi Hs. unfold StartWithoutWait. rewrite (bind_load _ _ _ _ Hi).
  destruct (IsInState this [Committed; Stopped]).
  2:{ rewrite bind_check_false. eexists. split; [reflexivity | discriminate]. }
  rewrite bind_check_true.
  destruct (applyFunctionToInstances (sidecars this) checkSidecarStartable w)
    as [w1 r] eqn:Hpre.
  pose proof (precheck_world _ _ _ _ Hpre) as ->.
  destruct r as [[] | e |].
  - rewrite (bind_Ok _ _ _ _ _ Hpre), Hs. cbn [negb]. rewrite bind_check_false.
    eexists. split; [reflexivity | discriminate].
  - rewrite (bind_Fail _ _ _ _ _ Hpre). eexists. split; [reflexivity | discriminate].
  - unfold bind. rewrite Hpre. eexists. split; [reflexivity | discriminate].
Qed.

Lemma precheck_passes (l : list ptr) (w : World) :
  (forall s, s ∈ l ->
     exists sc, heap w !! s = Some sc /\ IsInState sc [Committed; Stopped] = true) ->
  applyFunctionToInstances l checkSidecarStartable w = (w, Ok tt).
Proof.
  induction l as [| p l IH]; intros Hall; cbn; [reflexivity |].
  destruct (Hall p) as (sc & Hp & Hok); [left |].
  rewrite (bind_load _ _ _ _ Hp). unfold checkSidecarStartable at 1.
  rewrite Hok, bind_check_true. apply IH. intros s Hs. apply Hall. by right.
Qed.

(** The calls do succeed when the collaborators do: a stopped parent whose
    sidecars are startable is restarted, a started one is stopped. *)
Lemma StartWithoutWait_of_stopped_succeeds (sys : Collaborators) (w : World)
    (i : ptr) (this : Instance) :
  heap w !! i = Some this ->
  state this = Stopped ->
  isSidecar this = false ->
  (forall s, s ∈ sidecars this ->
     exists sc, heap w !! s = Some sc /\ IsInState sc [Committed; Stopped] = true) ->
  deployPod sys (log w) this = None ->
  exists w', StartWithoutWait sys i w = (w', Ok tt).
Proof.
  intros Hi Hst Hns Hall Hpod. unfold StartWithoutWait.
  rewrite (bind_load _ _ _ _ Hi).
  assert (IsInState this [Committed; Stopped] = true) as ->
    by (unfold IsInState; rewrite Hst; reflexivity).
  rewrite bind_check_true, (bind_Ok _ _ _ _ _ (precheck_passes _ _ Hall)), Hns.
  cbn [negb]. rewrite bind_check_true, Hst. cbn [bool_decide decide_rel].
  rewrite bool_decide_eq_false_2 by discriminate.
  rewrite bind_ret, (bind_load _ _ _ _ Hi).
  unfold bind at 1. unfold wrapWith, deployPodOf, bind at 1, call, orReturn.
  rewrite Hpod. cbn.
  match goal with |- context [bind (update i ?g) ?k ?w1] =>
    assert (heap w1 !! i = Some this) as Hi1 by exact Hi;
    rewrite (bind_update i g this k w1 Hi1)
  end.
  apply setStateForSidecars_total. intros s Hs. cbn.
  destruct (decide (i = s)) as [-> | Hne].
  - rewrite lookup_insert_eq. eauto.
  - rewrite lookup_insert_ne by assumption.
    destruct (Hall s Hs) as (sc & Hsc & _). eauto.
Qed.

Lemma Stop_of_started_succeeds (sys : Collaborators) (w : World) (i : ptr)
    (this : Instance) :
  heap w !! i = Some this ->
  state this = Started ->
  (forall s, s ∈ sidecars this -> is_Some (heap w !! s)) ->
  destroyPod sys (log w) this = None ->
  exists w', Stop sys i w = (w', Ok tt).
Proof.
  intros Hi Hst Hall Hpod. unfold Stop. rewrite (bind_load _ _ _ _ Hi).
  rewrite IsInState_Started, bool_decide_eq_true_2, bind_check_true by assumption.
  unfold bind at 1. unfold wrapWith, destroyPodOf, bind at 1, call, orReturn.
  rewrite Hpod. cbn.
  match goal with |- context [bind (update i ?g) ?k ?w1] =>
    assert (heap w1 !! i = Some this) as Hi1 by exact Hi;
    rewrite (bind_update i g this k w1 Hi1)
  end.
  apply setStateForSidecars_total. intros s Hs. cbn.
  destruct (decide (i = s)) as [-> | Hne].
  - rewrite lookup_insert_eq. eauto.
  - rewrite lookup_insert_ne by assumption. apply Hall, Hs.
Qed.

(** C5.  After a successful [StartWithoutWait] or [Start] the parent is
    Started and so is every sidecar it has (the ones it had before the
    call, and any that the call attached); after a successful [Stop] the
    parent and every sidecar are Stopped.  And when some sidecar is in
    neither Committed nor Stopped, [StartWithoutWait] and [Start] fail
    before anything has been written: the world is the one before the
    call. *)
Theorem start_stop_reach_every_sidecar
    (sys : Collaborators) (w : World) (i : ptr) (this : Instance) :
  heap w !! i = Some this ->
  (forall w',
     StartWithoutWait sys i w = (w', Ok tt) \/ Start sys i w = (w', Ok tt) ->
     exists cur, heap w' !! i = Some cur /\ state cur = Started
                 /\ sidecars this `prefix_of` sidecars cur
                 /\ forall s, s ∈ sidecars cur ->
                      state <$> heap w' !! s = Some Started)
  /\ (forall w',
        Stop sys i w = (w', Ok tt) ->
        exists cur, heap w' !! i = Some cur /\ state cur = Stopped
                    /\ sidecars cur = sidecars this
                    /\ forall s, s ∈ sidecars this ->
                         state <$> heap w' !! s = Some Stopped)
  /\ ((forall s, s ∈ sidecars this -> is_Some (heap w !! s)) ->
      (exists s sc, s ∈ sidecars this /\ heap w !! s = Some sc
                    /\ state sc ≠ Committed /\ state sc ≠ Stopped) ->
      (exists e, StartWithoutWait sys i w = (w, Fail e))
      /\ (exists e, Start sys i w = (w, Fail e))).
Proof.
  intros Hi. split; [| split].
  - intros w' [H | H].
    + exact (StartWithoutWait_Ok sys w w' i this Hi H).
    + apply Start_Ok_inv in H as (w1 & H & Hsame).
      destruct (StartWithoutWait_Ok sys w w1 i this Hi H)
        as (cur & Hcur & Hst & Hpre & Hall).
      exists cur. split; [apply Hsame, Hcur |]. split; [assumption |].
      split; [assumption |]. intros s Hs. specialize (Hall s Hs).
      destruct (heap w1 !! s) as [y |] eqn:Hy; [| discriminate].
      rewrite (Hsame s y Hy). exact Hall.
  - intros w' H. exact (Stop_Ok sys w w' i this Hi H).
  - intros Hall Hbad.
    assert (exists e, StartWithoutWait sys i w = (w, Fail e)) as [e He].
    { unfold StartWithoutWait. rewrite (bind_load _ _ _ _ Hi).
      destruct (IsInState this [Committed; Stopped]).
      - rewrite bind_check_true.
        destruct (precheck_fails (sidecars this) w Hall Hbad) as [e He].
        rewrite (bind_Fail _ _ _ _ _ He). eauto.
      - rewrite bind_check_false. eauto. }
    split; [eauto |]. unfold Start. rewrite (bind_Fail _ _ _ _ _ He). eauto.
Qed.

Lemma start_stop_reach_every_sidecar_witness :
  (exists cur, heap webWithSidecarStarted !! 0%nat = Some cur /\ state cur = Started
               /\ [1%nat] `prefix_of` sidecars cur
               /\ forall s, s ∈ sidecars cur ->
                    state <$> heap webWithSidecarStarted !! s = Some Started)
  /\ (exists cur,
        heap (fst (Stop quietSys 0%nat webWithSidecarStarted)) !! 0%nat = Some cur
        /\ state cur = Stopped
        /\ sidecars cur = [1%nat]
        /\ forall s, s ∈ [1%nat] ->
             state <$> heap (fst (Stop quietSys 0%nat webWithSidecarStarted)) !! s
             = Some Stopped)
  /\ (exists e, StartWithoutWait quietSys 0%nat webWithRunningSidecar
                = (webWithRunningSidecar, Fail e))
  /\ (exists e, Start quietSys 0%nat webWithRunningSidecar
                = (webWithRunningSidecar, Fail e)).
Proof.
  split; [| split].
  - destruct (start_stop_reach_every_sidecar quietSys webWithSidecar 0%nat
                (set_sidecars [1%nat] webCommitted) eq_refl) as (Hstart & _ & _).
    apply (Hstart webWithSidecarStarted). left. reflexivity.
  - destruct (start_stop_reach_every_sidecar quietSys webWithSidecarStarted 0%nat
                (set_state Started (set_sidecars [1%nat] webCommitted)) eq_refl)
      as (_ & Hstop & _).
    apply (Hstop (fst (Stop quietSys 0%nat webWithSidecarStarted))). reflexivity.
  - destruct (start_stop_reach_every_sidecar quietSys webWithRunningSidecar 0%nat
                (set_sidecars [1%nat] webCommitted) eq_refl) as (_ & _ & Hpre).
    apply Hpre.
    + intros s Hs. apply list_elem_of_singleton in Hs as ->. eexists. reflexivity.
    + exists 1%nat. eexists. split; [apply list_elem_of_singleton; reflexivity |].
      split; [reflexivity |]. split; discriminate.
Defined.

(** C2, at the failing input.  "side" is a sidecar of "web", attached by
    [AddSidecar] and brought to Started by the parent's [StartWithoutWait].
    A direct [Stop] on the sidecar is then accepted: [Stop] has no test of
    the sidecar flag.  It returns nil, the sidecar is Stopped, and the
    parent is still Started. *)
Lemma Stop_on_a_started_sidecar_is_accepted :
  isSidecar <$> heap webWithSidecarStarted !! 1%nat = Some true
  /\ state <$> heap webWithSidecarStarted !! 1%nat = Some Started
  /\ snd (Stop quietSys 1%nat webWithSidecarStarted) = Ok tt
  /\ state <$> heap (fst (Stop quietSys 1%nat webWithSidecarStarted)) !! 1%nat
     = Some Stopped
  /\ state <$> heap (fst (Stop quietSys 1%nat webWithSidecarStarted)) !! 0%nat
     = Some Started.
Proof. repeat split. Qed.

(** The other half of C2 holds: any sequence of [StartWithoutWait],
    [StartAsync] or [Start] on a sidecar fails. *)
Lemma Start_refuses_sidecar (sys : Collaborators) (w : World) (i : ptr)
    (this : Instance) :
  heap w !! i = Some this ->
  isSidecar this = true ->
  exists r, Start sys i w = (w, r) /\ r ≠ Ok tt.
Proof.
  intros Hi Hs.
  destruct (StartWithoutWait_refuses_sidecar sys w i this Hi Hs) as (r & Hr & Hne).
  unfold Start, bind. rewrite Hr. destruct r as [[] | e |].
  - contradiction.
  - eexists. split; [reflexivity | discriminate].
  - eexists. split; [reflexivity | discriminate].
Qed.

(** ** Commit and the image cache *)

Lemma cacheKept_refl (w : World) : cacheKept w w.
Proof. intros h n H. exact H. Qed.

Lemma cacheKept_trans (w1 w2 w3 : World) :
  cacheKept w1 w2 -> cacheKept w2 w3 -> cacheKept w1 w3.
Proof. intros H12 H23 h n H. apply H23, H12, H. Qed.

Lemma Commit_cacheKept (sys : Collaborators) (i : ptr) (w : World) :
  cacheKept w (fst (Commit sys i w)).
Proof.
  intros h n Hh.
  unfold Commit, bind, load, check, deref, wrapWith, ask, call, orReturnV, orReturn,
    checkImageHashInCache, updateImageCacheWithHash, update, ret, fail, panic.
  repeat (case_match; simplify_eq/=); try assumption.
  all: rewrite lookup_insert_ne; [assumption | congruence].
Qed.

Lemma commitEach_cacheKept (sys : Collaborators) (l : list ptr) (w : World) :
  cacheKept w (commitEach sys l w).
Proof.
  revert w. induction l as [| p l IH]; intros w; cbn.
  - apply cacheKept_refl.
  - eapply cacheKept_trans; [apply Commit_cacheKept | apply IH].
Qed.

Lemma Commit_changed_Ok (sys : Collaborators) (w w' : World) (i : ptr)
    (x : Instance) (b : BuilderFactory) (h : string) :
  heap w !! i = Some x ->
  builderFactory x = Some b ->
  Changed b = true ->
  GenerateImageHash b = inr h ->
  Commit sys i w = (w', Ok tt) ->
  exists n,
    imageCache w' !! h = Some n
    /\ heap w' !! i = Some (set_state Committed (set_imageName n x))
    /\ match imageCache w !! h with
       | Some n0 => n = n0 /\ log w' = log w ++ [EvGenerateImageHash]
       | None => log w' = log w ++ [EvGenerateImageHash; EvPushBuilderImage n]
       end.
Proof.
  intros Hi Hb Hch Hh.
  unfold Commit, bind, load, check, deref, wrapWith, ask, call, orReturnV, orReturn,
    checkImageHashInCache, updateImageCacheWithHash, update, ret, fail, panic.
  rewrite Hi, Hb, Hch, Hh. cbn.
  intros H. repeat (case_match; simplify_eq/=).
  - match goal with H : <[i:=_]> _ !! i = Some _ |- _ =>
      rewrite lookup_insert_eq in H; simplify_eq end.
    eexists. split; [reflexivity |]. rewrite lookup_insert_eq.
    split; [reflexivity |]. split; reflexivity.
  - match goal with H : <[i:=_]> _ !! i = Some _ |- _ =>
      rewrite lookup_insert_eq in H; simplify_eq end.
    eexists. rewrite !lookup_insert_eq. split; [reflexivity |].
    split; [reflexivity |]. rewrite <- app_assoc. reflexivity.
Qed.

Lemma pushes_app (l l' : list Event) : pushes (l ++ l') = (pushes l + pushes l')%nat.
Proof. unfold pushes. rewrite filter_app, length_app. reflexivity. Qed.

Lemma pushes_hash : pushes [EvGenerateImageHash] = 0%nat.
Proof. reflexivity. Qed.

Lemma pushes_hash_push (n : string) :
  pushes [EvGenerateImageHash; EvPushBuilderImage n] = 1%nat.
Proof. reflexivity. Qed.

Lemma Commit_Ok_Committed (sys : Collaborators) (i : ptr) (w w' : World) :
  Commit sys i w = (w', Ok tt) -> state <$> heap w' !! i = Some Committed.
Proof.
  intros H. unfold Commit in H.
  apply bind_Ok_inv in H as (w1 & this & _ & H).
  apply bind_Ok_inv in H as (w2 & [] & _ & H).
  apply bind_Ok_inv in H as (w3 & bf & _ & H).
  apply bind_Ok_inv in H as (w4 & [] & _ & H).
  apply update_Ok_inv in H as (x & Hx & ->). cbn.
  rewrite lookup_insert_eq. reflexivity.
Qed.

Lemma Commit_unchanged_Ok (sys : Collaborators) (w w' : World) (i : ptr)
    (x : Instance) (b : BuilderFactory) :
  heap w !! i = Some x ->
  builderFactory x = Some b ->
  Changed b = false ->
  Commit sys i w = (w', Ok tt) ->
  heap w' !! i = Some (set_state Committed (set_imageName (ImageNameFrom b) x))
  /\ log w' = log w.
Proof.
  intros Hi Hb Hch.
  unfold Commit, bind, load, check, deref, update, ret, fail, panic.
  rewrite Hi, Hb, Hch. cbn.
  intros H. repeat (case_match; simplify_eq/=).
  match goal with H : <[i:=_]> _ !! i = Some _ |- _ =>
    rewrite lookup_insert_eq in H; simplify_eq end.
  rewrite lookup_insert_eq. split; reflexivity.
Qed.

(** C3.  An instance is committed; then any number of other commits are
    attempted; then a second instance is committed whose build context has
    the same content as the first: the builder gives the same answers (both
    changed or both unchanged, the same hash, the same base image).  Both
    instances get the same image name -- for a changed context it is the
    cache entry of the hash; the first commit pushed at most once and the
    second did not push at all; and every successful commit leaves its
    instance Committed. *)
Theorem same_hash_commits_share_one_image
    (sys : Collaborators) (w0 w1 w3 : World) (i1 i2 : ptr) (x1 x2 : Instance)
    (b1 b2 : BuilderFactory) (h : string) (between : list ptr) :
  heap w0 !! i1 = Some x1 ->
  builderFactory x1 = Some b1 ->
  heap (commitEach sys between w1) !! i2 = Some x2 ->
  builderFactory x2 = Some b2 ->
  GenerateImageHash b1 = inr h ->
  GenerateImageHash b2 = inr h ->
  Changed b1 = Changed b2 ->
  ImageNameFrom b1 = ImageNameFrom b2 ->
  Commit sys i1 w0 = (w1, Ok tt) ->
  Commit sys i2 (commitEach sys between w1) = (w3, Ok tt) ->
  (exists n,
     imageName <$> heap w1 !! i1 = Some n
     /\ imageName <$> heap w3 !! i2 = Some n
     /\ (Changed b1 = true -> imageCache w3 !! h = Some n)
     /\ state <$> heap w1 !! i1 = Some Committed
     /\ state <$> heap w3 !! i2 = Some Committed
     /\ pushes (log w1) <= pushes (log w0) + 1
     /\ pushes (log w3) = pushes (log (commitEach sys between w1)))
  /\ (forall i w w', Commit sys i w = (w', Ok tt) ->
        state <$> heap w' !! i = Some Committed).
Proof.
  intros Hi1 Hb1 Hi2 Hb2 Hh1 Hh2 Hsame Hfrom Hcommit1 Hcommit2.
  split; [| intros i w w'; apply Commit_Ok_Committed].
  destruct (Changed b1) eqn:Hc1; symmetry in Hsame.
  - destruct (Commit_changed_Ok sys w0 w1 i1 x1 b1 h Hi1 Hb1 Hc1 Hh1 Hcommit1)
      as (n & Hcache1 & Hheap1 & Hlog1).
    pose proof (commitEach_cacheKept sys between w1 h n Hcache1) as Hcache2.
    destruct (Commit_changed_Ok sys _ w3 i2 x2 b2 h Hi2 Hb2 Hsame Hh2 Hcommit2)
      as (n' & Hcache3 & Hheap3 & Hlog3).
    rewrite Hcache2 in Hlog3. destruct Hlog3 as [-> Hlog3].
    exists n. rewrite Hheap1, Hheap3. cbn.
    repeat (split; [reflexivity || (intros _; assumption) |]). split.
    + destruct (imageCache w0 !! h) as [n0 |].
      * destruct Hlog1 as [_ ->]. rewrite pushes_app, pushes_hash. lia.
      * rewrite Hlog1, pushes_app, pushes_hash_push. lia.
    + rewrite Hlog3, pushes_app, pushes_hash. lia.
  - destruct (Commit_unchanged_Ok sys w0 w1 i1 x1 b1 Hi1 Hb1 Hc1 Hcommit1)
      as (Hheap1 & Hlog1).
    destruct (Commit_unchanged_Ok sys _ w3 i2 x2 b2 Hi2 Hb2 Hsame Hcommit2)
      as (Hheap3 & Hlog3).
    exists (ImageNameFrom b1). rewrite Hheap1, Hheap3, Hlog1, Hlog3, Hfrom. cbn.
    repeat (split; [reflexivity || (intros ?; discriminate) |]).
    split; [lia | reflexivity].
Qed.

Lemma same_hash_commits_share_one_image_witness :
  let w1 := fst (Commit quietSys 0%nat twoPreparing) in
  let w3 := fst (Commit quietSys 1%nat w1) in
  exists n,
    imageName <$> heap w1 !! 0%nat = Some n
    /\ imageName <$> heap w3 !! 1%nat = Some n
    /\ (Changed changedBuilder = true -> imageCache w3 !! "c0ffee" = Some n)
    /\ state <$> heap w1 !! 0%nat = Some Committed
    /\ state <$> heap w3 !! 1%nat = Some Committed
    /\ pushes (log w1) <= pushes (log twoPreparing) + 1
    /\ pushes (log w3) = pushes (log w1).
Proof.
  intros w1 w3.
  apply (same_hash_commits_share_one_image quietSys twoPreparing w1 w3 0%nat 1%nat
           (preparing "a" "a-01") (preparing "b" "b-02")
           changedBuilder changedBuilder "c0ffee" []);
    reflexivity.
Defined.

(** ** The shaping setters *)

(** What a setter does, as one equation. *)
Lemma setShaping_eq (sys : Collaborators) (sh : Shaping) (w : World) (i : ptr)
    (this : Instance) :
  heap w !! i = Some this ->
  setShaping sys sh i w =
    if negb (IsInState this [Started]) then
      (w, Fail (E (errNotAllowed sh) (stateParam this)))
    else if negb (enabled (BitTwister this)) then
      (w, Fail (New_ (errNotEnabled sh)))
    else
      let stopAnswer := BitTwisterClient sys (log w) (stopCall sh) in
      let log1 := log w ++ [EvBitTwister (stopCall sh) stopAnswer] in
      let start := startCall (networkInterface (BitTwister this)) sh in
      let startAnswer := BitTwisterClient sys log1 start in
      match stopAnswer with
      | Some err =>
          if stopErrorTolerated err then
            (set_log (log1 ++ [EvBitTwister start startAnswer]) w,
             match startAnswer with
             | Some e => Fail (Wrap (E (errSetting sh) [PStr (k8sName this)]) e)
             | None => Ok tt
             end)
          else
            (set_log log1 w,
             Fail (Wrap (E (errStopping sh) [PStr (k8sName this)]) err))
      | None =>
          (set_log (log1 ++ [EvBitTwister start startAnswer]) w,
           match startAnswer with
           | Some e => Fail (Wrap (E (errSetting sh) [PStr (k8sName this)]) e)
           | None => Ok tt
           end)
      end.
Proof.
  intros Hi.
  destruct sh; cbn [setShaping];
    unfold SetBandwidthLimit, SetLatencyAndJitter, SetPacketLoss;
    rewrite (bind_load _ _ _ _ Hi);
    (destruct (IsInState this [Started]); cbn [negb];
     [rewrite bind_check_true | rewrite bind_check_false; reflexivity]);
    (destruct (enabled (BitTwister this)); cbn [negb];
     [rewrite bind_check_true | rewrite bind_check_false; reflexivity]);
    unfold bind, btCall, check, ret, fail; cbn;
    repeat (case_match; simplify_eq/=); try reflexivity; congruence.
Qed.

Lemma active_app (l l' : list Event) (m : Mode) :
  active (l ++ l') m = fold_left btStep l' (active l) m.
Proof. unfold active. rewrite fold_left_app. reflexivity. Qed.

Lemma modeOf_stopCall (sh : Shaping) : modeOf (stopCall sh) = modeOfShaping sh.
Proof. destruct sh; reflexivity. Qed.

Lemma modeOf_startCall (iface : string) (sh : Shaping) :
  modeOf (startCall iface sh) = modeOfShaping sh.
Proof. destruct sh; reflexivity. Qed.

Lemma isStart_startCall (iface : string) (sh : Shaping) :
  isStart (startCall iface sh) = true.
Proof. destruct sh; reflexivity. Qed.

Lemma btStep_other_mode (act : Mode -> bool) (c : BtCall) (a : option Error) (m : Mode) :
  m ≠ modeOf c -> btStep act (EvBitTwister c a) m = act m.
Proof.
  intros Hne. destruct a; cbn; [reflexivity |].
  rewrite bool_decide_eq_false_2 by assumption. reflexivity.
Qed.

(** C6 (as amended).  A shaping setter fails at once, with no request to
    the client and nothing changed, when the instance is not Started or
    fault injection is not enabled.  Otherwise it first stops its own mode
    ([BandwidthStop] for the bandwidth limit, [LatencyStop] for latency and
    jitter, [PacketlossStop] for packet loss); a stop error other than "not
    initialized", "not ready", "not started" ends the call with that error
    and without a start; else the mode is started with the parameters on
    the instance's interface, and the call succeeds exactly when the start
    does.  No request is made for another mode: what is active among the
    other modes is as it was before the call, and after a success the
    setter's own mode is active. *)
Theorem shaping_setter_stops_only_its_own_mode
    (sys : Collaborators) (sh : Shaping) (w : World) (i : ptr) (this : Instance) :
  heap w !! i = Some this ->
  let stopAnswer := BitTwisterClient sys (log w) (stopCall sh) in
  let log1 := log w ++ [EvBitTwister (stopCall sh) stopAnswer] in
  let start := startCall (networkInterface (BitTwister this)) sh in
  let startAnswer := BitTwisterClient sys log1 start in
  (state this ≠ Started ->
     setShaping sys sh i w = (w, Fail (E (errNotAllowed sh) (stateParam this))))
  /\ (state this = Started -> enabled (BitTwister this) = false ->
      setShaping sys sh i w = (w, Fail (New_ (errNotEnabled sh))))
  /\ (state this = Started -> enabled (BitTwister this) = true ->
      stopPassed stopAnswer = false ->
      exists err, stopAnswer = Some err
        /\ setShaping sys sh i w
           = (set_log log1 w,
              Fail (Wrap (E (errStopping sh) [PStr (k8sName this)]) err)))
  /\ (state this = Started -> enabled (BitTwister this) = true ->
      stopPassed stopAnswer = true ->
      fst (setShaping sys sh i w)
      = set_log (log1 ++ [EvBitTwister start startAnswer]) w
      /\ snd (setShaping sys sh i w)
         = match startAnswer with
           | Some e => Fail (Wrap (E (errSetting sh) [PStr (k8sName this)]) e)
           | None => Ok tt
           end)
  /\ (forall m, m ≠ modeOfShaping sh ->
        active (log (fst (setShaping sys sh i w))) m = active (log w) m)
  /\ (snd (setShaping sys sh i w) = Ok tt ->
      active (log (fst (setShaping sys sh i w))) (modeOfShaping sh) = true).
Proof.
  intros Hi. cbv zeta.
  rewrite (setShaping_eq sys sh w i this Hi), IsInState_Started. cbv zeta.
  generalize (BitTwisterClient sys (log w) (stopCall sh)). intros stopAnswer.
  set (start := startCall (networkInterface (BitTwister this)) sh).
  set (log1 := log w ++ [EvBitTwister (stopCall sh) stopAnswer]).
  generalize (BitTwisterClient sys log1 start). intros startAnswer.
  assert (forall m, m ≠ modeOfShaping sh ->
            active (log1 ++ [EvBitTwister start startAnswer]) m = active (log w) m)
    as Hboth.
  { intros m Hm. unfold log1. rewrite <- app_assoc, active_app. cbn [app fold_left].
    rewrite !btStep_other_mode; [reflexivity | |];
      unfold start; rewrite ?modeOf_startCall, ?modeOf_stopCall; exact Hm. }
  assert (forall m, m ≠ modeOfShaping sh -> active log1 m = active (log w) m)
    as Hstop.
  { intros m Hm. unfold log1. rewrite active_app. cbn [fold_left].
    apply btStep_other_mode. rewrite modeOf_stopCall. exact Hm. }
  assert (startAnswer = None ->
          active (log1 ++ [EvBitTwister start startAnswer]) (modeOfShaping sh) = true)
    as Hon.
  { intros ->. rewrite active_app. cbn [fold_left btStep]. unfold start.
    rewrite modeOf_startCall, bool_decide_eq_true_2 by reflexivity.
    apply isStart_startCall. }
  clearbody log1 start.
  split; [| split; [| split; [| split; [| split]]]].
  - intros Hne. rewrite bool_decide_eq_false_2 by assumption. reflexivity.
  - intros Hst Hen. rewrite bool_decide_eq_true_2, Hen by assumption. reflexivity.
  - intros Hst Hen Hp. rewrite bool_decide_eq_true_2, Hen by assumption. cbn [negb].
    destruct stopAnswer as [err |]; [| discriminate]. cbn in Hp. rewrite Hp. eauto.
  - intros Hst Hen Hp. rewrite bool_decide_eq_true_2, Hen by assumption. cbn [negb].
    destruct stopAnswer as [err |]; [cbn in Hp; rewrite Hp |]; split; reflexivity.
  - intros m Hm.
    destruct (bool_decide (state this = Started)); cbn [negb]; [| reflexivity].
    destruct (enabled (BitTwister this)); cbn [negb]; [| reflexivity].
    destruct stopAnswer as [err |]; [destruct (stopErrorTolerated err) |];
      cbn [fst log set_log];
      first [apply Hboth; exact Hm | apply Hstop; exact Hm].
  - destruct (bool_decide (state this = Started)); cbn [negb]; [| discriminate].
    destruct (enabled (BitTwister this)); cbn [negb]; [| discriminate].
    destruct stopAnswer as [err |]; [destruct (stopErrorTolerated err) |];
      cbn [fst snd log set_log]; try discriminate;
      (destruct startAnswer; [discriminate | intros _; apply Hon; reflexivity]).
Qed.

Lemma shaping_setter_witness :
  fst (setShaping quietSys (ShLatency 100 10) 0%nat (oneInstance webShaped))
  = set_log [EvBitTwister LatencyStop (Some (New_ SdkServiceNotStarted));
             EvBitTwister (LatencyStart "eth0" 100 10) None]
            (oneInstance webShaped)
  /\ snd (setShaping quietSys (ShLatency 100 10) 0%nat (oneInstance webShaped)) = Ok tt
  /\ active (log (fst (setShaping quietSys (ShLatency 100 10) 0%nat
                         (oneInstance webShaped)))) Latency = true.
Proof.
  destruct (shaping_setter_stops_only_its_own_mode quietSys (ShLatency 100 10)
              (oneInstance webShaped) 0%nat webShaped eq_refl)
    as (_ & _ & _ & Hrun & _ & Hactive).
  destruct (Hrun eq_refl eq_refl eq_refl) as [Hw Hr].
  split; [exact Hw |]. split; [exact Hr |]. apply Hactive. exact Hr.
Defined.

(** C6 (as stated) fails on the second half of its first sentence.  On a
    started instance with fault injection enabled, against a client that
    accepts every start and stops what is active, the bandwidth limit is
    set and then latency and jitter.  Both calls succeed; the requests
    made are [BandwidthStop], [BandwidthStart], [LatencyStop],
    [LatencyStart]: the bandwidth limit is never stopped, and both modes
    are active at the end. *)
Lemma bandwidth_then_latency_leaves_both_active :
  let w1 := fst (SetBandwidthLimit quietSys 0%nat 1000 (oneInstance webShaped)) in
  let w2 := fst (SetLatencyAndJitter quietSys 0%nat 100 10 w1) in
  snd (SetBandwidthLimit quietSys 0%nat 1000 (oneInstance webShaped)) = Ok tt
  /\ snd (SetLatencyAndJitter quietSys 0%nat 100 10 w1) = Ok tt
  /\ log w2 = [EvBitTwister BandwidthStop (Some (New_ SdkServiceNotStarted));
               EvBitTwister (BandwidthStart "eth0" 1000) None;
               EvBitTwister LatencyStop (Some (New_ SdkServiceNotStarted));
               EvBitTwister (LatencyStart "eth0" 100 10) None]
  /\ active (log w2) Bandwidth = true
  /\ active (log w2) Latency = true.
Proof. repeat split. Qed.

(** ** Port forwarding *)

Lemma forwardAttempts_shape (sys : Collaborators) (i : ptr) (pod : string)
    (lp port : Z) (w : World) :
  exists k,
    (1 <= k <= 5)%nat
    /\ heap (fst (forwardAttempts sys i pod lp port (seqZ 1 maxRetries) w)) = heap w
    /\ log (fst (forwardAttempts sys i pod lp port (seqZ 1 maxRetries) w))
       = log w ++ attemptTrace pod lp port k
    /\ now (fst (forwardAttempts sys i pod lp port (seqZ 1 maxRetries) w))
       = (now w + Z.of_nat (k - 1) * retryInterval)%Z
    /\ (snd (forwardAttempts sys i pod lp port (seqZ 1 maxRetries) w) = Ok tt
        \/ k = 5%nat
           /\ snd (forwardAttempts sys i pod lp port (seqZ 1 maxRetries) w)
              = Fail (E ErrForwardingPort [PInt maxRetries]))
    /\ ((forall l, PortForwardPod sys l pod lp port ≠ None) ->
        k = 5%nat
        /\ snd (forwardAttempts sys i pod lp port (seqZ 1 maxRetries) w)
           = Fail (E ErrForwardingPort [PInt maxRetries]))
    /\ ((forall l, PortForwardPod sys l pod lp port = None) ->
        k = 1%nat
        /\ snd (forwardAttempts sys i pod lp port (seqZ 1 maxRetries) w) = Ok tt).
Proof.
  change (seqZ 1 maxRetries) with [1; 2; 3; 4; 5]%Z.
  cbn [forwardAttempts]. unfold bind, call, check, Sleep, ret, fail. cbn.
  assert (forall (P : Prop) l,
            (forall l, PortForwardPod sys l pod lp port ≠ None) ->
            PortForwardPod sys l pod lp port = None -> P) as Hnever
    by (intros P l Hall Hl; destruct (Hall l Hl)).
  assert (forall (P : Prop) l e,
            (forall l, PortForwardPod sys l pod lp port = None) ->
            PortForwardPod sys l pod lp port = Some e -> P) as Halways
    by (intros P l e Hall Hl; rewrite Hall in Hl; discriminate).
  destruct (PortForwardPod sys (log w) pod lp port) as [e1 |] eqn:A1; cbn.
  2:{ exists 1%nat. split; [lia |]. split; [reflexivity |]. split; [reflexivity |].
      split; [lia |]. split; [left; reflexivity |].
      split; intros Hall; [eapply Hnever; eassumption | split; reflexivity]. }
  match goal with |- context [PortForwardPod sys ?l pod lp port] =>
    destruct (PortForwardPod sys l pod lp port) as [e2 |] eqn:A2; cbn end.
  2:{ exists 2%nat. rewrite <- !app_assoc. cbn.
      split; [lia |]. split; [reflexivity |]. split; [reflexivity |].
      split; [lia |]. split; [left; reflexivity |].
      split; intros Hall; [eapply Hnever | eapply Halways]; eassumption. }
  match goal with |- context [PortForwardPod sys ?l pod lp port] =>
    destruct (PortForwardPod sys l pod lp port) as [e3 |] eqn:A3; cbn end.
  2:{ exists 3%nat. rewrite <- !app_assoc. cbn.
      split; [lia |]. split; [reflexivity |]. split; [reflexivity |].
      split; [lia |]. split; [left; reflexivity |].
      split; intros Hall; [eapply Hnever | eapply Halways]; eassumption. }
  match goal with |- context [PortForwardPod sys ?l pod lp port] =>
    destruct (PortForwardPod sys l pod lp port) as [e4 |] eqn:A4; cbn end.
  2:{ exists 4%nat. rewrite <- !app_assoc. cbn.
      split; [lia |]. split; [reflexivity |]. split; [reflexivity |].
      split; [lia |]. split; [left; reflexivity |].
      split; intros Hall; [eapply Hnever | eapply Halways]; eassumption. }
  match goal with |- context [PortForwardPod sys ?l pod lp port] =>
    destruct (PortForwardPod sys l pod lp port) as [e5 |] eqn:A5; cbn end.
  2:{ exists 5%nat. rewrite <- !app_assoc. cbn.
      split; [lia |]. split; [reflexivity |]. split; [reflexivity |].
      split; [lia |]. split; [left; reflexivity |].
      split; intros Hall; [eapply Hnever | eapply Halways]; eassumption. }
  exists 5%nat. rewrite <- !app_assoc. cbn.
  split; [lia |]. split; [reflexivity |]. split; [reflexivity |].
  split; [lia |]. split; [right; split; reflexivity |].
  split; intros Hall; [split; reflexivity | eapply Halways; eassumption].
Qed.

(** The loop in full: it ends at the first attempt at which the tunnel
    comes up, and with the error when it comes up at none of the five. *)
Lemma forwardAttempts_run (sys : Collaborators) (i : ptr) (pod : string)
    (lp port : Z) (w : World) :
  let r := forwardAttempts sys i pod lp port (seqZ 1 maxRetries) w in
  heap (fst r) = heap w
  /\ imageCache (fst r) = imageCache w
  /\ match firstUp sys (log w) pod lp port with
     | Some j =>
         snd r = Ok tt
         /\ log (fst r) = log w ++ attemptTrace pod lp port (S j)
         /\ now (fst r) = (now w + Z.of_nat j * retryInterval)%Z
     | None =>
         snd r = Fail (E ErrForwardingPort [PInt maxRetries])
         /\ log (fst r) = log w ++ attemptTrace pod lp port 5
         /\ now (fst r) = (now w + 4 * retryInterval)%Z
     end.
Proof.
  change (seqZ 1 maxRetries) with [1; 2; 3; 4; 5]%Z.
  unfold firstUp. change (Z.to_nat maxRetries) with 5%nat.
  cbn [seq find]. unfold tunnelUp. cbn [failedAttempts].
  cbn [forwardAttempts]. unfold bind, call, check, Sleep, ret, fail. cbn.
  rewrite <- ?app_assoc. cbn [app]. rewrite app_nil_r.
  destruct (PortForwardPod sys (log w) pod lp port) as [e1 |]; cbn;
    [| repeat split; lia].
  rewrite <- ?app_assoc. cbn [app].
  match goal with |- context [PortForwardPod sys ?l pod lp port] =>
    destruct (PortForwardPod sys l pod lp port) as [e2 |]; cbn;
      [| rewrite <- ?app_assoc; repeat split; lia] end.
  rewrite <- ?app_assoc. cbn [app].
  match goal with |- context [PortForwardPod sys ?l pod lp port] =>
    destruct (PortForwardPod sys l pod lp port) as [e3 |]; cbn;
      [| rewrite <- ?app_assoc; repeat split; lia] end.
  rewrite <- ?app_assoc. cbn [app].
  match goal with |- context [PortForwardPod sys ?l pod lp port] =>
    destruct (PortForwardPod sys l pod lp port) as [e4 |]; cbn;
      [| rewrite <- ?app_assoc; repeat split; lia] end.
  rewrite <- ?app_assoc. cbn [app].
  match goal with |- context [PortForwardPod sys ?l pod lp port] =>
    destruct (PortForwardPod sys l pod lp port) as [e5 |]; cbn;
      rewrite <- ?app_assoc; repeat split; lia end.
Qed.

(** [PortForwardTCP] once the guards are passed, a local port is found and
    the pod is known: the loop decides. *)
Lemma PortForwardTCP_loop (sys : Collaborators) (w : World) (i : ptr)
    (this : Instance) (port lp : Z) (pod : string) :
  heap w !! i = Some this ->
  state this = Started ->
  validatePort sys port = None ->
  isTCPPortRegistered this port = true ->
  getFreePortTCP sys (log w) = inr lp ->
  GetFirstPodFromReplicaSet sys (log w) (k8sName this) = inr pod ->
  PortForwardTCP sys i port w
  = (fst (forwardAttempts sys i pod lp port (seqZ 1 maxRetries)
            (set_log (log w ++ [EvGetFirstPodFromReplicaSet (k8sName this)]) w)),
     match snd (forwardAttempts sys i pod lp port (seqZ 1 maxRetries)
                  (set_log (log w ++ [EvGetFirstPodFromReplicaSet (k8sName this)]) w))
     with
     | Ok _ => Ok lp
     | Fail e => Fail e
     | Panic => Panic
     end).
Proof.
  intros Hi Hst Hv Hreg Hfree Hpod. unfold PortForwardTCP.
  rewrite (bind_load _ _ _ _ Hi), IsInState_Started,
    bool_decide_eq_true_2, bind_check_true by assumption.
  rewrite Hv. cbn [orReturn]. rewrite bind_ret, Hreg, bind_check_true.
  unfold bind at 1. unfold ask at 1. rewrite Hfree.
  rewrite bind_ret. unfold bind at 1. unfold wrapWith, bind, call, orReturnV.
  cbn [log]. rewrite Hpod. cbn.
  destruct (forwardAttempts sys i pod lp port (seqZ 1 maxRetries) _)
    as [w' [[] | e |]]; reflexivity.
Qed.

Lemma PortForwardTCP_before_loop (sys : Collaborators) (w : World) (i : ptr)
    (this : Instance) (port : Z) :
  heap w !! i = Some this ->
  PortForwardTCP sys i port w
  = if negb (IsInState this [Started]) then
      (w, Fail (E ErrRandomPortForwardingNotAllowed (stateParam this)))
    else match validatePort sys port with
         | Some e => (w, Fail e)
         | None =>
             if negb (isTCPPortRegistered this port) then
               (w, Fail (E ErrPortNotRegistered [PInt port]))
             else match getFreePortTCP sys (log w) with
                  | inl _ => (w, Fail (E ErrGettingFreePort [PInt port]))
                  | inr lp =>
                      match GetFirstPodFromReplicaSet sys (log w) (k8sName this) with
                      | inl e =>
                          (set_log (log w ++ [EvGetFirstPodFromReplicaSet
                                                (k8sName this)]) w,
                           Fail (Wrap (E ErrGettingPodFromReplicaSet
                                         [PStr (k8sName this)]) e))
                      | inr pod => PortForwardTCP sys i port w
                      end
                  end
         end.
Proof.
  intros Hi. unfold PortForwardTCP at 1. rewrite (bind_load _ _ _ _ Hi).
  destruct (IsInState this [Started]) eqn:Hst; cbn [negb];
    [rewrite bind_check_true | rewrite bind_check_false; reflexivity].
  destruct (validatePort sys port) as [e |] eqn:Hv; cbn [orReturn];
    [rewrite bind_fail; reflexivity | rewrite bind_ret].
  destruct (isTCPPortRegistered this port) eqn:Hreg; cbn [negb];
    [rewrite bind_check_true | rewrite bind_check_false; reflexivity].
  destruct (getFreePortTCP sys (log w)) as [e | lp] eqn:Hfree.
  { unfold bind at 1. unfold ask at 1. rewrite Hfree. rewrite bind_fail. reflexivity. }
  destruct (GetFirstPodFromReplicaSet sys (log w) (k8sName this)) as [e | pod] eqn:Hpod.
  { unfold bind at 1. unfold ask at 1. rewrite Hfree. rewrite bind_ret.
    unfold bind at 1. unfold wrapWith, bind, call, orReturnV. cbn [log].
    rewrite Hpod. reflexivity. }
  rewrite IsInState_Started in Hst. apply bool_decide_eq_true_1 in Hst.
  rewrite (PortForwardTCP_loop sys w i this port lp pod Hi Hst Hv Hreg Hfree Hpod).
  unfold bind at 1. unfold ask at 1. rewrite Hfree. rewrite bind_ret.
  unfold bind at 1. unfold wrapWith, bind, call, orReturnV. cbn [log].
  rewrite Hpod. cbn.
  destruct (forwardAttempts sys i pod lp port (seqZ 1 maxRetries) _)
    as [w' [[] | e |]]; reflexivity.
Qed.

(** C7.  [PortForwardTCP] fails, with nothing done, unless the instance is
    Started and the port is registered; a success returns the free local
    port that was found.  The tunnel is made to the first pod of the
    replica set, from that local port.  It is tried at most 5 times
    ([maxRetries]), with a sleep of 5 seconds ([retryInterval]) between one
    attempt and the next and none after the last: the call returns the
    local port at the first attempt at which the tunnel comes up, after as
    many sleeps as attempts have failed, and makes no further attempt; when
    all 5 attempts fail the call fails with [ErrForwardingPort] carrying
    the number 5, 20 seconds after it began. *)
Theorem port_forward_tries_the_tunnel_five_times
    (sys : Collaborators) (w : World) (i : ptr) (this : Instance) (port : Z) :
  heap w !! i = Some this ->
  (state this ≠ Started ->
     PortForwardTCP sys i port w
     = (w, Fail (E ErrRandomPortForwardingNotAllowed (stateParam this))))
  /\ (state this = Started -> validatePort sys port = None ->
      isTCPPortRegistered this port = false ->
      PortForwardTCP sys i port w = (w, Fail (E ErrPortNotRegistered [PInt port])))
  /\ (forall w' lp,
        PortForwardTCP sys i port w = (w', Ok lp) ->
        state this = Started /\ isTCPPortRegistered this port = true
        /\ getFreePortTCP sys (log w) = inr lp)
  /\ (exists new,
        log (fst (PortForwardTCP sys i port w)) = log w ++ new
        /\ (new = []
            \/ new = [EvGetFirstPodFromReplicaSet (k8sName this)]
            \/ exists pod lp k,
                 (1 <= k <= 5)%nat
                 /\ new = EvGetFirstPodFromReplicaSet (k8sName this)
                          :: attemptTrace pod lp port k
                 /\ now (fst (PortForwardTCP sys i port w))
                    = (now w + Z.of_nat (k - 1) * retryInterval)%Z))
  /\ (forall lp pod,
        state this = Started -> validatePort sys port = None ->
        isTCPPortRegistered this port = true ->
        getFreePortTCP sys (log w) = inr lp ->
        GetFirstPodFromReplicaSet sys (log w) (k8sName this) = inr pod ->
        let l0 := log w ++ [EvGetFirstPodFromReplicaSet (k8sName this)] in
        heap (fst (PortForwardTCP sys i port w)) = heap w
        /\ match firstUp sys l0 pod lp port with
           | Some j =>
               snd (PortForwardTCP sys i port w) = Ok lp
               /\ log (fst (PortForwardTCP sys i port w))
                  = l0 ++ attemptTrace pod lp port (S j)
               /\ now (fst (PortForwardTCP sys i port w))
                  = (now w + Z.of_nat j * (5 * Second))%Z
           | None =>
               snd (PortForwardTCP sys i port w) = Fail (E ErrForwardingPort [PInt 5])
               /\ log (fst (PortForwardTCP sys i port w))
                  = l0 ++ attemptTrace pod lp port 5
               /\ now (fst (PortForwardTCP sys i port w)) = (now w + 4 * (5 * Second))%Z
           end)
  /\ (forall lp pod,
        state this = Started -> validatePort sys port = None ->
        isTCPPortRegistered this port = true ->
        getFreePortTCP sys (log w) = inr lp ->
        GetFirstPodFromReplicaSet sys (log w) (k8sName this) = inr pod ->
        ((forall l, PortForwardPod sys l pod lp port ≠ None) ->
         snd (PortForwardTCP sys i port w) = Fail (E ErrForwardingPort [PInt 5])
         /\ log (fst (PortForwardTCP sys i port w))
            = log w ++ EvGetFirstPodFromReplicaSet (k8sName this)
                       :: attemptTrace pod lp port 5
         /\ now (fst (PortForwardTCP sys i port w)) = (now w + 4 * (5 * Second))%Z)
        /\ ((forall l, PortForwardPod sys l pod lp port = None) ->
            snd (PortForwardTCP sys i port w) = Ok lp
            /\ log (fst (PortForwardTCP sys i port w))
               = log w ++ [EvGetFirstPodFromReplicaSet (k8sName this);
                           EvPortForwardPod pod lp port])).
Proof.
  intros Hi. pose proof (PortForwardTCP_before_loop sys w i this port Hi) as Heq.
  rewrite IsInState_Started in Heq.
  split; [| split; [| split; [| split; [| split]]]].
  - intros Hne. rewrite Heq, bool_decide_eq_false_2 by assumption. reflexivity.
  - intros Hst Hv Hreg.
    rewrite Heq, bool_decide_eq_true_2, Hv, Hreg by assumption. reflexivity.
  - intros w' lp H. rewrite Heq in H.
    destruct (decide (state this = Started)) as [Hst | Hst].
    2:{ rewrite bool_decide_eq_false_2 in H by assumption. discriminate. }
    rewrite bool_decide_eq_true_2 in H by assumption. cbn [negb] in H.
    destruct (validatePort sys port) eqn:Hv; [discriminate |].
    destruct (isTCPPortRegistered this port) eqn:Hreg; [| discriminate].
    cbn [negb] in H.
    destruct (getFreePortTCP sys (log w)) as [e | lp'] eqn:Hfree; [discriminate |].
    destruct (GetFirstPodFromReplicaSet sys (log w) (k8sName this)) as [e | pod]
      eqn:Hpod; [discriminate |].
    rewrite (PortForwardTCP_loop sys w i this port lp' pod Hi Hst Hv Hreg Hfree Hpod)
      in H.
    destruct (snd (forwardAttempts sys i pod lp' port (seqZ 1 maxRetries) _))
      as [[] | e |]; [| discriminate | discriminate].
    injection H as _ <-. repeat split; assumption.
  - destruct (bool_decide (state this = Started)) eqn:Hb; cbn [negb] in Heq.
    2:{ rewrite Heq. exists []. rewrite app_nil_r. split; [reflexivity | by left]. }
    apply bool_decide_eq_true_1 in Hb as Hst.
    destruct (validatePort sys port) eqn:Hv.
    { rewrite Heq. exists []. rewrite app_nil_r. split; [reflexivity | by left]. }
    destruct (isTCPPortRegistered this port) eqn:Hreg; cbn [negb] in Heq.
    2:{ rewrite Heq. exists []. rewrite app_nil_r. split; [reflexivity | by left]. }
    destruct (getFreePortTCP sys (log w)) as [e | lp] eqn:Hfree.
    { rewrite Heq. exists []. rewrite app_nil_r. split; [reflexivity | by left]. }
    destruct (GetFirstPodFromReplicaSet sys (log w) (k8sName this)) as [e | pod]
      eqn:Hpod.
    { rewrite Heq. eexists. split; [reflexivity | right; by left]. }
    rewrite (PortForwardTCP_loop sys w i this port lp pod Hi Hst Hv Hreg Hfree Hpod).
    cbn [fst].
    destruct (forwardAttempts_shape sys i pod lp port
                (set_log (log w ++ [EvGetFirstPodFromReplicaSet (k8sName this)]) w))
      as (k & Hk & _ & Hlog & Hnow & _).
    exists (EvGetFirstPodFromReplicaSet (k8sName this) :: attemptTrace pod lp port k).
    split.
    + rewrite Hlog. cbn [log set_log]. rewrite <- app_assoc. reflexivity.
    + right; right. exists pod, lp, k. split; [assumption |].
      split; [reflexivity | exact Hnow].
  - intros lp pod Hst Hv Hreg Hfree Hpod l0.
    rewrite (PortForwardTCP_loop sys w i this port lp pod Hi Hst Hv Hreg Hfree Hpod).
    cbn [fst snd].
    destruct (forwardAttempts_run sys i pod lp port
                (set_log (log w ++ [EvGetFirstPodFromReplicaSet (k8sName this)]) w))
      as (Hheap & _ & Hrun).
    split; [exact Hheap |].
    change (log (set_log (log w ++ [EvGetFirstPodFromReplicaSet (k8sName this)]) w))
      with l0 in Hrun.
    destruct (firstUp sys l0 pod lp port) as [j |];
      destruct Hrun as (Hr & Hlog & Hnow); rewrite Hr, Hlog, Hnow;
      repeat split.
  - intros lp pod Hst Hv Hreg Hfree Hpod.
    rewrite (PortForwardTCP_loop sys w i this port lp pod Hi Hst Hv Hreg Hfree Hpod).
    cbn [fst snd].
    destruct (forwardAttempts_shape sys i pod lp port
                (set_log (log w ++ [EvGetFirstPodFromReplicaSet (k8sName this)]) w))
      as (k & Hk & _ & Hlog & Hnow & _ & Hfail & Hok).
    split.
    + intros Hall. destruct (Hfail Hall) as [-> Hr].
      rewrite Hr, Hlog, Hnow. cbn [log set_log now set_now].
      rewrite <- app_assoc. repeat split.
    + intros Hall. destruct (Hok Hall) as [-> Hr].
      rewrite Hr, Hlog. cbn [log set_log]. rewrite <- app_assoc. split; reflexivity.
Qed.

Lemma port_forward_exhausted_witness :
  (snd (PortForwardTCP brokenTunnelSys 0%nat 80 (oneInstance webServing))
   = Fail (E ErrForwardingPort [PInt 5])
   /\ log (fst (PortForwardTCP brokenTunnelSys 0%nat 80 (oneInstance webServing)))
      = log (oneInstance webServing)
        ++ EvGetFirstPodFromReplicaSet "web-7f3a"
           :: attemptTrace "web-7f3a-pod" 40000 80 5
   /\ now (fst (PortForwardTCP brokenTunnelSys 0%nat 80 (oneInstance webServing)))
      = (now (oneInstance webServing) + 4 * (5 * Second))%Z)
  /\ (heap (fst (PortForwardTCP flakyTunnelSys 0%nat 80 (oneInstance webServing)))
      = heap (oneInstance webServing)
      /\ snd (PortForwardTCP flakyTunnelSys 0%nat 80 (oneInstance webServing))
         = Ok 40000%Z
      /\ log (fst (PortForwardTCP flakyTunnelSys 0%nat 80 (oneInstance webServing)))
         = (log (oneInstance webServing) ++ [EvGetFirstPodFromReplicaSet "web-7f3a"])
           ++ attemptTrace "web-7f3a-pod" 40000 80 2
      /\ now (fst (PortForwardTCP flakyTunnelSys 0%nat 80 (oneInstance webServing)))
         = (now (oneInstance webServing) + Z.of_nat 1 * (5 * Second))%Z).
Proof.
  split.
  - destruct (port_forward_tries_the_tunnel_five_times brokenTunnelSys
                (oneInstance webServing) 0%nat webServing 80 eq_refl)
      as (_ & _ & _ & _ & _ & Hloop).
    destruct (Hloop 40000%Z "web-7f3a-pod" eq_refl eq_refl eq_refl eq_refl eq_refl)
      as [Hfail _].
    apply Hfail. intros l. discriminate.
  - destruct (port_forward_tries_the_tunnel_five_times flakyTunnelSys
                (oneInstance webServing) 0%nat webServing 80 eq_refl)
      as (_ & _ & _ & _ & Hrun & _).
    exact (Hrun 40000%Z "web-7f3a-pod" eq_refl eq_refl eq_refl eq_refl eq_refl).
Defined.

(** ** Waiting for the instance to run *)

Lemma IsRunning_eq (sys : Collaborators) (w : World) (i : ptr) (this : Instance) :
  heap w !! i = Some this ->
  state this = Started ->
  IsRunning sys i w
  = (set_log (log w ++ [EvIsReplicaSetRunning (k8sName this)]) w,
     match IsReplicaSetRunning sys (log w) (k8sName this) with
     | inl e => Fail e
     | inr b => Ok b
     end).
Proof.
  intros Hi Hst. unfold IsRunning. rewrite (bind_load _ _ _ _ Hi).
  unfold IsInState. cbn [existsb]. rewrite Hst. cbn. rewrite bind_check_true.
  unfold bind, call, orReturnV.
  destruct (IsReplicaSetRunning sys (log w) (k8sName this)); reflexivity.
Qed.

Lemma ticksFrom_S (start a : Z) (n : nat) :
  ticksFrom start a (S n) = (start + a * (1 * Second))%Z :: ticksFrom start (a + 1) n.
Proof.
  unfold ticksFrom. rewrite seqZ_cons by lia. cbn [fmap list_fmap].
  f_equal. f_equal. f_equal; lia.
Qed.

Lemma tickInstants_ticksFrom (start : Z) : tickInstants start = ticksFrom start 1 60.
Proof. reflexivity. Qed.

Lemma polls_S_app (this : Instance) (k : nat) :
  [EvIsReplicaSetRunning (k8sName this)] ++ polls this k = polls this (S k).
Proof. reflexivity. Qed.

(** A run of the loop from tick number [a], with [n] ticks left up to and
    including the one at the deadline. *)
Lemma waitLoop_run (sys : Collaborators) (i : ptr) (this : Instance) (start : Z) :
  forall (n : nat) (a : Z) (w : World),
    heap w !! i = Some this ->
    state this = Started ->
    (1 <= a)%Z ->
    (a + Z.of_nat n = 61)%Z ->
    (now w <= start + (a - 1) * Second)%Z ->
    exists k,
      (k <= n)%nat
      /\ heap (fst (waitLoop sys i (waitDeadline start) (ticksFrom start a n) w))
         = heap w
      /\ log (fst (waitLoop sys i (waitDeadline start) (ticksFrom start a n) w))
         = log w ++ polls this k
      /\ waitOutcome sys this start (log w) a n k
           (waitLoop sys i (waitDeadline start) (ticksFrom start a n) w).
Proof.
  induction n as [| n IH]; intros a w Hi Hst Ha Han Hnow.
  - exists 0%nat. unfold ticksFrom.
    change (seqZ a (Z.of_nat 0)) with (@nil Z). cbn [fmap list_fmap waitLoop].
    rewrite (bind_load _ _ _ _ Hi). unfold bind, waitUntil, fail. cbn.
    split; [lia |]. split; [reflexivity |]. split; [by rewrite app_nil_r |].
    right; left. cbn. split; [reflexivity |]. split; [lia |].
    split; [unfold waitDeadline, Minute, Second in *; lia | intros j Hj; lia].
  - rewrite ticksFrom_S. cbn [waitLoop]. rewrite (bind_load _ _ _ _ Hi).
    set (t := (start + a * (1 * Second))%Z).
    set (tick := (let* _ := waitUntil t in
                  let* running :=
                    wrapWith (E ErrCheckingIfInstanceRunning [PStr (k8sName this)])
                             (IsRunning sys i) in
                  if running then ret tt
                  else waitLoop sys i (waitDeadline start)
                         (ticksFrom start (a + 1) n))).
    assert (exists k,
      (k <= S n)%nat
      /\ heap (fst (tick w)) = heap w
      /\ log (fst (tick w)) = log w ++ polls this k
      /\ waitOutcome sys this start (log w) a (S n) k (tick w)) as Htick.
    { set (w1 := set_now (Z.max (now w) t) w).
      set (w2 := set_log (log w1 ++ [EvIsReplicaSetRunning (k8sName this)]) w1).
      assert (now w1 = (start + a * Second)%Z) as Hnow1.
      { unfold w1, t, Second in *. cbn. lia. }
      assert (heap w1 !! i = Some this) as Hi1 by exact Hi.
      assert (tick w
              = match IsReplicaSetRunning sys (log w1) (k8sName this) with
                | inl e =>
                    (w2, Fail (Wrap (E ErrCheckingIfInstanceRunning
                                       [PStr (k8sName this)]) e))
                | inr true => (w2, Ok tt)
                | inr false =>
                    waitLoop sys i (waitDeadline start) (ticksFrom start (a + 1) n) w2
                end) as Htw.
      { unfold tick, bind, waitUntil, wrapWith. fold w1.
        rewrite (IsRunning_eq sys w1 i this Hi1 Hst). fold w2.
        destruct (IsReplicaSetRunning sys (log w1) (k8sName this)) as [e | [|]];
          reflexivity. }
      rewrite Htw. clear Htw.
      assert (answerAfter sys this (log w) 0
              = IsReplicaSetRunning sys (log w1) (k8sName this)) as Hfirst.
      { unfold answerAfter, polls. cbn [repeat]. rewrite app_nil_r. reflexivity. }
      destruct (IsReplicaSetRunning sys (log w1) (k8sName this)) as [e | [|]] eqn:Hans.
      - exists 1%nat. split; [lia |]. split; [reflexivity |]. split; [reflexivity |].
        right; right. exists e. cbn [fst snd]. split; [reflexivity |].
        split; [lia |]. split; [unfold w2; cbn; unfold t, Second in *; lia |].
        split; [exact Hfirst | intros j Hj; lia].
      - exists 1%nat. split; [lia |]. split; [reflexivity |]. split; [reflexivity |].
        left. cbn [fst snd]. split; [reflexivity |].
        split; [lia |]. split; [unfold w2; cbn; unfold t, Second in *; lia |].
        split; [exact Hfirst | intros j Hj; lia].
      - destruct (IH (a + 1)%Z w2) as (k & Hk & Hheap & Hlog & Hcases);
          [exact Hi | exact Hst | lia | lia
          | unfold w2; cbn [now set_log]; rewrite Hnow1; unfold Second; lia |].
        assert (forall j, answerAfter sys this (log w2) j
                          = answerAfter sys this (log w) (S j)) as Hshift.
        { intros j. unfold answerAfter, w2, w1. cbn [log set_log set_now].
          rewrite <- app_assoc. reflexivity. }
        assert (forall (q : nat),
                  (forall j, (j < q)%nat -> answerAfter sys this (log w2) j = inr false) ->
                  forall j, (j < S q)%nat -> answerAfter sys this (log w) j = inr false)
          as Hfalse.
        { intros q Hq [| j] Hj; [exact Hfirst |]. rewrite <- Hshift. apply Hq. lia. }
        exists (S k). split; [lia |]. split; [exact Hheap |]. split.
        + rewrite Hlog. unfold w2, w1. cbn [log set_log set_now].
          rewrite <- app_assoc. reflexivity.
        + destruct Hcases as [(Hr & Hk1 & Ht & Hlast & Hbefore)
                             | [(Hr & Hk1 & Ht & Hbefore)
                               | (e & Hr & Hk1 & Ht & Hlast & Hbefore)]].
          * left. split; [exact Hr |]. split; [lia |]. split; [rewrite Ht; lia |].
            split.
            -- rewrite <- Hlast, Hshift. f_equal. lia.
            -- intros j Hj. apply (Hfalse (k - 1)%nat); [| lia].
               intros j' Hj'. apply Hbefore. lia.
          * right; left. split; [exact Hr |]. split; [lia |]. split; [exact Ht |].
            intros j Hj. apply (Hfalse k); [exact Hbefore | lia].
          * right; right. exists e. split; [exact Hr |]. split; [lia |].
            split; [rewrite Ht; lia |]. split.
            -- rewrite <- Hlast, Hshift. f_equal. lia.
            -- intros j Hj. apply (Hfalse (k - 1)%nat); [| lia].
               intros j' Hj'. apply Hbefore. lia. }
    destruct (t <? waitDeadline start)%Z eqn:Hlt.
    + rewrite bind_ret. exact Htick.
    + unfold bind, ask.
      destruct (selectTickFirst sys (log w)); [exact Htick |].
      apply Z.ltb_ge in Hlt.
      assert (a = 60%Z) as -> by (unfold t, waitDeadline, Minute, Second in *; lia).
      assert (n = 0%nat) as -> by lia.
      exists 0%nat. unfold waitUntil, fail. cbn.
      split; [lia |]. split; [reflexivity |]. split; [by rewrite app_nil_r |].
      right; left. cbn. split; [reflexivity |]. split; [lia |].
      split; [unfold waitDeadline, Minute, Second in *; lia | intros j Hj; lia].
Qed.

Lemma WaitInstanceIsRunning_started (sys : Collaborators) (w : World) (i : ptr)
    (this : Instance) :
  heap w !! i = Some this ->
  state this = Started ->
  WaitInstanceIsRunning sys i w
  = waitLoop sys i (waitDeadline (now w)) (ticksFrom (now w) 1 60) w.
Proof.
  intros Hi Hst. unfold WaitInstanceIsRunning.
  rewrite (bind_load _ _ _ _ Hi), IsInState_Started,
    bool_decide_eq_true_2, bind_check_true by assumption.
  reflexivity.
Qed.

(** C8.  [WaitInstanceIsRunning] fails at once unless the instance is
    Started.  Otherwise it asks for readiness at each tick of the
    one-second ticker, the k-th time k seconds after the call; it returns
    nil at the first answer "running", and the query's error, wrapped, at
    the first query that fails, without asking again; and when the
    one-minute timer fires first -- after 59 polls, or 60 when the last
    tick wins the race with the timer -- it returns the timeout error, one
    minute after the call.  It never returns later than that, and it writes
    to no instance. *)
Theorem wait_for_running_polls_each_second_for_a_minute
    (sys : Collaborators) (w : World) (i : ptr) (this : Instance) :
  heap w !! i = Some this ->
  (state this ≠ Started ->
     WaitInstanceIsRunning sys i w
     = (w, Fail (E ErrWaitingForInstanceNotAllowed (stateParam this))))
  /\ (state this = Started ->
      (exists k,
         (k <= 60)%nat
         /\ heap (fst (WaitInstanceIsRunning sys i w)) = heap w
         /\ log (fst (WaitInstanceIsRunning sys i w)) = log w ++ polls this k
         /\ waitOutcome sys this (now w) (log w) 1 60 k (WaitInstanceIsRunning sys i w))
      /\ (now (fst (WaitInstanceIsRunning sys i w)) <= now w + 1 * Minute)%Z
      /\ ((forall j, answerAfter sys this (log w) j = inr false) ->
          snd (WaitInstanceIsRunning sys i w)
          = Fail (E ErrWaitingForInstanceTimeout [PStr (k8sName this)])
          /\ now (fst (WaitInstanceIsRunning sys i w)) = (now w + 1 * Minute)%Z)
      /\ (forall j,
            (j < 59)%nat ->
            (forall j', (j' < j)%nat -> answerAfter sys this (log w) j' = inr false) ->
            (answerAfter sys this (log w) j = inr true ->
             snd (WaitInstanceIsRunning sys i w) = Ok tt
             /\ now (fst (WaitInstanceIsRunning sys i w))
                = (now w + Z.of_nat (S j) * Second)%Z)
            /\ (forall e,
                  answerAfter sys this (log w) j = inl e ->
                  snd (WaitInstanceIsRunning sys i w)
                  = Fail (Wrap (E ErrCheckingIfInstanceRunning
                                  [PStr (k8sName this)]) e)
                  /\ now (fst (WaitInstanceIsRunning sys i w))
                     = (now w + Z.of_nat (S j) * Second)%Z))).
Proof.
  intros Hi. split.
  { intros Hne. unfold WaitInstanceIsRunning.
    rewrite (bind_load _ _ _ _ Hi), IsInState_Started,
      bool_decide_eq_false_2, bind_check_false by assumption.
    reflexivity. }
  intros Hst. rewrite (WaitInstanceIsRunning_started sys w i this Hi Hst).
  destruct (waitLoop_run sys i this (now w) 60 1%Z w Hi Hst) as (k & Hk & Hheap & Hlog & Hout);
    [lia | lia | lia |].
  split; [exists k; repeat (split; [assumption |]); exact Hout |].
  destruct Hout as [(Hr & Hk1 & Ht & Hlast & Hbefore)
                   | [(Hr & Hk1 & Ht & Hbefore)
                     | (e & Hr & Hk1 & Ht & Hlast & Hbefore)]].
  - (* ended by an answer "running" *)
    split; [rewrite Ht; unfold Minute, Second; lia |]. split.
    + intros Hall. rewrite Hall in Hlast. discriminate.
    + intros j Hj Hfalse.
      assert (answerAfter sys this (log w) j ≠ inr false -> j = (k - 1)%nat) as Hj'.
      { intros Hnf. destruct (Nat.lt_trichotomy j (k - 1)) as [Hlt | [Heq | Hgt]].
        - exfalso. apply Hnf, Hbefore. lia.
        - exact Heq.
        - rewrite (Hfalse (k - 1)%nat Hgt) in Hlast. discriminate. }
      split.
      * intros Hans. rewrite Hj' by (rewrite Hans; discriminate).
        split; [exact Hr | rewrite Ht; unfold Second; lia].
      * intros e Hans. rewrite Hj' in Hans by (rewrite Hans; discriminate).
        rewrite Hans in Hlast. discriminate.
  - (* ended by the timer *)
    split; [rewrite Ht; unfold Minute, Second; lia |]. split.
    + intros _. split; [exact Hr | rewrite Ht; unfold Minute; lia].
    + intros j Hj Hfalse. split.
      * intros Hans. rewrite Hbefore in Hans by lia. discriminate.
      * intros e Hans. rewrite Hbefore in Hans by lia. discriminate.
  - (* ended by a query that failed *)
    split; [rewrite Ht; unfold Minute, Second; lia |]. split.
    + intros Hall. rewrite Hall in Hlast. discriminate.
    + intros j Hj Hfalse.
      assert (answerAfter sys this (log w) j ≠ inr false -> j = (k - 1)%nat) as Hj'.
      { intros Hnf. destruct (Nat.lt_trichotomy j (k - 1)) as [Hlt | [Heq | Hgt]].
        - exfalso. apply Hnf, Hbefore. lia.
        - exact Heq.
        - rewrite (Hfalse (k - 1)%nat Hgt) in Hlast. discriminate. }
      split.
      * intros Hans. rewrite Hj' in Hans by (rewrite Hans; discriminate).
        rewrite Hans in Hlast. discriminate.
      * intros e' Hans.
        assert (j = (k - 1)%nat) as Hjk by (apply Hj'; rewrite Hans; discriminate).
        subst j. assert (e' = e) as -> by congruence.
        split; [exact Hr | rewrite Ht; unfold Second; lia].
Qed.

Lemma wait_times_out_witness :
  snd (WaitInstanceIsRunning brokenTunnelSys 0%nat (oneInstance webStarted))
  = Fail (E ErrWaitingForInstanceTimeout [PStr "web-7f3a"])
  /\ now (fst (WaitInstanceIsRunning brokenTunnelSys 0%nat (oneInstance webStarted)))
     = (now (oneInstance webStarted) + 1 * Minute)%Z.
Proof.
  destruct (wait_for_running_polls_each_second_for_a_minute brokenTunnelSys
              (oneInstance webStarted) 0%nat webStarted eq_refl) as [_ Hstarted].
  destruct (Hstarted eq_refl) as (_ & _ & Hnever & _).
  apply Hnever. intros j. reflexivity.
Defined.

(** ** Reading a file *)

Lemma GetFileBytes_from_builder (sys : Collaborators) (w : World) (i : ptr)
    (this : Instance) (file : string) (bf : BuilderFactory) :
  heap w !! i = Some this ->
  state this = Preparing \/ state this = Committed ->
  builderFactory this = Some bf ->
  GetFileBytes sys i file w
  = (set_log (log w ++ [EvReadFileFromBuilder file]) w,
     match ReadFileFromBuilder bf file with
     | inr bytes => Ok bytes
     | inl e => Fail (Wrap (E ErrGettingFile [PStr file; PStr (name this)]) e)
     end).
Proof.
  intros Hi Hst Hbf. unfold GetFileBytes. rewrite (bind_load _ _ _ _ Hi).
  assert (IsInState this [Preparing; Committed; Started] = true) as ->
    by (unfold IsInState; destruct Hst as [-> | ->]; reflexivity).
  rewrite bind_check_true.
  assert (bool_decide (state this = Started) = false) as ->
    by (destruct Hst as [-> | ->]; reflexivity).
  cbn [negb]. rewrite Hbf. cbn [deref]. rewrite bind_ret.
  unfold wrapWith, bind, call, orReturnV.
  destruct (ReadFileFromBuilder bf file); reflexivity.
Qed.

Lemma ExecuteCommand_started (sys : Collaborators) (w : World) (i : ptr)
    (this : Instance) (cmd : list string) :
  heap w !! i = Some this ->
  state this = Started ->
  ExecuteCommand sys i cmd w
  = if isSidecar this then
      match parentInstance this with
      | None => (w, Panic)
      | Some pp =>
          match heap w !! pp with
          | None => (w, Panic)
          | Some parent =>
              runInPod sys this cmd (k8sName parent)
                (E ErrExecutingCommandInSidecar
                   [PStrs cmd; PStr (k8sName this); PStr (k8sName parent)]) w
          end
      end
    else
      runInPod sys this cmd (k8sName this)
        (E ErrExecutingCommandInInstance [PStrs cmd; PStr (k8sName this)]) w.
Proof.
  intros Hi Hst. unfold ExecuteCommand. rewrite (bind_load _ _ _ _ Hi).
  assert (IsInState this [Preparing; Started] = true) as ->
    by (unfold IsInState; rewrite Hst; reflexivity).
  rewrite bind_check_true.
  assert (IsInState this [Preparing] = false) as ->
    by (unfold IsInState; rewrite Hst; reflexivity).
  assert (forall target eErr,
            (let* pod :=
               wrapWith (E ErrGettingPodFromReplicaSet [PStr (k8sName this)])
                 (let* r := call (EvGetFirstPodFromReplicaSet target)
                                 (fun l => GetFirstPodFromReplicaSet sys l target) in
                  orReturnV r) in
             wrapWith eErr
               (let* r := call (EvRunCommandInPod pod (k8sName this)
                                  ["/bin/sh"; "-c"; String.concat " " cmd])
                               (fun l => RunCommandInPod sys l pod (k8sName this)
                                           ["/bin/sh"; "-c"; String.concat " " cmd]) in
                orReturnV r)) w
            = runInPod sys this cmd target eErr w) as Hrun.
  { intros target eErr. unfold runInPod, bind, wrapWith, call, orReturnV. cbn.
    destruct (GetFirstPodFromReplicaSet sys (log w) target) as [e | pod];
      [reflexivity |]. cbn.
    destruct (RunCommandInPod sys _ pod (k8sName this) _); reflexivity. }
  destruct (isSidecar this).
  - destruct (parentInstance this) as [pp |]; cbn [deref].
    + rewrite bind_bind, bind_ret.
      destruct (heap w !! pp) as [parent |] eqn:Hpp.
      * rewrite bind_bind, (bind_load _ _ _ _ Hpp), bind_ret. cbn [fst snd].
        apply Hrun.
      * rewrite bind_bind, (bind_load_nil _ _ _ Hpp). reflexivity.
    + rewrite bind_bind, bind_panic. reflexivity.
  - rewrite bind_ret. cbn [fst snd]. apply Hrun.
Qed.

(** [GetFileBytes] on a started instance is [ExecuteCommand "cat" file],
    its error wrapped twice, its output turned into bytes. *)
Lemma GetFileBytes_started (sys : Collaborators) (w : World) (i : ptr)
    (this : Instance) (file : string) :
  heap w !! i = Some this ->
  state this = Started ->
  GetFileBytes sys i file w
  = (fst (ExecuteCommand sys i ["cat"; file] w),
     match snd (ExecuteCommand sys i ["cat"; file] w) with
     | Ok out => Ok (String.list_byte_of_string out)
     | Fail e =>
         Fail (Wrap (E ErrReadingFile [PStr file; PStr (name this)])
                 (Wrap (E ErrReadingFileFromInstance [PStr file; PStr (name this)]) e))
     | Panic => Panic
     end).
Proof.
  intros Hi Hst. unfold GetFileBytes. rewrite (bind_load _ _ _ _ Hi).
  assert (IsInState this [Preparing; Committed; Started] = true) as ->
    by (unfold IsInState; rewrite Hst; reflexivity).
  rewrite bind_check_true, bool_decide_eq_true_2 by assumption. cbn [negb].
  unfold ReadFileFromRunningInstance. unfold bind at 1. unfold wrapWith at 1.
  rewrite (bind_load _ _ _ _ Hi).
  assert (IsInState this [Started] = true) as ->
    by (unfold IsInState; rewrite Hst; reflexivity).
  rewrite bind_check_true. unfold wrapWith.
  destruct (ExecuteCommand sys i ["cat"; file] w) as [w' [out | e |]]; reflexivity.
Qed.

Lemma runInPod_log (sys : Collaborators) (this : Instance) (cmd : list string)
    (target : string) (eErr : Error) (w : World) :
  exists new,
    log (fst (runInPod sys this cmd target eErr w)) = log w ++ new
    /\ Forall (fun ev => isClusterEvent ev = true) new
    /\ new ≠ [].
Proof.
  unfold runInPod. destruct (GetFirstPodFromReplicaSet sys (log w) target).
  - eexists. split; [reflexivity |]. split; [repeat constructor | discriminate].
  - eexists. cbn [fst log set_log]. rewrite <- app_assoc.
    split; [reflexivity |]. split; [repeat constructor | discriminate].
Qed.

Lemma GetFileBytes_from_cluster (sys : Collaborators) (w : World) (i : ptr)
    (this : Instance) (file : string) :
  heap w !! i = Some this ->
  state this = Started ->
  (exists new,
     log (fst (GetFileBytes sys i file w)) = log w ++ new
     /\ Forall (fun ev => isClusterEvent ev = true) new)
  /\ (forall e, snd (GetFileBytes sys i file w) = Fail e ->
        err_code e = ErrReadingFile)
  /\ (isSidecar this = false ->
      GetFileBytes sys i file w
      = (fst (runInPod sys this ["cat"; file] (k8sName this)
                (E ErrExecutingCommandInInstance
                   [PStrs ["cat"; file]; PStr (k8sName this)]) w),
         match snd (runInPod sys this ["cat"; file] (k8sName this)
                      (E ErrExecutingCommandInInstance
                         [PStrs ["cat"; file]; PStr (k8sName this)]) w)
         with
         | Ok out => Ok (String.list_byte_of_string out)
         | Fail e =>
             Fail (Wrap (E ErrReadingFile [PStr file; PStr (name this)])
                     (Wrap (E ErrReadingFileFromInstance
                              [PStr file; PStr (name this)]) e))
         | Panic => Panic
         end)).
Proof.
  intros Hi Hst. rewrite (GetFileBytes_started sys w i this file Hi Hst).
  rewrite (ExecuteCommand_started sys w i this _ Hi Hst). cbn [fst snd].
  split; [| split].
  - destruct (isSidecar this).
    + destruct (parentInstance this) as [pp |];
        [destruct (heap w !! pp) as [parent |] |].
      * destruct (runInPod_log sys this ["cat"; file] (k8sName parent)
                    (E ErrExecutingCommandInSidecar
                       [PStrs ["cat"; file]; PStr (k8sName this);
                        PStr (k8sName parent)]) w) as (new & Hl & Hall & _).
        exists new. split; assumption.
      * exists []. rewrite app_nil_r. split; [reflexivity | constructor].
      * exists []. rewrite app_nil_r. split; [reflexivity | constructor].
    + destruct (runInPod_log sys this ["cat"; file] (k8sName this)
                  (E ErrExecutingCommandInInstance
                     [PStrs ["cat"; file]; PStr (k8sName this)]) w)
        as (new & Hl & Hall & _).
      exists new. split; assumption.
  - intros e.
    match goal with |- match ?r with _ => _ end = _ -> _ =>
      destruct r as [out | e' |] end;
      intros H; [discriminate | | discriminate].
    injection H as <-. reflexivity.
  - intros ->. reflexivity.
Qed.

Lemma cluster_event_not_builder (ev : Event) :
  isClusterEvent ev = true -> isBuilderEvent ev = false.
Proof. destruct ev; cbn; congruence. Qed.

Lemma GetFileBytes_no_builder (sys : Collaborators) (w : World) (i : ptr)
    (this : Instance) (file : string) :
  heap w !! i = Some this ->
  state this = Preparing \/ state this = Committed ->
  builderFactory this = None ->
  GetFileBytes sys i file w = (w, Panic).
Proof.
  intros Hi Hst Hbf. unfold GetFileBytes. rewrite (bind_load _ _ _ _ Hi).
  assert (IsInState this [Preparing; Committed; Started] = true) as ->
    by (unfold IsInState; destruct Hst as [-> | ->]; reflexivity).
  rewrite bind_check_true.
  assert (bool_decide (state this = Started) = false) as ->
    by (destruct Hst as [-> | ->]; reflexivity).
  cbn [negb]. rewrite Hbf. reflexivity.
Qed.

(** C10.  [GetFileBytes] is refused, with the state-violation error, in
    None and in Stopped, and in no other state.  In Preparing and in
    Committed the file is read from the build context: the one request made
    is [ReadFileFromBuilder], none goes to the cluster.  In Started the
    file is read from the running instance: every request goes to the
    cluster (the first pod is looked up and "cat file" is run in the
    container), none to the builder. *)
Theorem GetFileBytes_reads_the_builder_until_started
    (sys : Collaborators) (w : World) (i : ptr) (this : Instance) (file : string) :
  heap w !! i = Some this ->
  (state this = StateNone \/ state this = Stopped ->
     GetFileBytes sys i file w
     = (w, Fail (E ErrGettingFileNotAllowed (stateParam this))))
  /\ (state this = Preparing \/ state this = Committed ->
      forall bf, builderFactory this = Some bf ->
        GetFileBytes sys i file w
        = (set_log (log w ++ [EvReadFileFromBuilder file]) w,
           match ReadFileFromBuilder bf file with
           | inr bytes => Ok bytes
           | inl e => Fail (Wrap (E ErrGettingFile [PStr file; PStr (name this)]) e)
           end)
        /\ isClusterEvent (EvReadFileFromBuilder file) = false)
  /\ (state this = Started ->
      (exists new,
         log (fst (GetFileBytes sys i file w)) = log w ++ new
         /\ Forall (fun ev => isClusterEvent ev = true) new
         /\ Forall (fun ev => isBuilderEvent ev = false) new)
      /\ (isSidecar this = false ->
          GetFileBytes sys i file w
          = (fst (runInPod sys this ["cat"; file] (k8sName this)
                    (E ErrExecutingCommandInInstance
                       [PStrs ["cat"; file]; PStr (k8sName this)]) w),
             match snd (runInPod sys this ["cat"; file] (k8sName this)
                          (E ErrExecutingCommandInInstance
                             [PStrs ["cat"; file]; PStr (k8sName this)]) w)
             with
             | Ok out => Ok (String.list_byte_of_string out)
             | Fail e =>
                 Fail (Wrap (E ErrReadingFile [PStr file; PStr (name this)])
                         (Wrap (E ErrReadingFileFromInstance
                                  [PStr file; PStr (name this)]) e))
             | Panic => Panic
             end)))
  /\ (state this = Preparing \/ state this = Committed \/ state this = Started ->
      forall e, snd (GetFileBytes sys i file w) = Fail e ->
        err_code e ≠ ErrGettingFileNotAllowed).
Proof.
  intros Hi. split; [| split; [| split]].
  - intros Hst. unfold GetFileBytes. rewrite (bind_load _ _ _ _ Hi).
    assert (IsInState this [Preparing; Committed; Started] = false) as ->
      by (unfold IsInState; destruct Hst as [-> | ->]; reflexivity).
    rewrite bind_check_false. reflexivity.
  - intros Hst bf Hbf. split; [| reflexivity].
    exact (GetFileBytes_from_builder sys w i this file bf Hi Hst Hbf).
  - intros Hst.
    destruct (GetFileBytes_from_cluster sys w i this file Hi Hst)
      as ((new & Hlog & Hall) & _ & Heq).
    split; [| exact Heq].
    exists new. split; [exact Hlog |]. split; [exact Hall |].
    eapply Forall_impl; [exact Hall |]. intros ev. apply cluster_event_not_builder.
  - intros [Hst | [Hst | Hst]] e He.
    + destruct (builderFactory this) as [bf |] eqn:Hbf.
      * rewrite (GetFileBytes_from_builder sys w i this file bf Hi (or_introl Hst) Hbf)
          in He.
        cbn [snd] in He. destruct (ReadFileFromBuilder bf file); [| discriminate].
        injection He as <-. discriminate.
      * rewrite (GetFileBytes_no_builder sys w i this file Hi (or_introl Hst) Hbf) in He.
        discriminate.
    + destruct (builderFactory this) as [bf |] eqn:Hbf.
      * rewrite (GetFileBytes_from_builder sys w i this file bf Hi (or_intror Hst) Hbf)
          in He.
        cbn [snd] in He. destruct (ReadFileFromBuilder bf file); [| discriminate].
        injection He as <-. discriminate.
      * rewrite (GetFileBytes_no_builder sys w i this file Hi (or_intror Hst) Hbf) in He.
        discriminate.
    + destruct (GetFileBytes_from_cluster sys w i this file Hi Hst) as (_ & Hcode & _).
      rewrite (Hcode e He). discriminate.
Qed.

Lemma GetFileBytes_committed_witness :
  GetFileBytes quietSys 0%nat "/etc/app.conf" (oneInstance webBuilt)
  = (set_log [EvReadFileFromBuilder "/etc/app.conf"] (oneInstance webBuilt), Ok [])
  /\ isClusterEvent (EvReadFileFromBuilder "/etc/app.conf") = false.
Proof.
  destruct (GetFileBytes_reads_the_builder_until_started quietSys
              (oneInstance webBuilt) 0%nat webBuilt "/etc/app.conf" eq_refl)
    as (_ & Hbuilder & _).
  exact (Hbuilder (or_intror eq_refl) changedBuilder eq_refl).
Defined.

(** * Properties of the service client *)

Section ServiceClient.

Import k8s.

Lemma fold_left_snoc {A B} (g : B -> A) (l : list B) (acc : list A) :
  fold_left (fun ports port => ports ++ [g port]) l acc = acc ++ (g <$> l).
Proof.
  revert acc. induction l as [| b l IH]; intros acc; cbn.
  - by rewrite app_nil_r.
  - rewrite IH, <- app_assoc. reflexivity.
Qed.

Lemma buildPorts_eq (tcp udp : list Z) :
  buildPorts tcp udp
  = ((fun port => mkServicePort ("tcp-" +:+ pretty port) ProtocolTCP (int32 port)
                                (FromInt port) 0) <$> tcp)
    ++ ((fun port => mkServicePort ("udp-" +:+ pretty port) ProtocolUDP (int32 port)
                                   (FromInt port) 0) <$> udp).
Proof. unfold buildPorts. rewrite !fold_left_snoc. reflexivity. Qed.

Lemma buildPorts_length (tcp udp : list Z) :
  length (buildPorts tcp udp) = length tcp + length udp.
Proof. rewrite buildPorts_eq, length_app, !length_fmap. reflexivity. Qed.

Lemma int32_in_range (p : Z) : (- 2 ^ 31 <= p < 2 ^ 31)%Z -> int32 p = p.
Proof. intros H. unfold int32. rewrite Z.mod_small by lia. lia. Qed.

(** X1.  The names that [buildPorts] gives are pairwise different when no port
    is listed twice for the same protocol: a TCP and a UDP port of the same
    number get different names. *)
Theorem buildPorts_names_are_distinct (tcp udp : list Z) :
  NoDup tcp -> NoDup udp -> NoDup (Name <$> buildPorts tcp udp).
Proof.
  intros Ht Hu. rewrite buildPorts_eq, fmap_app, <- !list_fmap_compose.
  apply NoDup_app. split; [| split].
  - apply NoDup_fmap_2_strong; [| assumption].
    intros p q _ _ H. cbn in H. by apply (inj pretty), (inj (String.append "tcp-")).
  - intros s Hs Hs'.
    apply list_elem_of_fmap in Hs as (p & -> & _).
    apply list_elem_of_fmap in Hs' as (q & H & _). cbn in H. discriminate H.
  - apply NoDup_fmap_2_strong; [| assumption].
    intros p q _ _ H. cbn in H. by apply (inj pretty), (inj (String.append "udp-")).
Qed.

Lemma buildPorts_names_are_distinct_witness :
  NoDup (Name <$> buildPorts [80; 443]%Z [53; 80]%Z).
Proof.
  apply (buildPorts_names_are_distinct [80; 443]%Z [53; 80]%Z); compute_done.
Defined.

(** X2.  Ports that fit in 32 bits come out of [buildPorts] as they went in: the
    TCP ports first, then the UDP ports, each in the order given, with the
    port itself as target. *)
Theorem buildPorts_keeps_the_ports_in_order (tcp udp : list Z) :
  Forall (fun p => - 2 ^ 31 <= p < 2 ^ 31)%Z (tcp ++ udp) ->
  Port <$> buildPorts tcp udp = tcp ++ udp
  /\ TargetPort <$> buildPorts tcp udp = IntValue <$> (tcp ++ udp)
  /\ Protocol <$> buildPorts tcp udp
     = replicate (length tcp) ProtocolTCP ++ replicate (length udp) ProtocolUDP.
Proof.
  intros Hr. rewrite buildPorts_eq, !fmap_app, <- !list_fmap_compose.
  apply Forall_app in Hr as [Ht Hu].
  assert (forall l, Forall (fun p => - 2 ^ 31 <= p < 2 ^ 31)%Z l ->
                    int32 <$> l = l) as Hid.
  { intros l Hl. induction Hl as [| p l Hp _ IH]; cbn; [reflexivity |].
    by rewrite IH, int32_in_range. }
  assert (forall (s : string) (l : list Z), (fun _ => s) <$> l = replicate (length l) s)
    as Hconst.
  { intros s l. induction l as [| p l IH]; cbn; [reflexivity | by rewrite IH]. }
  split; [| split].
  - change ((int32 <$> tcp) ++ (int32 <$> udp) = tcp ++ udp).
    by rewrite (Hid _ Ht), (Hid _ Hu).
  - change (((IntValue ∘ int32) <$> tcp) ++ ((IntValue ∘ int32) <$> udp)
            = (IntValue <$> tcp) ++ (IntValue <$> udp)).
    by rewrite !list_fmap_compose, (Hid _ Ht), (Hid _ Hu).
  - change (((fun _ => ProtocolTCP) <$> tcp) ++ ((fun _ => ProtocolUDP) <$> udp)
            = replicate (length tcp) ProtocolTCP ++ replicate (length udp) ProtocolUDP).
    by rewrite !Hconst.
Qed.

Lemma buildPorts_keeps_the_ports_in_order_witness :
  Port <$> buildPorts [80; 443]%Z [53]%Z = [80; 443; 53]%Z
  /\ TargetPort <$> buildPorts [80; 443]%Z [53]%Z = IntValue <$> [80; 443; 53]%Z
  /\ Protocol <$> buildPorts [80; 443]%Z [53]%Z
     = [ProtocolTCP; ProtocolTCP; ProtocolUDP].
Proof.
  apply (buildPorts_keeps_the_ports_in_order [80; 443]%Z [53]%Z).
  repeat constructor; lia.
Defined.

(** A port that does not fit in 32 bits is cut down to its low 32 bits,
    while its name keeps the number as given. *)
Lemma buildPorts_cuts_a_wide_port :
  (fun p => (Name p, Port p)) <$> buildPorts [4294967376%Z] []
  = [("tcp-4294967376", 80%Z)].
Proof. reflexivity. Qed.

(** X3.  [prepareService] in full: which inputs it refuses, with which error (the
    namespace is looked at first, then the name, then the ports), and what
    the service is that it builds. *)
Theorem prepareService_outcomes (ns name : string)
    (labels selectorMap : option (gmap string string)) (tcp udp : list Z) :
  match prepareService ns name labels selectorMap tcp udp with
  | inl e =>
      (ns = EmptyString /\ e = New_ ErrNamespaceRequired)
      \/ (ns <> EmptyString /\ name = EmptyString /\ e = New_ ErrServiceNameRequired)
      \/ (ns <> EmptyString /\ name <> EmptyString /\ tcp = [] /\ udp = []
          /\ e = E ErrNoPortsSpecified [PStr name])
  | inr svc =>
      ns <> EmptyString /\ name <> EmptyString /\ (tcp <> [] \/ udp <> [])
      /\ Namespace (Meta svc) = ns
      /\ ObjectMeta_Name (Meta svc) = name
      /\ Labels (Meta svc) = Some (default ∅ labels)
      /\ Selector (Spec svc) = Some (default ∅ selectorMap)
      /\ Type_ (Spec svc) = ServiceTypeClusterIP
      /\ ExternalIPs (Spec svc) = []
      /\ Ports (Spec svc) = buildPorts tcp udp
      /\ length (Ports (Spec svc)) = length tcp + length udp
  end.
Proof.
  unfold prepareService.
  destruct (bool_decide (ns = EmptyString)) eqn:Hns.
  { apply bool_decide_eq_true in Hns. left. split; [assumption | reflexivity]. }
  apply bool_decide_eq_false in Hns.
  destruct (bool_decide (name = EmptyString)) eqn:Hname.
  { apply bool_decide_eq_true in Hname. right. left.
    split; [assumption |]. split; [assumption | reflexivity]. }
  apply bool_decide_eq_false in Hname.
  destruct (bool_decide (length (buildPorts tcp udp) = 0%nat)) eqn:Hp.
  - apply bool_decide_eq_true in Hp. rewrite buildPorts_length in Hp.
    right. right. destruct tcp, udp; try discriminate Hp. repeat split; assumption.
  - apply bool_decide_eq_false in Hp. rewrite buildPorts_length in Hp.
    split; [assumption |]. split; [assumption |]. split.
    { destruct tcp; [| left; discriminate]. destruct udp; [| right; discriminate].
      contradiction Hp. reflexivity. }
    cbn. repeat split; try (destruct labels; reflexivity);
      try (destruct selectorMap; reflexivity).
    apply buildPorts_length.
Qed.

Lemma prepareService_refuses (ns name : string)
    (labels selectorMap : option (gmap string string)) (tcp udp : list Z) :
  ns = EmptyString \/ name = EmptyString \/ (tcp = [] /\ udp = []) ->
  exists e, prepareService ns name labels selectorMap tcp udp = inl e.
Proof.
  intros H. unfold prepareService.
  destruct (bool_decide (ns = EmptyString)) eqn:Hns; [eauto |].
  destruct (bool_decide (name = EmptyString)) eqn:Hname; [eauto |].
  apply bool_decide_eq_false in Hns, Hname.
  destruct H as [H | [H | [-> ->]]]; [contradiction | contradiction |].
  cbn. eauto.
Qed.

Lemma prepareService_accepts (ns name : string)
    (labels selectorMap : option (gmap string string)) (tcp udp : list Z) :
  ns <> EmptyString -> name <> EmptyString -> tcp ++ udp <> [] ->
  exists svc, prepareService ns name labels selectorMap tcp udp = inr svc.
Proof.
  intros Hns Hname Hports. unfold prepareService.
  rewrite !bool_decide_eq_false_2 by assumption.
  rewrite bool_decide_eq_false_2; [eauto |].
  rewrite buildPorts_length. destruct tcp, udp; cbn; try lia. by contradiction Hports.
Qed.

(** ** Lemmas on the calls of the client *)

Lemma k8s_bind_Ok_inv {A B} (m : M A) (k : A -> M B) (l l' : list Request) (b : B) :
  bind m k l = (l', Ok b) ->
  exists l1 a, m l = (l1, Ok a) /\ k a l1 = (l', Ok b).
Proof.
  unfold bind. destruct (m l) as [l1 [a | e |]]; intros H;
    [eauto | discriminate | discriminate].
Qed.

Lemma GetService_eq (c : Client) (name : string) (l : list Request) :
  GetService c name l
  = (l ++ [ReqGet (namespace c) name],
     match Get (clientset c) l (namespace c) name with
     | inl err => Fail (Wrap (E ErrGettingService [PStr name]) err)
     | inr svc => Ok svc
     end).
Proof.
  unfold GetService, wrapWith, bind, request, orReturnV.
  destruct (Get (clientset c) l (namespace c) name); reflexivity.
Qed.

(** X4.  A service with an empty namespace, an empty name or no port at all is
    never sent to the API server: [CreateService] and [PatchService] fail
    with the error of [prepareService] wrapped, and make no request.  Any
    other service is sent in exactly one request, as [prepareService] built
    it, and the answer of the server is the result. *)
Theorem only_a_prepared_service_is_sent (c : Client) (name : string)
    (labels selectorMap : option (gmap string string)) (tcp udp : list Z)
    (l : list Request) :
  (namespace c = EmptyString \/ name = EmptyString \/ (tcp = [] /\ udp = []) ->
   exists e,
     prepareService (namespace c) name labels selectorMap tcp udp = inl e
     /\ CreateService c name labels selectorMap tcp udp l
        = (l, Fail (Wrap (E ErrPreparingService [PStr name]) e))
     /\ PatchService c name labels selectorMap tcp udp l
        = (l, Fail (Wrap (E ErrPreparingService [PStr name]) e)))
  /\ (namespace c <> EmptyString -> name <> EmptyString -> tcp ++ udp <> [] ->
      exists svc,
        prepareService (namespace c) name labels selectorMap tcp udp = inr svc
        /\ CreateService c name labels selectorMap tcp udp l
           = (l ++ [ReqCreate (namespace c) svc],
              match Create (clientset c) l (namespace c) svc with
              | inl err => Fail (Wrap (E ErrCreatingService [PStr name]) err)
              | inr made => Ok made
              end)
        /\ PatchService c name labels selectorMap tcp udp l
           = (l ++ [ReqUpdate (namespace c) svc],
              match Update (clientset c) l (namespace c) svc with
              | inl err => Fail (Wrap (E ErrPatchingService [PStr name]) err)
              | inr made => Ok made
              end)).
Proof.
  unfold CreateService, PatchService. split.
  - intros H.
    destruct (prepareService_refuses (namespace c) name labels selectorMap tcp udp H)
      as [e He].
    exists e. rewrite He. repeat split.
  - intros Hns Hname Hports.
    destruct (prepareService_accepts (namespace c) name labels selectorMap tcp udp
                Hns Hname Hports) as [svc Hsvc].
    exists svc. rewrite Hsvc. split; [reflexivity |].
    unfold wrapWith, bind, request, orReturnV, ret. cbn. split.
    + destruct (Create (clientset c) l (namespace c) svc); reflexivity.
    + destruct (Update (clientset c) l (namespace c) svc); reflexivity.
Qed.

Lemma only_a_prepared_service_is_sent_witness :
  (exists e,
     CreateService (mkClient (steadyCluster (sampleService "ClusterIP" [])) "test")
                   "web" None None [] [] []
     = ([], Fail (Wrap (E ErrPreparingService [PStr "web"]) e)))
  /\ (exists svc,
        fst (CreateService (mkClient (steadyCluster (sampleService "ClusterIP" [])) "test")
                           "web" None None [80%Z] [] [])
        = [ReqCreate "test" svc]).
Proof.
  destruct (only_a_prepared_service_is_sent
              (mkClient (steadyCluster (sampleService "ClusterIP" [])) "test")
              "web" None None [] [] []) as [Hbad _].
  destruct (only_a_prepared_service_is_sent
              (mkClient (steadyCluster (sampleService "ClusterIP" [])) "test")
              "web" None None [80%Z] [] []) as [_ Hgood].
  split.
  - destruct Hbad as (e & _ & Hc & _); [right; right; split; reflexivity |].
    exists e. exact Hc.
  - destruct Hgood as (svc & _ & Hc & _); [discriminate | discriminate | discriminate |].
    exists svc. rewrite Hc. reflexivity.
Defined.

(** X5.  When the service cannot be got, every function that looks it up first
    stops there: the one request made is the lookup, so [DeleteService]
    deletes nothing.  The error is [ErrGettingService] around the cause; in
    [DeleteService], [GetServiceIP] and [isServiceReady], which go through
    [GetService] and wrap its error again, it is wrapped twice. *)
Theorem failed_lookup_ends_the_call (c : Client) (name : string)
    (l : list Request) (err : Error) :
  Get (clientset c) l (namespace c) name = inl err ->
  let l1 := l ++ [ReqGet (namespace c) name] in
  let once := Wrap (E ErrGettingService [PStr name]) err in
  let twice := Wrap (E ErrGettingService [PStr name]) once in
  GetService c name l = (l1, Fail once)
  /\ DeleteService c name l = (l1, Fail twice)
  /\ GetServiceIP c name l = (l1, Fail twice)
  /\ isServiceReady c name l = (l1, Fail twice)
  /\ GetServiceEndpoint c name l = (l1, Fail once).
Proof.
  intros Hget. cbv zeta.
  assert (GetService c name l
          = (l ++ [ReqGet (namespace c) name],
             Fail (Wrap (E ErrGettingService [PStr name]) err))) as Hg
    by (rewrite GetService_eq, Hget; reflexivity).
  split; [exact Hg |].
  unfold DeleteService, GetServiceIP, isServiceReady, GetServiceEndpoint.
  split; [| split; [| split]].
  - unfold bind, wrapWith at 1. rewrite Hg. reflexivity.
  - unfold bind, wrapWith at 1. rewrite Hg. reflexivity.
  - unfold bind, wrapWith at 1. rewrite Hg. reflexivity.
  - unfold bind, wrapWith, request, orReturnV. rewrite Hget. reflexivity.
Qed.

Lemma failed_lookup_ends_the_call_witness :
  DeleteService (mkClient emptyCluster "test") "web" []
  = ([ReqGet "test" "web"],
     Fail (Wrap (E ErrGettingService [PStr "web"])
             (Wrap (E ErrGettingService [PStr "web"]) (New_ (Foreign "not found"))))).
Proof.
  apply (failed_lookup_ends_the_call (mkClient emptyCluster "test") "web" []
           (New_ (Foreign "not found"))).
  reflexivity.
Defined.

Lemma nodeIPOf_eq (addresses : list NodeAddress) :
  nodeIPOf addresses
  = default EmptyString
      (Address <$> head (filter (fun a => AddressType a = "ExternalIP") addresses)).
Proof.
  induction addresses as [| a rest IH]; [reflexivity |].
  cbn [nodeIPOf]. rewrite filter_cons.
  destruct (decide (AddressType a = "ExternalIP")) as [Ha | Ha].
  - rewrite bool_decide_eq_true_2 by assumption. reflexivity.
  - rewrite bool_decide_eq_false_2 by assumption. exact IH.
Qed.

(** X6.  The endpoint of a service that was found, by the type of the service:
    a load balancer gives its first ingress address, a node-port service
    the first address of type "ExternalIP" of the first node (the empty
    string when the node has none) with the node port, any other service
    its cluster address; the port is that of the first service port.  The
    nodes are listed for a node-port service only.  When the service has no
    port at all, taking the first one is a run-time panic. *)
Theorem GetServiceEndpoint_by_type (c : Client) (name : string)
    (l : list Request) (srv : Service) :
  Get (clientset c) l (namespace c) name = inr srv ->
  let l1 := l ++ [ReqGet (namespace c) name] in
  let endpoint (host : string) (number : ServicePort -> Z) : Res string :=
    match head (Ports (Spec srv)) with
    | Some p => Ok (host +:+ ":" +:+ pretty (number p))
    | None => Panic
    end in
  GetServiceEndpoint c name l
  = if decide (Type_ (Spec srv) = "LoadBalancer") then
      (l1, match head (LoadBalancer_Ingress (Status srv)) with
           | Some ingress => endpoint (IP ingress) Port
           | None => Fail (New_ ErrLoadBalancerIPNotAvailable)
           end)
    else if decide (Type_ (Spec srv) = "NodePort") then
      (l1 ++ [ReqNodesList],
       match NodesList (clientset c) l1 with
       | inl err => Fail (Wrap (New_ ErrGettingNodes) err)
       | inr nodes =>
           match head nodes with
           | Some node =>
               endpoint
                 (default EmptyString
                    (Address <$> head (filter (fun a => AddressType a = "ExternalIP")
                                              (Status_Addresses node))))
                 NodePort
           | None => Fail (New_ ErrNoNodesFound)
           end
       end)
    else (l1, endpoint (ClusterIP (Spec srv)) Port).
Proof.
  intros Hget. cbv zeta. unfold GetServiceEndpoint.
  unfold bind at 1. unfold wrapWith at 1. unfold bind at 1. unfold request, orReturnV.
  rewrite Hget. cbn [ret].
  change ServiceTypeLoadBalancer with "LoadBalancer".
  change ServiceTypeNodePort with "NodePort".
  destruct (decide (Type_ (Spec srv) = "LoadBalancer")) as [Hlb | Hlb].
  { rewrite bool_decide_eq_true_2 by assumption.
    destruct (LoadBalancer_Ingress (Status srv)) as [| ingress ?]; [reflexivity |].
    cbn. destruct (Ports (Spec srv)); reflexivity. }
  rewrite bool_decide_eq_false_2 by assumption.
  destruct (decide (Type_ (Spec srv) = "NodePort")) as [Hnp | Hnp].
  { rewrite bool_decide_eq_true_2 by assumption.
    unfold bind at 1. unfold wrapWith at 1. unfold bind at 1. unfold orReturnV.
    destruct (NodesList (clientset c) (l ++ [ReqGet (namespace c) name]))
      as [err | nodes]; [reflexivity |].
    destruct nodes as [| node nodes]; [reflexivity |].
    cbn -[nodeIPOf]. rewrite bool_decide_eq_false_2 by discriminate.
    unfold bind at 1. unfold ret at 1. rewrite nodeIPOf_eq.
    destruct (Ports (Spec srv)); reflexivity. }
  rewrite bool_decide_eq_false_2 by assumption.
  destruct (Ports (Spec srv)); reflexivity.
Qed.

Lemma GetServiceEndpoint_by_type_witness :
  GetServiceEndpoint (mkClient (steadyCluster (sampleService "ClusterIP" [])) "test")
                     "web" []
  = ([ReqGet "test" "web"], Ok "10.0.0.7:80").
Proof.
  apply (GetServiceEndpoint_by_type
           (mkClient (steadyCluster (sampleService "ClusterIP" [])) "test") "web" []
           (sampleService "ClusterIP" [])).
  reflexivity.
Defined.

(** A node-port service on a node that has no external address: the
    endpoint has an empty host, and no error is reported. *)
Lemma GetServiceEndpoint_without_external_address :
  let node := mkNode [mkNodeAddress "InternalIP" "192.168.0.4"] in
  let svc := sampleService "NodePort" [] in
  let cluster :=
    {| Get := fun _ _ _ => inr svc;
       Create := Create emptyCluster;
       Update := Update emptyCluster;
       Delete := Delete emptyCluster;
       NodesList := fun _ => inr [node];
       DialTimeout := DialTimeout emptyCluster;
       ctxDone := ctxDone emptyCluster;
       waitRetry := waitRetry emptyCluster |} in
  GetServiceEndpoint (mkClient cluster "test") "web" []
  = ([ReqGet "test" "web"; ReqNodesList], Ok ":0").
Proof. reflexivity. Qed.

(** ** Waiting for a service *)

Lemma isServiceReady_found (c : Client) (name : string) (l : list Request)
    (svc : Service) :
  Get (clientset c) l (namespace c) name = inr svc ->
  Type_ (Spec svc) <> ServiceTypeLoadBalancer ->
  Type_ (Spec svc) <> ServiceTypeNodePort ->
  isServiceReady c name l
  = (l ++ [ReqGet (namespace c) name],
     Ok (0 <? length (ExternalIPs (Spec svc)))%nat).
Proof.
  intros Hget Hlb Hnp. unfold isServiceReady.
  unfold bind, wrapWith. rewrite GetService_eq, Hget.
  rewrite !bool_decide_eq_false_2 by assumption. reflexivity.
Qed.

(** X7.  A service that is neither a load balancer nor a node-port service (the
    type that [prepareService] gives is of this kind) counts as ready only
    when it has external addresses.  While the API server answers every
    lookup with such a service without any, [WaitForService] never returns
    nil, however long it runs: it only repeats the lookup, makes no dial,
    and ends, if at all, with the timeout error when the context is done. *)
Theorem WaitForService_needs_an_external_address (c : Client) (name : string) :
  (forall l, exists svc,
      Get (clientset c) l (namespace c) name = inr svc
      /\ Type_ (Spec svc) <> ServiceTypeLoadBalancer
      /\ Type_ (Spec svc) <> ServiceTypeNodePort
      /\ ExternalIPs (Spec svc) = []) ->
  forall (rounds : nat) (l : list Request),
  exists (n : nat) (r : Res (option unit)),
    (n <= rounds)%nat
    /\ WaitForService rounds c name l
       = (l ++ replicate n (ReqGet (namespace c) name), r)
    /\ (r = Ok None \/ r = Fail (New_ ErrTimeoutWaitingForServiceReady)).
Proof.
  intros Hsvc rounds. unfold WaitForService.
  induction rounds as [| rounds IH]; intros l.
  - exists 0%nat, (Ok None). cbn. rewrite app_nil_r.
    split; [lia |]. split; [reflexivity |]. by left.
  - cbn [waitForServiceLoop]. unfold bind at 1. unfold ask.
    destruct (ctxDone (clientset c) l).
    { exists 0%nat, (Fail (New_ ErrTimeoutWaitingForServiceReady)). cbn.
      rewrite app_nil_r. split; [lia |]. split; [reflexivity |]. by right. }
    destruct (Hsvc l) as (svc & Hget & Hlb & Hnp & Hext).
    unfold bind at 1. unfold wrapWith at 1.
    rewrite (isServiceReady_found c name l svc Hget Hlb Hnp), Hext.
    cbn [length Nat.ltb Nat.leb negb].
    destruct (IH (l ++ [ReqGet (namespace c) name])) as (n & r & Hn & Hrun & Hres).
    exists (S n), r. split; [lia |]. split; [| exact Hres].
    rewrite Hrun, <- app_assoc. reflexivity.
Qed.

Lemma WaitForService_needs_an_external_address_witness :
  exists (n : nat) (r : Res (option unit)),
    (n <= 3)%nat
    /\ WaitForService 3 (mkClient (steadyCluster (sampleService "ClusterIP" [])) "test")
                      "web" []
       = ([] ++ replicate n (ReqGet "test" "web"), r)
    /\ (r = Ok None \/ r = Fail (New_ ErrTimeoutWaitingForServiceReady)).
Proof.
  apply (WaitForService_needs_an_external_address
           (mkClient (steadyCluster (sampleService "ClusterIP" [])) "test") "web").
  intros l. exists (sampleService "ClusterIP" []).
  split; [reflexivity |]. split; [discriminate |]. split; [discriminate | reflexivity].
Defined.

(** X8.  [WaitForService] returns nil only at the end of a pass in which the
    context was not done, the service was ready, its endpoint was found, and
    a dial to that endpoint connected: the dial is the last request made. *)
Theorem WaitForService_returns_after_a_dial (rounds : nat) (c : Client)
    (name : string) (l l' : list Request) :
  WaitForService rounds c name l = (l', Ok (Some tt)) ->
  exists (lr le ld : list Request) (endpoint : string),
    ctxDone (clientset c) lr = false
    /\ isServiceReady c name lr = (le, Ok true)
    /\ GetServiceEndpoint c name le = (ld, Ok endpoint)
    /\ DialTimeout (clientset c) ld "tcp" endpoint (waitRetry (clientset c)) = None
    /\ l' = ld ++ [ReqDial "tcp" endpoint (waitRetry (clientset c))].
Proof.
  unfold WaitForService. revert l.
  induction rounds as [| rounds IH]; intros l H; [discriminate H |].
  cbn [waitForServiceLoop] in H. unfold bind at 1 in H. unfold ask in H.
  destruct (ctxDone (clientset c) l) eqn:Hdone; [discriminate H |].
  unfold bind at 1 in H. unfold wrapWith at 1 in H.
  destruct (isServiceReady c name l) as [le [ready | e |]] eqn:Hready;
    [| discriminate H | discriminate H].
  destruct ready; cbn [negb] in H; [| exact (IH _ H)].
  unfold bind at 1 in H. unfold wrapWith at 1 in H.
  destruct (GetServiceEndpoint c name le) as [ld [endpoint | e |]] eqn:Hep;
    [| discriminate H | discriminate H].
  unfold bind at 1, errorOf, checkServiceConnectivity, bind at 1, request in H.
  destruct (DialTimeout (clientset c) ld "tcp" endpoint (waitRetry (clientset c)))
    eqn:Hdial; cbn in H; [exact (IH _ H) |].
  injection H as <-. exists l, le, ld, endpoint. repeat split; assumption.
Qed.

Lemma WaitForService_returns_after_a_dial_witness :
  exists (lr le ld : list Request) (endpoint : string),
    let c := mkClient (steadyCluster (sampleService "ClusterIP" ["203.0.113.9"])) "test" in
    ctxDone (clientset c) lr = false
    /\ isServiceReady c "web" lr = (le, Ok true)
    /\ GetServiceEndpoint c "web" le = (ld, Ok endpoint)
    /\ DialTimeout (clientset c) ld "tcp" endpoint (waitRetry (clientset c)) = None
    /\ [ReqGet "test" "web"; ReqGet "test" "web"; ReqDial "tcp" "10.0.0.7:80" 5000000000]
       = ld ++ [ReqDial "tcp" endpoint (waitRetry (clientset c))].
Proof.
  apply (WaitForService_returns_after_a_dial 1
           (mkClient (steadyCluster (sampleService "ClusterIP" ["203.0.113.9"])) "test")
           "web" []).
  reflexivity.
Defined.

(** The bound on the passes does not change a result that was reached:
    more passes give the same log and the same result. *)
Lemma WaitForService_more_rounds (rounds extra : nat) (c : Client) (name : string)
    (l l' : list Request) (r : Res (option unit)) :
  WaitForService rounds c name l = (l', r) ->
  r <> Ok None ->
  WaitForService (rounds + extra) c name l = (l', r).
Proof.
  unfold WaitForService. revert l.
  induction rounds as [| rounds IH]; intros l H Hr.
  - cbn in H. injection H as <- <-. contradiction Hr. reflexivity.
  - cbn [waitForServiceLoop Nat.add] in *. unfold bind at 1 in H. unfold bind at 1.
    unfold ask in *. destruct (ctxDone (clientset c) l); [exact H |].
    unfold bind at 1 in H. unfold bind at 1.
    destruct (wrapWith (E ErrCheckingServiceReady [PStr name]) (isServiceReady c name) l)
      as [le [ready | e |]]; [| exact H | exact H].
    destruct (negb ready); [exact (IH _ H Hr) |].
    unfold bind at 1 in H. unfold bind at 1.
    destruct (wrapWith (E ErrGettingServiceEndpoint [PStr name])
                (GetServiceEndpoint c name) le) as [ld [endpoint | e |]];
      [| exact H | exact H].
    unfold bind at 1 in H. unfold bind at 1.
    destruct (errorOf (checkServiceConnectivity (clientset c) endpoint) ld)
      as [ldd [[err |] | e |]]; [exact (IH _ H Hr) | exact H | exact H | exact H].
Qed.

End ServiceClient.

(** * Further properties of the instance operations *)

(** ** Frames of the operations that loop or call each other *)

Section FramesOfLoops.

Context {F : Type} (R : relation F) `{!Reflexive R} `{!Transitive R}.
Context (f : Instance -> F) (sys : Collaborators).

Lemma evolves_setStateForSidecars (l : list ptr) (st : InstanceState) :
  (forall x, R (f x) (f (set_state st x))) ->
  evolves R f (setStateForSidecars l st).
Proof. intros H. induction l as [| p l IH]; cbn; keeps_auto. apply H. Qed.

Lemma evolves_addEachCapability (i : ptr) (l : list string) :
  (forall c x, R (f x) (f (appendCapability c x))) ->
  evolves R f (addEachCapability i l).
Proof. intros H. induction l as [| c l IH]; cbn; keeps_auto. apply H. Qed.

Lemma evolves_AddFile (i : ptr) (src dest chown : string) :
  (forall g x, R (f x) (f (set_fsGroup g x))) ->
  (forall v x, R (f x) (f (set_files v x))) ->
  evolves R f (AddFile sys i src dest chown).
Proof.
  intros Hg Hf. unfold AddFile, checkStateForAddingFile, addFileCommitted.
  keeps_auto; first [apply Hg | apply Hf].
Qed.

Lemma evolves_walkFolder (i : ptr) (src dest chown : string)
    (entries : list WalkEntry) :
  (forall g x, R (f x) (f (set_fsGroup g x))) ->
  (forall v x, R (f x) (f (set_files v x))) ->
  evolves R f (walkFolder sys i src dest chown entries).
Proof.
  intros Hg Hf. induction entries as [| e entries IH]; cbn; keeps_auto.
  apply evolves_AddFile; assumption.
Qed.

End FramesOfLoops.

(** ** What the descriptor mutators leave alone *)

Section FramesOfMutators.

Context (sys : Collaborators).

Ltac unfold_mutators :=
  unfold SetCommand, SetArgs, AddPortTCP, AddPortUDP, AddFolder, AddFileBytes,
    AddVolume, AddVolumeWithOwner, SetMemory, SetCPU, SetEnvironmentVariable,
    AddPolicyRule, SetLivenessProbe, SetReadinessProbe, SetStartupProbe,
    SetOtelCollectorVersion, SetOtelEndpoint, SetPrometheusEndpoint,
    SetJaegerEndpoint, SetOtlpExporter, SetJaegerExporter, SetPrometheusExporter,
    SetPrometheusRemoteWriteExporter, SetPrivileged, AddCapability, AddCapabilities,
    EnableBitTwister, DisableBitTwister, validateStateForObsy, checkStateForProbe,
    checkStateForAddingFile.

Ltac frame_of_mutator :=
  unfold_mutators; keeps_auto;
  first [ apply evolves_AddFile; order_side; intros; reflexivity
        | apply evolves_walkFolder; order_side; intros; reflexivity
        | apply evolves_addEachCapability; order_side; intros; reflexivity ].

Lemma core_kept_by_mutator (m : Mutator) (i : ptr) : keeps core (runMutator sys m i).
Proof. destruct m; cbn [runMutator]; frame_of_mutator. Qed.

Lemma ports_kept_by_mutator (m : Mutator) (i : ptr) :
  (forall p, m <> MAddPortTCP p) ->
  (forall p, m <> MAddPortUDP p) ->
  keeps ports (runMutator sys m i).
Proof.
  intros H1 H2. destruct m; cbn [runMutator];
    try (exfalso; eapply H1; reflexivity);
    try (exfalso; eapply H2; reflexivity);
    frame_of_mutator.
Qed.

End FramesOfMutators.

(** ** Frames of the other operations, and of sequences of operations *)

Lemma evolves_weaken {F G : Type} (R : relation G) (f : Instance -> F)
    (g : Instance -> G) {A} (m : M A) :
  (forall x x', f x = f x' -> R (g x) (g x')) ->
  keeps f m -> evolves R g m.
Proof.
  intros Himp Hk w p x Hp. destruct (Hk w p x Hp) as (x' & Hx' & Heq).
  exists x'. split; [assumption | by apply Himp].
Qed.

Section FramesOfOperations.

Context {F : Type} (R : relation F) `{!Reflexive R} `{!Transitive R}.
Context (f : Instance -> F) (sys : Collaborators).

Hypothesis Hstate : forall st x, R (f x) (f (set_state st x)).
Hypothesis Himage : forall n x, R (f x) (f (set_imageName n x)).
Hypothesis Hattach : forall i s, evolves R f (AddSidecar i s).
Hypothesis Hmutate : forall m i, evolves R f (runMutator sys m i).

Lemma evolves_Commit (i : ptr) : evolves R f (Commit sys i).
Proof. unfold Commit. keeps_auto; first [apply Himage | apply Hstate]. Qed.

Lemma evolves_StartWithoutWait (i : ptr) : evolves R f (StartWithoutWait sys i).
Proof.
  unfold StartWithoutWait, startCommitted, checkSidecarStartable,
    addOtelCollectorSidecar, addBitTwisterSidecar.
  keeps_auto;
    first [ apply Hattach
          | apply Hstate
          | apply evolves_setStateForSidecars; order_side; apply Hstate
          | apply evolves_deployResourcesOf; typeclasses eauto
          | apply evolves_deployPodOf; typeclasses eauto
          | apply evolves_applyFunctionToInstances; order_side; intros ?;
            first [ apply evolves_deployResourcesOf; typeclasses eauto
                  | keeps_auto ] ].
Qed.

Lemma evolves_Stop (i : ptr) : evolves R f (Stop sys i).
Proof.
  unfold Stop, destroyPodOf. keeps_auto;
    first [ apply Hstate | apply evolves_setStateForSidecars; order_side; apply Hstate ].
Qed.

Lemma evolves_operation (op : Operation) (w : World) :
  relField R f w (worldAfter sys op w).
Proof.
  destruct op; cbn [worldAfter].
  - apply Hmutate.
  - apply evolves_Commit.
  - apply Hattach.
  - apply evolves_StartWithoutWait.
  - apply evolves_StartWithoutWait.
  - assert (evolves R f (Start sys i)) as H; [| apply H].
    unfold Start. keeps_auto;
      [apply evolves_StartWithoutWait
      | apply evolves_WaitInstanceIsRunning; typeclasses eauto].
  - apply evolves_IsRunning; typeclasses eauto.
  - apply evolves_WaitInstanceIsRunning; typeclasses eauto.
  - apply evolves_Stop.
  - apply evolves_ExecuteCommand; typeclasses eauto.
  - assert (evolves R f (ReadFileFromRunningInstance sys i filePath)) as H; [| apply H].
    unfold ReadFileFromRunningInstance. keeps_auto.
    apply evolves_ExecuteCommand; typeclasses eauto.
  - assert (evolves R f (GetFileBytes sys i file)) as H; [| apply H].
    unfold GetFileBytes, ReadFileFromRunningInstance. keeps_auto.
    apply evolves_ExecuteCommand; typeclasses eauto.
  - assert (evolves R f (PortForwardTCP sys i port)) as H; [| apply H].
    unfold PortForwardTCP. keeps_auto.
    apply evolves_forwardAttempts; typeclasses eauto.
  - assert (evolves R f (SetBandwidthLimit sys i limit)) as H; [| apply H].
    unfold SetBandwidthLimit. keeps_auto.
  - assert (evolves R f (SetLatencyAndJitter sys i latency jitter)) as H; [| apply H].
    unfold SetLatencyAndJitter. keeps_auto.
  - assert (evolves R f (SetPacketLoss sys i packetLoss)) as H; [| apply H].
    unfold SetPacketLoss. keeps_auto.
Qed.

Lemma evolves_runAll (ops : list Operation) (w : World) :
  relField R f w (runAll sys ops w).
Proof.
  revert w. induction ops as [| op ops IH]; intros w; cbn.
  - apply relField_refl; assumption.
  - eapply relField_trans; [assumption | apply evolves_operation | apply IH].
Qed.

End FramesOfOperations.

(** ** Ports: registered once, and for good *)

#[local] Instance portsGrow_refl : Reflexive portsGrow.
Proof. intros [a b]. repeat split; auto. Qed.

#[local] Instance portsGrow_trans : Transitive portsGrow.
Proof.
  intros [a1 b1] [a2 b2] [a3 b3] [[H1 H2] [H3 H4]] [[H5 H6] [H7 H8]]. cbn in *.
  repeat split; cbn; [by etrans | by etrans | auto | auto].
Qed.

Lemma existsb_eqb_false (port : Z) (l : list Z) :
  existsb (Z.eqb port) l = false -> port ∉ l.
Proof.
  induction l as [| q l IH]; cbn; intros H; [apply not_elem_of_nil |].
  apply orb_false_iff in H as [Hq Hl]. apply not_elem_of_cons. split.
  - by apply Z.eqb_neq.
  - by apply IH.
Qed.

Lemma existsb_eqb_true (port : Z) (l : list Z) :
  existsb (Z.eqb port) l = true -> port ∈ l.
Proof.
  induction l as [| q l IH]; cbn; intros H; [discriminate |].
  apply orb_true_iff in H as [Hq | Hl].
  - apply Z.eqb_eq in Hq as ->. by left.
  - right. by apply IH.
Qed.

Lemma portsGrow_AddPortTCP (sys : Collaborators) (i : ptr) (port : Z) :
  evolves portsGrow ports (AddPortTCP sys i port).
Proof.
  intros w p x Hp. unfold AddPortTCP.
  destruct (heap w !! i) as [this |] eqn:Hi.
  2:{ rewrite (bind_load_nil _ _ _ Hi). exists x. split; [assumption | reflexivity]. }
  rewrite (bind_load _ _ _ _ Hi).
  destruct (IsInState this [Preparing; Committed]).
  2:{ rewrite bind_check_false. exists x. split; [assumption | reflexivity]. }
  rewrite bind_check_true.
  destruct (validatePort sys port); cbn [orReturn].
  { rewrite bind_fail. exists x. split; [assumption | reflexivity]. }
  rewrite bind_ret.
  destruct (isTCPPortRegistered this port) eqn:Hreg; cbn [negb].
  { rewrite bind_check_false. exists x. split; [assumption | reflexivity]. }
  rewrite bind_check_true, (update_at _ _ _ _ Hi). cbn [fst heap set_heap].
  destruct (decide (i = p)) as [-> | Hne].
  - rewrite lookup_insert_eq. eexists. split; [reflexivity |].
    assert (x = this) as -> by congruence.
    split; [split |]; cbn; [by apply prefix_app_r | reflexivity |].
    split; [| auto]. intros Hnd. apply NoDup_app. split; [assumption |].
    split; [| apply NoDup_singleton].
    intros q Hq Hq'. apply list_elem_of_singleton in Hq' as ->.
    by apply (existsb_eqb_false _ _ Hreg).
  - rewrite lookup_insert_ne by assumption. exists x. split; [assumption | reflexivity].
Qed.

Lemma portsGrow_AddPortUDP (sys : Collaborators) (i : ptr) (port : Z) :
  evolves portsGrow ports (AddPortUDP sys i port).
Proof.
  intros w p x Hp. unfold AddPortUDP.
  destruct (heap w !! i) as [this |] eqn:Hi.
  2:{ rewrite (bind_load_nil _ _ _ Hi). exists x. split; [assumption | reflexivity]. }
  rewrite (bind_load _ _ _ _ Hi).
  destruct (IsInState this [Preparing; Committed]).
  2:{ rewrite bind_check_false. exists x. split; [assumption | reflexivity]. }
  rewrite bind_check_true.
  destruct (validatePort sys port); cbn [orReturn].
  { rewrite bind_fail. exists x. split; [assumption | reflexivity]. }
  rewrite bind_ret.
  destruct (isUDPPortRegistered this port) eqn:Hreg; cbn [negb].
  { rewrite bind_check_false. exists x. split; [assumption | reflexivity]. }
  rewrite bind_check_true, (update_at _ _ _ _ Hi). cbn [fst heap set_heap].
  destruct (decide (i = p)) as [-> | Hne].
  - rewrite lookup_insert_eq. eexists. split; [reflexivity |].
    assert (x = this) as -> by congruence.
    split; [split |]; cbn; [reflexivity | by apply prefix_app_r |].
    split; [auto |]. intros Hnd. apply NoDup_app. split; [assumption |].
    split; [| apply NoDup_singleton].
    intros q Hq Hq'. apply list_elem_of_singleton in Hq' as ->.
    by apply (existsb_eqb_false _ _ Hreg).
  - rewrite lookup_insert_ne by assumption. exists x. split; [assumption | reflexivity].
Qed.

Lemma portsGrow_of_eq (x x' : Instance) : ports x = ports x' -> portsGrow (ports x) (ports x').
Proof. intros ->. reflexivity. Qed.

Lemma portsGrow_mutator (sys : Collaborators) (m : Mutator) (i : ptr) :
  evolves portsGrow ports (runMutator sys m i).
Proof.
  destruct m;
    try (apply (evolves_weaken portsGrow ports ports); [apply portsGrow_of_eq |];
         apply ports_kept_by_mutator; intros; discriminate).
  - apply portsGrow_AddPortTCP.
  - apply portsGrow_AddPortUDP.
Qed.

Lemma portsGrow_runAll (sys : Collaborators) (ops : list Operation) (w : World) :
  relField portsGrow ports w (runAll sys ops w).
Proof.
  apply evolves_runAll; try typeclasses eauto.
  - intros st x. reflexivity.
  - intros n x. reflexivity.
  - intros i s. apply (evolves_weaken portsGrow ports ports); [apply portsGrow_of_eq |].
    unfold AddSidecar. keeps_auto.
  - apply portsGrow_mutator.
Qed.

(** X9.  Through any sequence of operations on any instances, whatever each of
    them returns, an instance stays on the heap, every port registered for
    it stays registered (the lists only grow at the end), and a list that
    names no port twice never comes to name one twice. *)
Theorem ports_are_registered_once_and_for_good
    (sys : Collaborators) (ops : list Operation) (w : World) (p : ptr) (x : Instance) :
  heap w !! p = Some x ->
  exists x', heap (runAll sys ops w) !! p = Some x'
    /\ portsTCP x `prefix_of` portsTCP x'
    /\ portsUDP x `prefix_of` portsUDP x'
    /\ (NoDup (portsTCP x) -> NoDup (portsTCP x'))
    /\ (NoDup (portsUDP x) -> NoDup (portsUDP x')).
Proof.
  intros Hp. destruct (portsGrow_runAll sys ops w p x Hp) as (x' & Hx' & H).
  exists x'. split; [assumption |].
  destruct H as [[Ht Hu] [Hnt Hnu]]. cbn in *. repeat split; assumption.
Qed.

Lemma ports_are_registered_once_and_for_good_witness :
  exists x',
    heap (runAll quietSys
            [OMutate (MAddPortTCP 80) 0%nat; OMutate (MAddPortTCP 80) 0%nat;
             OMutate (MAddPortUDP 80) 0%nat; OCommit 0%nat; OStartWithoutWait 0%nat]
            (oneInstance (preparing "web" "web-7f3a"))) !! 0%nat = Some x'
    /\ portsTCP (preparing "web" "web-7f3a") `prefix_of` portsTCP x'
    /\ portsUDP (preparing "web" "web-7f3a") `prefix_of` portsUDP x'
    /\ (NoDup (portsTCP (preparing "web" "web-7f3a")) -> NoDup (portsTCP x'))
    /\ (NoDup (portsUDP (preparing "web" "web-7f3a")) -> NoDup (portsUDP x')).
Proof.
  apply (ports_are_registered_once_and_for_good quietSys _
           (oneInstance (preparing "web" "web-7f3a")) 0%nat (preparing "web" "web-7f3a")).
  reflexivity.
Defined.

(** The sequence of the example leaves "web" started with TCP port 80 and
    UDP port 80, each once: the second registration of TCP port 80 was
    refused. *)
Lemma ports_after_the_example :
  (fun x => (state x, portsTCP x, portsUDP x))
    <$> heap (runAll quietSys
                [OMutate (MAddPortTCP 80) 0%nat; OMutate (MAddPortTCP 80) 0%nat;
                 OMutate (MAddPortUDP 80) 0%nat; OCommit 0%nat; OStartWithoutWait 0%nat]
                (oneInstance (preparing "web" "web-7f3a"))) !! 0%nat
  = Some (Started, [80%Z], [80%Z]).
Proof. vm_compute. reflexivity. Qed.

(** ** Names and sidecar links are permanent *)

#[local] Instance staysSidecar_refl : Reflexive staysSidecar.
Proof. intros x H. split; [assumption | reflexivity]. Qed.

#[local] Instance staysSidecar_trans : Transitive staysSidecar.
Proof.
  intros x y z Hxy Hyz H. destruct (Hxy H) as [Hy Hp]. destruct (Hyz Hy) as [Hz Hq].
  split; [assumption | congruence].
Qed.

Lemma staysSidecar_of_core (x x' : Instance) : core x = core x' -> staysSidecar x x'.
Proof. intros [= _ _ _ _ _ Hs Hp _] H. split; congruence. Qed.

Lemma names_of_core (x x' : Instance) : core x = core x' -> names x = names x'.
Proof. intros [= Hn Hk _ _ _ _ _ _]. unfold names. congruence. Qed.

(** [AddSidecar] writes to the parent, which is no sidecar, and to the
    candidate, which was none before: an instance that is a sidecar already
    is left as it is. *)
Lemma staysSidecar_AddSidecar (i : ptr) (s : option ptr) :
  evolves staysSidecar (fun x => x) (AddSidecar i s).
Proof.
  intros w p x Hp. unfold AddSidecar.
  destruct (heap w !! i) as [this |] eqn:Hi.
  2:{ rewrite (bind_load_nil _ _ _ Hi). exists x. split; [assumption | reflexivity]. }
  rewrite (bind_load _ _ _ _ Hi).
  destruct (IsInState this [Preparing; Committed]).
  2:{ rewrite bind_check_false. exists x. split; [assumption | reflexivity]. }
  rewrite bind_check_true. destruct s as [s |].
  2:{ exists x. split; [assumption | reflexivity]. }
  destruct (bool_decide (s = i)) eqn:Hsi; cbn [negb].
  { rewrite bind_check_false. exists x. split; [assumption | reflexivity]. }
  apply bool_decide_eq_false in Hsi. rewrite bind_check_true.
  destruct (heap w !! s) as [sc |] eqn:Hs.
  2:{ rewrite (bind_load_nil _ _ _ Hs). exists x. split; [assumption | reflexivity]. }
  rewrite (bind_load _ _ _ _ Hs).
  destruct (bool_decide (state sc = Committed)).
  2:{ rewrite bind_check_false. exists x. split; [assumption | reflexivity]. }
  rewrite bind_check_true.
  destruct (isSidecar this) eqn:Hps; cbn [negb].
  { rewrite bind_check_false. exists x. split; [assumption | reflexivity]. }
  rewrite bind_check_true.
  destruct (isSidecar sc) eqn:Hss; cbn [negb].
  { rewrite bind_check_false. exists x. split; [assumption | reflexivity]. }
  rewrite bind_check_true, (bind_update _ _ _ _ _ Hi).
  assert (heap (set_heap (<[i := set_sidecars (sidecars this ++ [s]) this]> (heap w)) w)
            !! s = Some sc) as Hs1.
  { cbn. rewrite lookup_insert_ne by congruence. assumption. }
  rewrite (bind_update _ _ _ _ _ Hs1).
  match goal with |- context [update s ?g ?w1] =>
    assert (heap w1 !! s = Some (set_isSidecar true sc)) as Hs2
      by (cbn; apply lookup_insert_eq);
    rewrite (update_at s g _ w1 Hs2)
  end.
  cbn [fst heap set_heap].
  destruct (decide (s = p)) as [-> | Hne].
  - rewrite lookup_insert_eq. eexists. split; [reflexivity |].
    assert (x = sc) as -> by congruence. intros H. congruence.
  - rewrite lookup_insert_ne, lookup_insert_ne by assumption.
    destruct (decide (i = p)) as [-> | Hne'].
    + rewrite lookup_insert_eq. eexists. split; [reflexivity |].
      assert (x = this) as -> by congruence. intros H. congruence.
    + rewrite lookup_insert_ne by assumption. exists x. split; [assumption | reflexivity].
Qed.

Lemma staysSidecar_runAll (sys : Collaborators) (ops : list Operation) (w : World) :
  relField staysSidecar (fun x => x) w (runAll sys ops w).
Proof.
  apply evolves_runAll; try typeclasses eauto.
  - intros st x H. split; [exact H | reflexivity].
  - intros n x H. split; [exact H | reflexivity].
  - apply staysSidecar_AddSidecar.
  - intros m i. apply (evolves_weaken staysSidecar core (fun x => x));
      [apply staysSidecar_of_core | apply core_kept_by_mutator].
Qed.

Lemma names_runAll (sys : Collaborators) (ops : list Operation) (w : World) :
  relField eq names w (runAll sys ops w).
Proof.
  apply evolves_runAll; try typeclasses eauto.
  - intros st x. reflexivity.
  - intros n x. reflexivity.
  - intros i s. unfold AddSidecar. keeps_auto.
  - intros m i. apply (evolves_weaken eq core names);
      [apply names_of_core | apply core_kept_by_mutator].
Qed.

(** X10.  Through any sequence of operations, whatever each of them returns, no
    instance is renamed (neither its name nor its cluster name changes),
    and an instance that is a sidecar stays a sidecar of the same parent:
    nothing detaches a sidecar or moves it to another parent. *)
Theorem names_and_sidecar_links_are_permanent
    (sys : Collaborators) (ops : list Operation) (w : World) (p : ptr) (x : Instance) :
  heap w !! p = Some x ->
  exists x', heap (runAll sys ops w) !! p = Some x'
    /\ name x' = name x
    /\ k8sName x' = k8sName x
    /\ (isSidecar x = true ->
        isSidecar x' = true /\ parentInstance x' = parentInstance x).
Proof.
  intros Hp.
  destruct (names_runAll sys ops w p x Hp) as (x' & Hx' & Hn).
  destruct (staysSidecar_runAll sys ops w p x Hp) as (x'' & Hx'' & Hs).
  assert (x'' = x') as -> by congruence.
  exists x'. split; [assumption |].
  injection Hn as Hn Hk. split; [congruence |]. split; [congruence | exact Hs].
Qed.

Lemma names_and_sidecar_links_are_permanent_witness :
  exists x',
    heap (runAll quietSys
            [OStartWithoutWait 0%nat; OStop 1%nat; OAddSidecar 1%nat (Some 0%nat);
             OMutate (MSetCommand ["sh"]) 1%nat]
            webWithSidecar) !! 1%nat = Some x'
    /\ name x' = "side"
    /\ k8sName x' = "side-91c2"
    /\ (true = true -> isSidecar x' = true /\ parentInstance x' = Some 0%nat).
Proof.
  apply (names_and_sidecar_links_are_permanent quietSys _ webWithSidecar 1%nat
           (set_parentInstance (Some 0%nat) (set_isSidecar true sideCommitted))).
  reflexivity.
Defined.

(** X11.  No descriptor mutator, on any instance and whatever it returns, changes
    the lifecycle state, the image, the builder, the names or the sidecar
    links of any instance. *)
Theorem mutators_leave_lifecycle_and_links_alone
    (sys : Collaborators) (m : Mutator) (i : ptr) (w : World) (p : ptr) (x : Instance) :
  heap w !! p = Some x ->
  exists x', heap (fst (runMutator sys m i w)) !! p = Some x'
    /\ state x' = state x
    /\ imageName x' = imageName x
    /\ builderFactory x' = builderFactory x
    /\ name x' = name x /\ k8sName x' = k8sName x
    /\ isSidecar x' = isSidecar x
    /\ parentInstance x' = parentInstance x
    /\ sidecars x' = sidecars x.
Proof.
  intros Hp. destruct (core_kept_by_mutator sys m i w p x Hp) as (x' & Hx' & Hc).
  exists x'. split; [assumption |].
  injection Hc as Hn Hk Hst Him Hb Hs Hpi Hsc.
  repeat split; congruence.
Qed.

Lemma mutators_leave_lifecycle_and_links_alone_witness :
  exists x',
    heap (fst (runMutator quietSys (MSetEnvironmentVariable "MODE" "fast") 0%nat
                 (oneInstance webCommitted))) !! 0%nat = Some x'
    /\ state x' = Committed
    /\ imageName x' = imageName webCommitted
    /\ builderFactory x' = builderFactory webCommitted
    /\ name x' = "web" /\ k8sName x' = "web-7f3a"
    /\ isSidecar x' = false
    /\ parentInstance x' = None
    /\ sidecars x' = [].
Proof.
  apply (mutators_leave_lifecycle_and_links_alone quietSys
           (MSetEnvironmentVariable "MODE" "fast") 0%nat (oneInstance webCommitted)
           0%nat webCommitted).
  reflexivity.
Defined.

(** ** Registering a port twice *)

Lemma existsb_eqb_snoc (port : Z) (l : list Z) :
  existsb (Z.eqb port) (l ++ [port]) = true.
Proof. rewrite existsb_app. cbn. rewrite Z.eqb_refl. apply orb_true_iff. right. reflexivity. Qed.

Lemma existsb_eqb_not_in (port : Z) (l : list Z) :
  port ∉ l -> existsb (Z.eqb port) l = false.
Proof.
  intros H. destruct (existsb (Z.eqb port) l) eqn:E; [| reflexivity].
  contradiction H. by apply existsb_eqb_true.
Qed.

Lemma AddPortTCP_Ok_inv (sys : Collaborators) (w w1 : World) (i : ptr)
    (this : Instance) (port : Z) :
  heap w !! i = Some this ->
  AddPortTCP sys i port w = (w1, Ok tt) ->
  IsInState this [Preparing; Committed] = true
  /\ validatePort sys port = None
  /\ isTCPPortRegistered this port = false
  /\ w1 = set_heap (<[i := set_portsTCP (portsTCP this ++ [port]) this]> (heap w)) w.
Proof.
  intros Hi H. unfold AddPortTCP in H. rewrite (bind_load _ _ _ _ Hi) in H.
  apply bind_Ok_inv in H as (w2 & [] & Hc & H). apply check_Ok_inv in Hc as [Hst ->].
  destruct (validatePort sys port); [discriminate H |]. cbn [orReturn] in H.
  rewrite bind_ret in H.
  apply bind_Ok_inv in H as (w2 & [] & Hc & H). apply check_Ok_inv in Hc as [Hreg ->].
  apply negb_true_iff in Hreg.
  rewrite (update_at _ _ _ _ Hi) in H. injection H as <-.
  repeat split; assumption.
Qed.

Lemma AddPortUDP_Ok_inv (sys : Collaborators) (w w1 : World) (i : ptr)
    (this : Instance) (port : Z) :
  heap w !! i = Some this ->
  AddPortUDP sys i port w = (w1, Ok tt) ->
  IsInState this [Preparing; Committed] = true
  /\ validatePort sys port = None
  /\ isUDPPortRegistered this port = false
  /\ w1 = set_heap (<[i := set_portsUDP (portsUDP this ++ [port]) this]> (heap w)) w.
Proof.
  intros Hi H. unfold AddPortUDP in H. rewrite (bind_load _ _ _ _ Hi) in H.
  apply bind_Ok_inv in H as (w2 & [] & Hc & H). apply check_Ok_inv in Hc as [Hst ->].
  destruct (validatePort sys port); [discriminate H |]. cbn [orReturn] in H.
  rewrite bind_ret in H.
  apply bind_Ok_inv in H as (w2 & [] & Hc & H). apply check_Ok_inv in Hc as [Hreg ->].
  apply negb_true_iff in Hreg.
  rewrite (update_at _ _ _ _ Hi) in H. injection H as <-.
  repeat split; assumption.
Qed.

(** X12.  Once [AddPortTCP] has registered a port, registering it again fails
    with the already-registered error and changes nothing, while the same
    number can still be registered as a UDP port; and the other way round
    for [AddPortUDP]: the two lists are independent of each other. *)
Theorem second_registration_of_a_port_is_refused
    (sys : Collaborators) (w w1 : World) (i : ptr) (this : Instance) (port : Z) :
  heap w !! i = Some this ->
  (AddPortTCP sys i port w = (w1, Ok tt) ->
   AddPortTCP sys i port w1 = (w1, Fail (E ErrPortAlreadyRegistered [PInt port]))
   /\ (port ∉ portsUDP this ->
       exists x', AddPortUDP sys i port w1
                  = (set_heap (<[i := x']> (heap w1)) w1, Ok tt)
                  /\ portsTCP x' = portsTCP this ++ [port]
                  /\ portsUDP x' = portsUDP this ++ [port]))
  /\ (AddPortUDP sys i port w = (w1, Ok tt) ->
      AddPortUDP sys i port w1 = (w1, Fail (E ErrUDPPortAlreadyRegistered [PInt port]))
      /\ (port ∉ portsTCP this ->
          exists x', AddPortTCP sys i port w1
                     = (set_heap (<[i := x']> (heap w1)) w1, Ok tt)
                     /\ portsTCP x' = portsTCP this ++ [port]
                     /\ portsUDP x' = portsUDP this ++ [port])).
Proof.
  intros Hi. split; intros H.
  - apply (AddPortTCP_Ok_inv _ _ _ _ _ _ Hi) in H as (Hst & Hv & Hreg & ->).
    assert (heap (set_heap (<[i := set_portsTCP (portsTCP this ++ [port]) this]> (heap w)) w)
              !! i = Some (set_portsTCP (portsTCP this ++ [port]) this)) as Hi1
      by (cbn; apply lookup_insert_eq).
    split.
    + unfold AddPortTCP. rewrite (bind_load _ _ _ _ Hi1).
      change (IsInState (set_portsTCP (portsTCP this ++ [port]) this) [Preparing; Committed])
        with (IsInState this [Preparing; Committed]).
      rewrite Hst, bind_check_true, Hv. cbn [orReturn]. rewrite bind_ret.
      unfold isTCPPortRegistered. cbn [portsTCP set_portsTCP].
      rewrite existsb_eqb_snoc. reflexivity.
    + intros Hu. eexists. split.
      { unfold AddPortUDP. rewrite (bind_load _ _ _ _ Hi1).
        change (IsInState (set_portsTCP (portsTCP this ++ [port]) this)
                  [Preparing; Committed])
          with (IsInState this [Preparing; Committed]).
        rewrite Hst, bind_check_true, Hv. cbn [orReturn]. rewrite bind_ret.
        change (isUDPPortRegistered (set_portsTCP (portsTCP this ++ [port]) this) port)
          with (existsb (Z.eqb port) (portsUDP this)).
        rewrite (existsb_eqb_not_in _ _ Hu). cbn [negb]. rewrite bind_check_true.
        rewrite (update_at _ _ _ _ Hi1). reflexivity. }
      split; reflexivity.
  - apply (AddPortUDP_Ok_inv _ _ _ _ _ _ Hi) in H as (Hst & Hv & Hreg & ->).
    assert (heap (set_heap (<[i := set_portsUDP (portsUDP this ++ [port]) this]> (heap w)) w)
              !! i = Some (set_portsUDP (portsUDP this ++ [port]) this)) as Hi1
      by (cbn; apply lookup_insert_eq).
    split.
    + unfold AddPortUDP. rewrite (bind_load _ _ _ _ Hi1).
      change (IsInState (set_portsUDP (portsUDP this ++ [port]) this) [Preparing; Committed])
        with (IsInState this [Preparing; Committed]).
      rewrite Hst, bind_check_true, Hv. cbn [orReturn]. rewrite bind_ret.
      unfold isUDPPortRegistered. cbn [portsUDP set_portsUDP].
      rewrite existsb_eqb_snoc. reflexivity.
    + intros Hu. eexists. split.
      { unfold AddPortTCP. rewrite (bind_load _ _ _ _ Hi1).
        change (IsInState (set_portsUDP (portsUDP this ++ [port]) this)
                  [Preparing; Committed])
          with (IsInState this [Preparing; Committed]).
        rewrite Hst, bind_check_true, Hv. cbn [orReturn]. rewrite bind_ret.
        change (isTCPPortRegistered (set_portsUDP (portsUDP this ++ [port]) this) port)
          with (existsb (Z.eqb port) (portsTCP this)).
        rewrite (existsb_eqb_not_in _ _ Hu). cbn [negb]. rewrite bind_check_true.
        rewrite (update_at _ _ _ _ Hi1). reflexivity. }
      split; reflexivity.
Qed.

Lemma second_registration_of_a_port_is_refused_witness :
  let w := oneInstance webCommitted in
  let w1 := set_heap (<[0%nat := set_portsTCP [80%Z] webCommitted]> (heap w)) w in
  AddPortTCP quietSys 0%nat 80 w1
  = (w1, Fail (E ErrPortAlreadyRegistered [PInt 80]))
  /\ exists x', AddPortUDP quietSys 0%nat 80 w1
                = (set_heap (<[0%nat := x']> (heap w1)) w1, Ok tt)
                /\ portsTCP x' = [80%Z] /\ portsUDP x' = [80%Z].
Proof.
  cbv zeta.
  destruct (second_registration_of_a_port_is_refused quietSys
              (oneInstance webCommitted)
              (set_heap (<[0%nat := set_portsTCP [80%Z] webCommitted]>
                           (heap (oneInstance webCommitted)))
                        (oneInstance webCommitted))
              0%nat webCommitted 80 eq_refl) as [Htcp _].
  destruct (Htcp eq_refl) as [Hagain Hudp].
  split; [exact Hagain |]. apply Hudp. apply not_elem_of_nil.
Defined.

(** ** Environment variables *)

(** X13.  In Committed, [SetEnvironmentVariable] writes the variable to the map
    of the instance and asks nothing of the builder: the key then holds the
    value, the other keys hold what they held, setting the key again
    replaces the value (the last value is the one kept), and variables with
    different keys can be set in either order.  In Preparing the variable is
    handed to the builder and the map is not written; an error of the
    builder is returned as it is. *)
Theorem environment_variable_goes_to_the_map_or_to_the_builder
    (i : ptr) (key value : string) (w : World) (this : Instance) :
  heap w !! i = Some this ->
  (state this = Committed ->
   exists w' x',
     SetEnvironmentVariable i key value w = (w', Ok tt)
     /\ heap w' !! i = Some x'
     /\ env x' !! key = Some value
     /\ (forall k, k <> key -> env x' !! k = env this !! k)
     /\ log w' = log w
     /\ (forall v2, SetEnvironmentVariable i key v2 w'
                    = SetEnvironmentVariable i key v2 w)
     /\ (forall k2 v2, k2 <> key ->
           fst (SetEnvironmentVariable i k2 v2 w')
           = fst (SetEnvironmentVariable i key value
                    (fst (SetEnvironmentVariable i k2 v2 w)))))
  /\ (state this = Preparing ->
      forall bf, builderFactory this = Some bf ->
        SetEnvironmentVariable i key value w
        = (set_log (log w ++ [EvSetEnvVar key value]) w,
           match SetEnvVar bf key value with
           | Some e => Fail e
           | None => Ok tt
           end)).
Proof.
  intros Hi.
  assert (forall (w0 : World) (x : Instance) (k v : string),
            heap w0 !! i = Some x -> state x = Committed ->
            SetEnvironmentVariable i k v w0
            = (set_heap (<[i := set_env (<[k := v]> (env x)) x]> (heap w0)) w0, Ok tt))
    as Hset.
  { intros w0 x k v Hx Hst. unfold SetEnvironmentVariable.
    rewrite (bind_load _ _ _ _ Hx).
    assert (IsInState x [Preparing; Committed] = true) as ->
      by (apply IsInState_PC_true; by right).
    rewrite bind_check_true, Hst. exact (update_at i _ x w0 Hx). }
  split.
  - intros Hst. eexists. eexists. split; [exact (Hset w this key value Hi Hst) |].
    cbn [heap set_heap]. split; [apply lookup_insert_eq |].
    cbn [env set_env]. split; [apply lookup_insert_eq |].
    split; [intros k Hk; by apply lookup_insert_ne |].
    split; [reflexivity |]. split.
    + intros v2.
      rewrite (Hset w this key v2 Hi Hst).
      rewrite (Hset _ (set_env (<[key := value]> (env this)) this) key v2);
        [| cbn; apply lookup_insert_eq | exact Hst].
      cbn [heap set_heap env set_env].
      rewrite !insert_insert_eq. reflexivity.
    + intros k2 v2 Hk.
      rewrite (Hset w this k2 v2 Hi Hst). cbn [fst].
      rewrite (Hset _ (set_env (<[key := value]> (env this)) this) k2 v2);
        [| cbn; apply lookup_insert_eq | exact Hst].
      rewrite (Hset _ (set_env (<[k2 := v2]> (env this)) this) key value);
        [| cbn; apply lookup_insert_eq | exact Hst].
      cbn [fst heap set_heap env set_env].
      rewrite !insert_insert_eq.
      rewrite (insert_insert_ne (env this) k2 key v2 value) by assumption.
      reflexivity.
  - intros Hst bf Hbf. unfold SetEnvironmentVariable.
    rewrite (bind_load _ _ _ _ Hi).
    assert (IsInState this [Preparing; Committed] = true) as ->
      by (apply IsInState_PC_true; by left).
    rewrite bind_check_true, Hst, Hbf. cbn [deref]. rewrite bind_ret.
    unfold bind, call, orReturn. cbn.
    destruct (SetEnvVar bf key value); reflexivity.
Qed.

Lemma environment_variable_goes_to_the_map_or_to_the_builder_witness :
  (exists w' x',
     SetEnvironmentVariable 0%nat "MODE" "fast" (oneInstance webCommitted) = (w', Ok tt)
     /\ heap w' !! 0%nat = Some x'
     /\ env x' !! "MODE" = Some "fast"
     /\ log w' = [])
  /\ SetEnvironmentVariable 0%nat "MODE" "fast" (oneInstance (preparing "web" "web-7f3a"))
     = (set_log [EvSetEnvVar "MODE" "fast"] (oneInstance (preparing "web" "web-7f3a")),
        Ok tt).
Proof.
  destruct (environment_variable_goes_to_the_map_or_to_the_builder 0%nat "MODE" "fast"
              (oneInstance webCommitted) webCommitted eq_refl) as [Hc _].
  destruct (environment_variable_goes_to_the_map_or_to_the_builder 0%nat "MODE" "fast"
              (oneInstance (preparing "web" "web-7f3a")) (preparing "web" "web-7f3a")
              eq_refl) as [_ Hp].
  split.
  - destruct (Hc eq_refl) as (w' & x' & H1 & H2 & H3 & _ & H5 & _).
    exists w', x'. repeat split; assumption.
  - exact (Hp eq_refl changedBuilder eq_refl).
Defined.

(** ** Capabilities *)

Lemma addEachCapability_at (i : ptr) (caps : list string) (w : World) (x : Instance) :
  heap w !! i = Some x ->
  exists w',
    addEachCapability i caps w = (w', Ok tt)
    /\ heap w'
       = <[i := onSecurity (set_capabilitiesAdd
                              (capabilitiesAdd (securityContext x) ++ caps)) x]> (heap w)
    /\ imageCache w' = imageCache w /\ log w' = log w /\ now w' = now w.
Proof.
  revert w x. induction caps as [| c caps IH]; intros w x Hx.
  - exists w. cbn. rewrite app_nil_r. split; [reflexivity |].
    split; [| repeat split]. symmetry. apply insert_id. assumption.
  - cbn [addEachCapability]. rewrite (bind_update _ _ _ _ _ Hx).
    destruct (IH (set_heap (<[i := appendCapability c x]> (heap w)) w)
                 (appendCapability c x)) as (w' & Hrun & Hheap & Hc & Hl & Hn).
    { cbn. apply lookup_insert_eq. }
    exists w'. split; [exact Hrun |]. split; [| repeat split; assumption].
    rewrite Hheap. cbn [heap set_heap]. rewrite insert_insert_eq.
    unfold appendCapability, onSecurity. cbn. rewrite <- app_assoc. reflexivity.
Qed.

Lemma addEachCapability_app (i : ptr) (a b : list string) (w : World) :
  (let* _ := addEachCapability i a in addEachCapability i b) w
  = addEachCapability i (a ++ b) w.
Proof.
  revert w. induction a as [| c a IH]; intros w; [reflexivity |].
  cbn [addEachCapability app]. rewrite bind_bind. unfold bind at 1. unfold bind at 2.
  destruct (update i (appendCapability c) w) as [w' [[] | e |]];
    [apply IH | reflexivity | reflexivity].
Qed.

(** X14.  In Preparing and in Committed, [AddCapabilities] appends the whole list
    to the capabilities of the instance, in the order given, and writes
    nothing else; an empty list changes nothing; [AddCapability] does what
    [AddCapabilities] does with a list of one; and adding two lists one
    after the other is adding their concatenation. *)
Theorem capabilities_are_appended_in_order
    (i : ptr) (caps : list string) (w : World) (this : Instance) :
  heap w !! i = Some this ->
  state this = Preparing \/ state this = Committed ->
  (exists w',
     AddCapabilities i caps w = (w', Ok tt)
     /\ heap w'
        = <[i := onSecurity (set_capabilitiesAdd
                               (capabilitiesAdd (securityContext this) ++ caps)) this]>
            (heap w)
     /\ imageCache w' = imageCache w /\ log w' = log w /\ now w' = now w)
  /\ AddCapabilities i [] w = (w, Ok tt)
  /\ (forall c, AddCapability i c w = AddCapabilities i [c] w)
  /\ (forall more,
        (let* _ := AddCapabilities i caps in AddCapabilities i more) w
        = AddCapabilities i (caps ++ more) w).
Proof.
  intros Hi Hst. pose proof (IsInState_PC_true this Hst) as Hpc.
  assert (forall l, AddCapabilities i l w = addEachCapability i l w) as Hadd.
  { intros l. unfold AddCapabilities.
    rewrite (bind_load _ _ _ _ Hi), Hpc, bind_check_true. reflexivity. }
  split; [rewrite Hadd; apply addEachCapability_at; assumption |].
  split; [rewrite Hadd; reflexivity |]. split.
  - intros c. rewrite Hadd. unfold AddCapability.
    rewrite (bind_load _ _ _ _ Hi), Hpc, bind_check_true. cbn [addEachCapability].
    unfold bind. destruct (update i (appendCapability c) w) as [w' [[] | e |]];
      reflexivity.
  - intros more. rewrite Hadd.
    destruct (addEachCapability_at i caps w this Hi) as (w1 & Hrun & Hheap & _).
    rewrite (bind_Ok _ _ _ _ _ (eq_trans (Hadd caps) Hrun)).
    assert (heap w1 !! i
            = Some (onSecurity (set_capabilitiesAdd
                                  (capabilitiesAdd (securityContext this) ++ caps)) this))
      as Hi1 by (rewrite Hheap; apply lookup_insert_eq).
    unfold AddCapabilities at 1. rewrite (bind_load _ _ _ _ Hi1).
    change (IsInState (onSecurity _ this) [Preparing; Committed])
      with (IsInState this [Preparing; Committed]).
    rewrite Hpc, bind_check_true.
    rewrite <- (addEachCapability_app i caps more w).
    rewrite (bind_Ok _ _ _ _ _ Hrun). reflexivity.
Qed.

Lemma capabilities_are_appended_in_order_witness :
  exists w',
    AddCapabilities 0%nat ["NET_ADMIN"; "SYS_TIME"] (oneInstance webCommitted)
    = (w', Ok tt)
    /\ heap w'
       = <[0%nat := onSecurity (set_capabilitiesAdd ([] ++ ["NET_ADMIN"; "SYS_TIME"]))
                      webCommitted]> (heap (oneInstance webCommitted))
    /\ imageCache w' = imageCache (oneInstance webCommitted)
    /\ log w' = [] /\ now w' = 0%Z.
Proof.
  apply (capabilities_are_appended_in_order 0%nat ["NET_ADMIN"; "SYS_TIME"]
           (oneInstance webCommitted) webCommitted eq_refl (or_intror eq_refl)).
Defined.

(** ** The temporary file of [AddFileBytes] *)

Lemma bind_call {A B} (ev : Event) (q : list Event -> A) (k : A -> M B) (w : World) :
  bind (call ev q) k w = k (q (log w)) (set_log (log w ++ [ev]) w).
Proof. reflexivity. Qed.

Lemma bind_ask {A B} (q : list Event -> A) (k : A -> M B) (w : World) :
  bind (ask q) k w = k (q (log w)) w.
Proof. reflexivity. Qed.

(** X15.  Once [AddFileBytes] has made its temporary file, the file is removed
    however the call ends -- with nil, with an error of the write, of the
    close or of [AddFile], or in a panic -- and the removal is the last
    request that the call makes.  When the file cannot be made, the error
    of [os.CreateTemp] is returned as it is and nothing is removed. *)
Theorem AddFileBytes_removes_its_temporary_file
    (sys : Collaborators) (i : ptr) (bytes : list Byte.byte) (dest chown : string)
    (w : World) (this : Instance) :
  heap w !! i = Some this ->
  state this = Preparing \/ state this = Committed ->
  match os_CreateTemp sys (log w) with
  | inl e =>
      AddFileBytes sys i bytes dest chown w
      = (set_log (log w ++ [EvFileSystem "CreateTemp" "temp"]) w, Fail e)
  | inr tmpfile =>
      last (log (fst (AddFileBytes sys i bytes dest chown w)))
      = Some (EvFileSystem "Remove" tmpfile)
  end.
Proof.
  intros Hi Hst. unfold AddFileBytes, checkStateForAddingFile.
  rewrite bind_bind, (bind_load _ _ _ _ Hi), (IsInState_PC_true _ Hst), bind_check_true.
  rewrite bind_bind, bind_call.
  destruct (os_CreateTemp sys (log w)) as [e | tmpfile]; cbn [orReturnV];
    [rewrite bind_fail; reflexivity |].
  rewrite bind_ret. unfold deferring.
  match goal with |- context [?body (set_log ?l w)] =>
    destruct (body (set_log l w)) as [w' r] end.
  cbn. apply last_snoc.
Qed.

Lemma AddFileBytes_removes_its_temporary_file_witness :
  last (log (fst (AddFileBytes quietSys 0%nat [] "/etc/app.conf" "0:0"
                    (oneInstance (preparing "web" "web-7f3a")))))
  = Some (EvFileSystem "Remove" "/tmp/temp1").
Proof.
  apply (AddFileBytes_removes_its_temporary_file quietSys 0%nat [] "/etc/app.conf" "0:0"
           (oneInstance (preparing "web" "web-7f3a")) (preparing "web" "web-7f3a")
           eq_refl (or_introl eq_refl)).
Defined.

(** ** A commit that fails *)

(** X16.  A [Commit] that returns an error has written nothing to any instance
    and nothing to the image cache (the state stays Preparing); and after a
    [Commit] that returned nil, a second [Commit] of the same instance is
    refused with the state-violation error naming Committed. *)
Theorem Commit_fails_without_a_trace_and_succeeds_once
    (sys : Collaborators) (i : ptr) (w w' : World) :
  (forall e, Commit sys i w = (w', Fail e) ->
     heap w' = heap w /\ imageCache w' = imageCache w)
  /\ (Commit sys i w = (w', Ok tt) ->
      Commit sys i w' = (w', Fail (E ErrCommittingNotAllowed [PStr "Committed"]))).
Proof.
  split.
  - intros e.
    unfold Commit, bind, load, check, deref, wrapWith, ask, call, orReturnV, orReturn,
      checkImageHashInCache, updateImageCacheWithHash, update, ret, fail, panic.
    intros H. repeat (case_match; simplify_eq/=); split; reflexivity.
  - intros H. pose proof (Commit_Ok_Committed sys i w w' H) as Hc.
    destruct (heap w' !! i) as [x |] eqn:Hx; [| discriminate Hc].
    assert (state x = Committed) as Hst by (cbn in Hc; congruence).
    unfold Commit. rewrite (bind_load _ _ _ _ Hx).
    unfold IsInState, stateParam. rewrite Hst. reflexivity.
Qed.

Lemma Commit_fails_without_a_trace_and_succeeds_once_witness :
  Commit quietSys 0%nat
    (set_heap (<[0%nat := set_state Committed (set_imageName "ttl.sh/web-7f3a"
                                                 (preparing "web" "web-7f3a"))]>
                 (heap (oneInstance (preparing "web" "web-7f3a"))))
       (set_imageCache (<["c0ffee" := "ttl.sh/web-7f3a"]> ∅)
          (set_log [EvGenerateImageHash; EvPushBuilderImage "ttl.sh/web-7f3a"]
             (oneInstance (preparing "web" "web-7f3a")))))
  = (set_heap (<[0%nat := set_state Committed (set_imageName "ttl.sh/web-7f3a"
                                                 (preparing "web" "web-7f3a"))]>
                 (heap (oneInstance (preparing "web" "web-7f3a"))))
       (set_imageCache (<["c0ffee" := "ttl.sh/web-7f3a"]> ∅)
          (set_log [EvGenerateImageHash; EvPushBuilderImage "ttl.sh/web-7f3a"]
             (oneInstance (preparing "web" "web-7f3a")))),
     Fail (E ErrCommittingNotAllowed [PStr "Committed"])).
Proof.
  apply (Commit_fails_without_a_trace_and_succeeds_once quietSys 0%nat
           (oneInstance (preparing "web" "web-7f3a"))).
  reflexivity.
Defined.

(** ** Starting again after a stop *)

Lemma setStateForSidecars_log (l : list ptr) (st : InstanceState) (w : World) :
  log (fst (setStateForSidecars l st w)) = log w.
Proof.
  revert w. induction l as [| p l IH]; intros w; [reflexivity |].
  cbn [setStateForSidecars]. unfold bind, update.
  destruct (heap w !! p); [| reflexivity]. rewrite IH. reflexivity.
Qed.

Lemma setStateForSidecars_absent (l : list ptr) (st : InstanceState) (w : World)
    (q : ptr) :
  heap w !! q = None -> heap (fst (setStateForSidecars l st w)) !! q = None.
Proof.
  revert w. induction l as [| p l IH]; intros w Hq; [assumption |].
  cbn [setStateForSidecars]. unfold bind, update.
  destruct (heap w !! p) eqn:Hp; [| assumption]. apply IH. cbn.
  rewrite lookup_insert_ne; [assumption | congruence].
Qed.

(** [StartWithoutWait] on a stopped instance, step by step. *)
Lemma StartWithoutWait_stopped_eq (sys : Collaborators) (w : World) (i : ptr)
    (this : Instance) :
  heap w !! i = Some this ->
  state this = Stopped ->
  StartWithoutWait sys i w
  = match snd (applyFunctionToInstances (sidecars this) checkSidecarStartable w) with
    | Ok _ =>
        if isSidecar this then (w, Fail (New_ ErrStartingSidecarNotAllowed))
        else
          let w1 := set_log (log w ++ [EvDeployPod (k8sName this)]) w in
          match deployPod sys (log w) this with
          | Some e =>
              (w1, Fail (Wrap (E ErrDeployingPodForInstance [PStr (k8sName this)]) e))
          | None =>
              setStateForSidecars (sidecars this) Started
                (set_heap (<[i := set_state Started this]> (heap w)) w1)
          end
    | Fail e => (w, Fail e)
    | Panic => (w, Panic)
    end.
Proof.
  intros Hi Hst. unfold StartWithoutWait. rewrite (bind_load _ _ _ _ Hi).
  assert (IsInState this [Committed; Stopped] = true) as ->
    by (unfold IsInState; rewrite Hst; reflexivity).
  rewrite bind_check_true.
  destruct (applyFunctionToInstances (sidecars this) checkSidecarStartable w)
    as [w1 r] eqn:Hpre.
  pose proof (precheck_world _ _ _ _ Hpre) as ->. cbn [snd].
  destruct r as [[] | e |];
    [rewrite (bind_Ok _ _ _ _ _ Hpre)
    | rewrite (bind_Fail _ _ _ _ _ Hpre); reflexivity
    | unfold bind; rewrite Hpre; reflexivity].
  destruct (isSidecar this); cbn [negb];
    [rewrite bind_check_false; reflexivity | rewrite bind_check_true].
  assert (bool_decide (state this = Committed) = false) as ->
    by (rewrite Hst; reflexivity).
  rewrite bind_ret, (bind_load _ _ _ _ Hi).
  unfold bind at 1. unfold wrapWith, deployPodOf, bind at 1, call, orReturn.
  destruct (deployPod sys (log w) this); cbn; [reflexivity |].
  match goal with |- context [bind (update i ?g) ?k ?w1] =>
    assert (heap w1 !! i = Some this) as Hi1 by exact Hi;
    rewrite (bind_update i g this k w1 Hi1)
  end.
  reflexivity.
Qed.

(** X17.  [StartWithoutWait] on a stopped instance asks the cluster for the pod
    and for nothing else: no resources are deployed again, and no sidecar
    is made or attached, whatever the observability and fault-injection
    settings are.  No instance is added to the heap and no list of sidecars
    changes. *)
Theorem a_restart_deploys_the_pod_and_nothing_else
    (sys : Collaborators) (w : World) (i : ptr) (this : Instance) :
  heap w !! i = Some this ->
  state this = Stopped ->
  (log (fst (StartWithoutWait sys i w)) = log w
   \/ log (fst (StartWithoutWait sys i w)) = log w ++ [EvDeployPod (k8sName this)])
  /\ (forall q, heap w !! q = None -> heap (fst (StartWithoutWait sys i w)) !! q = None)
  /\ (forall q x, heap w !! q = Some x ->
        exists x', heap (fst (StartWithoutWait sys i w)) !! q = Some x'
                   /\ sidecars x' = sidecars x).
Proof.
  intros Hi Hst. rewrite (StartWithoutWait_stopped_eq sys w i this Hi Hst).
  destruct (snd (applyFunctionToInstances (sidecars this) checkSidecarStartable w))
    as [[] | e |].
  2,3: split; [by left |]; split; [auto | eauto].
  destruct (isSidecar this).
  { split; [by left |]. split; [auto | eauto]. }
  cbv zeta. destruct (deployPod sys (log w) this).
  { split; [by right |]. split; [auto | eauto]. }
  split; [right; rewrite setStateForSidecars_log; reflexivity |]. split.
  - intros q Hq. apply setStateForSidecars_absent. cbn.
    rewrite lookup_insert_ne; [assumption | congruence].
  - intros q x Hq.
    assert (evolves eq sidecars
              (let* _ := update i (set_state Started) in
               setStateForSidecars (sidecars this) Started)) as Hk.
    { keeps_auto. apply evolves_setStateForSidecars; order_side. intros; reflexivity. }
    specialize (Hk (set_log (log w ++ [EvDeployPod (k8sName this)]) w) q x Hq).
    assert (heap (set_log (log w ++ [EvDeployPod (k8sName this)]) w) !! i = Some this)
      as Hi1 by exact Hi.
    rewrite (bind_update _ _ _ _ _ Hi1) in Hk.
    destruct Hk as (x' & Hx' & Heq). eauto.
Qed.

Lemma a_restart_deploys_the_pod_and_nothing_else_witness :
  let w := oneInstance (set_BitTwister (bt_enable defaultBt) (set_state Stopped webNew)) in
  (log (fst (StartWithoutWait quietSys 0%nat w)) = log w
   \/ log (fst (StartWithoutWait quietSys 0%nat w)) = log w ++ [EvDeployPod "web-7f3a"])
  /\ (forall q, heap w !! q = None -> heap (fst (StartWithoutWait quietSys 0%nat w)) !! q = None)
  /\ (forall q x, heap w !! q = Some x ->
        exists x', heap (fst (StartWithoutWait quietSys 0%nat w)) !! q = Some x'
                   /\ sidecars x' = sidecars x).
Proof.
  apply (a_restart_deploys_the_pod_and_nothing_else quietSys
           (oneInstance (set_BitTwister (bt_enable defaultBt) (set_state Stopped webNew)))
           0%nat (set_BitTwister (bt_enable defaultBt) (set_state Stopped webNew)));
    reflexivity.
Defined.

(** ** Stopping and starting again *)

Lemma set_state_same (x : Instance) : set_state (state x) x = x.
Proof. reflexivity. Qed.

Lemma setStateForSidecars_run (l : list ptr) (st : InstanceState) (w : World) :
  (forall p, p ∈ l -> is_Some (heap w !! p)) ->
  exists w',
    setStateForSidecars l st w = (w', Ok tt)
    /\ (forall p, heap w' !! p
                  = if decide (p ∈ l) then set_state st <$> heap w !! p
                    else heap w !! p)
    /\ log w' = log w.
Proof.
  intros Hall. destruct (setStateForSidecars_total l st w Hall) as [w' Hrun].
  exists w'. split; [exact Hrun |]. split.
  - destruct (setStateForSidecars_Ok l st w w' Hrun) as [Hin Hout].
    intros p. destruct (decide (p ∈ l)) as [Hp | Hp].
    + destruct (Hin p Hp) as (x & -> & ->). reflexivity.
    + apply Hout, Hp.
  - pose proof (setStateForSidecars_log l st w) as Hl. rewrite Hrun in Hl. exact Hl.
Qed.

Lemma Stop_started_eq (sys : Collaborators) (w : World) (i : ptr) (this : Instance) :
  heap w !! i = Some this ->
  state this = Started ->
  Stop sys i w
  = let w1 := set_log (log w ++ [EvDestroyPod (k8sName this)]) w in
    match destroyPod sys (log w) this with
    | Some e => (w1, Fail (Wrap (E ErrDestroyingPod [PStr (k8sName this)]) e))
    | None =>
        setStateForSidecars (sidecars this) Stopped
          (set_heap (<[i := set_state Stopped this]> (heap w)) w1)
    end.
Proof.
  intros Hi Hst. unfold Stop. rewrite (bind_load _ _ _ _ Hi).
  rewrite IsInState_Started, bool_decide_eq_true_2, bind_check_true by assumption.
  unfold bind at 1. unfold wrapWith, destroyPodOf, bind at 1, call, orReturn.
  destruct (destroyPod sys (log w) this); cbn; [reflexivity |].
  match goal with |- context [bind (update i ?g) ?k ?w1] =>
    assert (heap w1 !! i = Some this) as Hi1 by exact Hi;
    rewrite (bind_update i g this k w1 Hi1)
  end.
  reflexivity.
Qed.

(** X18.  With a cluster that grants the requests: a started instance whose
    sidecars are all started is stopped by [Stop] and started again by
    [StartWithoutWait], and after the two calls every instance on the heap
    is exactly what it was before them; the cluster was asked to destroy the
    pod and then to deploy it, and nothing else. *)
Theorem stop_and_start_again_restores_every_instance
    (sys : Collaborators) (w : World) (i : ptr) (this : Instance) :
  heap w !! i = Some this ->
  state this = Started ->
  isSidecar this = false ->
  (forall s, s ∈ sidecars this ->
     exists sc, heap w !! s = Some sc /\ state sc = Started) ->
  (forall l x, destroyPod sys l x = None) ->
  (forall l x, deployPod sys l x = None) ->
  exists w1 w2,
    Stop sys i w = (w1, Ok tt)
    /\ state <$> heap w1 !! i = Some Stopped
    /\ StartWithoutWait sys i w1 = (w2, Ok tt)
    /\ heap w2 = heap w
    /\ log w2 = log w ++ [EvDestroyPod (k8sName this); EvDeployPod (k8sName this)].
Proof.
  intros Hi Hst Hns Hall Hdestroy Hdeploy.
  rewrite (Stop_started_eq sys w i this Hi Hst). cbv zeta. rewrite Hdestroy.
  set (wa := set_heap (<[i := set_state Stopped this]> (heap w))
               (set_log (log w ++ [EvDestroyPod (k8sName this)]) w)).
  destruct (setStateForSidecars_run (sidecars this) Stopped wa) as (w1 & Hrun1 & Hh1 & Hl1).
  { intros p Hp. cbn. destruct (decide (i = p)) as [-> | Hne].
    - rewrite lookup_insert_eq. eauto.
    - rewrite lookup_insert_ne by assumption. destruct (Hall p Hp) as (sc & -> & _). eauto. }
  assert (heap w1 !! i = Some (set_state Stopped this)) as Hi1.
  { rewrite Hh1. cbn. rewrite lookup_insert_eq. destruct (decide (i ∈ sidecars this));
      reflexivity. }
  exists w1. rewrite Hrun1.
  rewrite (StartWithoutWait_stopped_eq sys w1 i (set_state Stopped this) Hi1 eq_refl).
  change (sidecars (set_state Stopped this)) with (sidecars this).
  change (isSidecar (set_state Stopped this)) with (isSidecar this).
  change (k8sName (set_state Stopped this)) with (k8sName this).
  rewrite (precheck_passes (sidecars this) w1), Hns, Hdeploy.
  2:{ intros s Hs. rewrite Hh1. rewrite decide_True by assumption. cbn.
      destruct (decide (i = s)) as [-> | Hne].
      - rewrite lookup_insert_eq. eexists. split; reflexivity.
      - rewrite lookup_insert_ne by assumption. destruct (Hall s Hs) as (sc & -> & _).
        eexists. split; reflexivity. }
  cbn [snd]. cbv zeta.
  set (wb := set_heap (<[i := set_state Started (set_state Stopped this)]> (heap w1))
               (set_log (log w1 ++ [EvDeployPod (k8sName this)]) w1)).
  destruct (setStateForSidecars_run (sidecars this) Started wb) as (w2 & Hrun2 & Hh2 & Hl2).
  { intros p Hp. cbn. destruct (decide (i = p)) as [-> | Hne].
    - rewrite lookup_insert_eq. eauto.
    - rewrite lookup_insert_ne by assumption. rewrite Hh1, decide_True by assumption.
      cbn. rewrite lookup_insert_ne by assumption.
      destruct (Hall p Hp) as (sc & -> & _). eauto. }
  exists w2. split; [reflexivity |]. split; [rewrite Hi1; reflexivity |].
  split; [exact Hrun2 |]. split.
  - apply map_eq. intros p. rewrite Hh2. cbn [heap wb set_heap set_log].
    assert (set_state Started (set_state Stopped this) = this) as Hback.
    { rewrite <- Hst. reflexivity. }
    destruct (decide (i = p)) as [<- | Hne].
    + rewrite lookup_insert_eq, Hi. destruct (decide (i ∈ sidecars this)); cbn;
        rewrite ?Hback; [| reflexivity].
      f_equal. rewrite <- Hst. reflexivity.
    + rewrite lookup_insert_ne by assumption. rewrite Hh1. cbn [heap wa set_heap set_log].
      rewrite lookup_insert_ne by assumption.
      destruct (decide (p ∈ sidecars this)) as [Hp | Hp]; [| reflexivity].
      destruct (Hall p Hp) as (sc & Hsc & Hstate). rewrite Hsc. cbn. f_equal.
      rewrite <- Hstate. reflexivity.
  - rewrite Hl2. cbn. rewrite Hl1. cbn. rewrite <- app_assoc. reflexivity.
Qed.

Lemma stop_and_start_again_restores_every_instance_witness :
  exists w1 w2,
    Stop quietSys 0%nat webWithSidecarStarted = (w1, Ok tt)
    /\ state <$> heap w1 !! 0%nat = Some Stopped
    /\ StartWithoutWait quietSys 0%nat w1 = (w2, Ok tt)
    /\ heap w2 = heap webWithSidecarStarted
    /\ log w2 = log webWithSidecarStarted
                ++ [EvDestroyPod "web-7f3a"; EvDeployPod "web-7f3a"].
Proof.
  apply (stop_and_start_again_restores_every_instance quietSys webWithSidecarStarted
           0%nat (set_sidecars [1%nat] webStarted)).
  - reflexivity.
  - reflexivity.
  - reflexivity.
  - intros s Hs. apply list_elem_of_singleton in Hs as ->.
    eexists. split; reflexivity.
  - reflexivity.
  - reflexivity.
Defined.

(** ** Commands in a sidecar *)

Lemma AddSidecar_Ok_inv (w0 w1 : World) (i s : ptr) (parent : Instance) :
  heap w0 !! i = Some parent ->
  AddSidecar i (Some s) w0 = (w1, Ok tt) ->
  s <> i
  /\ exists sc,
       heap w0 !! s = Some sc
       /\ heap w1 !! s = Some (set_parentInstance (Some i) (set_isSidecar true sc))
       /\ heap w1 !! i = Some (set_sidecars (sidecars parent ++ [s]) parent).
Proof.
  intros Hi H. unfold AddSidecar in H. rewrite (bind_load _ _ _ _ Hi) in H.
  apply bind_Ok_inv in H as (w2 & [] & Hc & H). apply check_Ok_inv in Hc as [_ ->].
  apply bind_Ok_inv in H as (w2 & [] & Hc & H). apply check_Ok_inv in Hc as [Hne ->].
  apply negb_true_iff, bool_decide_eq_false in Hne.
  apply bind_Ok_inv in H as (w2 & sc & Hl & H). apply load_Ok_inv in Hl as [-> Hs].
  apply bind_Ok_inv in H as (w2 & [] & Hc & H). apply check_Ok_inv in Hc as [_ ->].
  apply bind_Ok_inv in H as (w2 & [] & Hc & H). apply check_Ok_inv in Hc as [_ ->].
  apply bind_Ok_inv in H as (w2 & [] & Hc & H). apply check_Ok_inv in Hc as [_ ->].
  apply bind_Ok_inv in H as (w2 & [] & Hu & H).
  apply update_Ok_inv in Hu as (x & Hx & ->). assert (x = parent) as -> by congruence.
  apply bind_Ok_inv in H as (w3 & [] & Hu & H).
  apply update_Ok_inv in Hu as (y & Hy & ->). cbn in Hy.
  rewrite lookup_insert_ne in Hy by congruence. assert (y = sc) as -> by congruence.
  apply update_Ok_inv in H as (z & Hz & ->). cbn in Hz.
  rewrite lookup_insert_eq in Hz. injection Hz as <-.
  split; [assumption |]. exists sc. split; [assumption |]. cbn.
  rewrite insert_insert_eq, lookup_insert_eq. split; [reflexivity |].
  rewrite lookup_insert_ne by assumption. apply lookup_insert_eq.
Qed.

(** X19.  An instance attached with [AddSidecar] runs its commands in the pod of
    the parent: whatever operations follow the attachment, once the sidecar
    is started [ExecuteCommand] on it looks up the first pod of the replica
    set named after the parent and runs the command, wrapped in a shell, in
    the container named after the sidecar; an error of the run is the
    sidecar error naming both. *)
Theorem a_sidecar_runs_its_commands_in_the_pod_of_the_parent
    (sys : Collaborators) (ops : list Operation) (w0 w1 : World) (i s : ptr)
    (parent sc : Instance) (cmd : list string) :
  heap w0 !! i = Some parent ->
  AddSidecar i (Some s) w0 = (w1, Ok tt) ->
  heap (runAll sys ops w1) !! s = Some sc ->
  state sc = Started ->
  ExecuteCommand sys s cmd (runAll sys ops w1)
  = runInPod sys sc cmd (k8sName parent)
      (E ErrExecutingCommandInSidecar
         [PStrs cmd; PStr (k8sName sc); PStr (k8sName parent)])
      (runAll sys ops w1).
Proof.
  intros Hi Hadd Hsc Hst.
  destruct (AddSidecar_Ok_inv w0 w1 i s parent Hi Hadd) as (Hne & sc0 & Hs0 & Hs1 & Hi1).
  destruct (staysSidecar_runAll sys ops w1 s _ Hs1) as (sc' & Hsc' & Hlink).
  assert (sc' = sc) as -> by congruence.
  destruct (Hlink eq_refl) as [Hflag Hparent]. cbn in Hparent.
  destruct (names_runAll sys ops w1 i _ Hi1) as (parent' & Hparent' & Hnames).
  injection Hnames as _ Hk. cbn in Hk.
  rewrite (ExecuteCommand_started sys _ s sc cmd Hsc Hst), Hflag, Hparent, Hparent'.
  rewrite <- Hk. reflexivity.
Qed.

Lemma a_sidecar_runs_its_commands_in_the_pod_of_the_parent_witness :
  exists sc,
    heap (runAll quietSys [OStartWithoutWait 0%nat] webWithSidecar) !! 1%nat = Some sc
    /\ ExecuteCommand quietSys 1%nat ["ls"; "/"]
         (runAll quietSys [OStartWithoutWait 0%nat] webWithSidecar)
       = runInPod quietSys sc ["ls"; "/"] "web-7f3a"
           (E ErrExecutingCommandInSidecar
              [PStrs ["ls"; "/"]; PStr (k8sName sc); PStr "web-7f3a"])
           (runAll quietSys [OStartWithoutWait 0%nat] webWithSidecar).
Proof.
  eexists. split; [reflexivity |].
  apply (a_sidecar_runs_its_commands_in_the_pod_of_the_parent quietSys
           [OStartWithoutWait 0%nat] (twoInstances webCommitted sideCommitted)
           webWithSidecar 0%nat 1%nat webCommitted);
    reflexivity.
Defined.

(** What the example asks of the cluster. *)
Lemma sidecar_command_example :
  log (fst (ExecuteCommand quietSys 1%nat ["ls"; "/"]
              (runAll quietSys [OStartWithoutWait 0%nat] webWithSidecar)))
  = [EvDeployResources "web-7f3a"; EvDeployResources "side-91c2"; EvDeployPod "web-7f3a";
     EvGetFirstPodFromReplicaSet "web-7f3a";
     EvRunCommandInPod "web-7f3a-pod" "side-91c2" ["/bin/sh"; "-c"; "ls /"]].
Proof. vm_compute. reflexivity. Qed.

(** ** Files of a committed instance *)

Lemma orReturn_Ok_inv (o : option Error) (w w' : World) (u : unit) :
  orReturn o w = (w', Ok u) -> o = None /\ w' = w.
Proof. destruct o; cbn; intros H; [discriminate |]. injection H as <-. by split. Qed.

Lemma ask_Ok_inv {A} (q : list Event -> A) (w w' : World) (a : A) :
  ask q w = (w', Ok a) -> a = q (log w) /\ w' = w.
Proof. unfold ask. intros H. injection H as <- <-. by split. Qed.

Lemma io_call_Ok_inv (outer : Error) (ev : Event) (q : list Event -> option Error)
    (w w' : World) (u : unit) :
  wrapWith outer (let* r := call ev q in orReturn r) w = (w', Ok u) ->
  q (log w) = None /\ w' = set_log (log w ++ [ev]) w.
Proof.
  intros H. apply wrapWith_Ok_inv in H. rewrite bind_call in H.
  apply orReturn_Ok_inv in H as [-> ->]. by split.
Qed.

Lemma io_ask_Ok_inv (outer : Error) (q : list Event -> option Error)
    (w w' : World) (u : unit) :
  wrapWith outer (let* r := ask q in orReturn r) w = (w', Ok u) ->
  q (log w) = None /\ w' = w.
Proof.
  intros H. apply wrapWith_Ok_inv in H. rewrite bind_ask in H.
  apply orReturn_Ok_inv in H as [-> ->]. by split.
Qed.

(** X20.  When [AddFile] returns nil for a committed instance: the destination
    is under a volume, the owner string has exactly two parts separated by
    a colon, the second is the group as a number, and either no group was
    recorded yet (the recorded group was 0) or the recorded group is this
    one.  The group is recorded and the file is appended to the files of
    the instance; nothing else of any instance is written. *)
Theorem AddFile_in_Committed_records_the_group
    (sys : Collaborators) (w w' : World) (i : ptr) (this : Instance)
    (src dest chown : string) :
  heap w !! i = Some this ->
  state this = Committed ->
  AddFile sys i src dest chown w = (w', Ok tt) ->
  exists owner group g,
    splitColon chown = [owner; group]
    /\ strconv_ParseInt sys group = inr g
    /\ (fsGroup this = 0%Z \/ fsGroup this = g)
    /\ isSubFolderOfVolumes sys this dest = true
    /\ heap w'
       = <[i := set_files
                  (files this
                   ++ [mkFile (filepath_Join sys (getBuildDir sys this) dest) dest])
                  (set_fsGroup g this)]> (heap w).
Proof.
  intros Hi Hst H. unfold AddFile in H.
  apply bind_Ok_inv in H as (w1 & [] & Hc & H).
  unfold checkStateForAddingFile in Hc. rewrite (bind_load _ _ _ _ Hi) in Hc.
  apply check_Ok_inv in Hc as [_ ->].
  rewrite (bind_load _ _ _ _ Hi) in H.
  apply bind_Ok_inv in H as (w1 & [] & Hc & H). apply orReturn_Ok_inv in Hc as [_ ->].
  apply bind_Ok_inv in H as (w1 & st & Hc & H). apply ask_Ok_inv in Hc as [_ ->].
  apply bind_Ok_inv in H as (w1 & [] & Hc & H).
  assert (w1 = w) as ->.
  { destruct st; [| discriminate Hc |]; unfold ret in Hc; congruence. }
  clear Hc.
  apply bind_Ok_inv in H as (w1 & [] & Hc & H). apply io_call_Ok_inv in Hc as [_ ->].
  apply bind_Ok_inv in H as (w2 & [] & Hc & H). apply io_call_Ok_inv in Hc as [_ ->].
  apply bind_Ok_inv in H as (w3 & [] & Hc & H). apply io_ask_Ok_inv in Hc as [_ ->].
  apply bind_Ok_inv in H as (w4 & [] & Hc & H). apply io_call_Ok_inv in Hc as [_ ->].
  rewrite Hst in H. unfold addFileCommitted in H.
  match type of H with _ ?w5 = _ =>
    assert (heap w5 !! i = Some this) as Hi5 by exact Hi;
    assert (heap w5 = heap w) as Hheap by reflexivity;
    generalize dependent w5 end.
  intros w5 H Hi5 Hheap.
  rewrite (bind_load _ _ _ _ Hi5) in H.
  apply bind_Ok_inv in H as (w6 & [] & Hc & H). apply check_Ok_inv in Hc as [Hsub ->].
  apply bind_Ok_inv in H as (w6 & st2 & Hc & H). apply ask_Ok_inv in Hc as [_ ->].
  apply bind_Ok_inv in H as (w6 & [] & Hc & H).
  assert (w6 = w5) as ->.
  { destruct st2 as [[] | |]; try discriminate Hc; unfold ret in Hc; congruence. }
  clear Hc.
  destruct (splitColon chown) as [| owner [| group [| ? ?]]] eqn:Hsplit;
    try discriminate H.
  apply bind_Ok_inv in H as (w6 & g & Hc & H).
  apply wrapWith_Ok_inv in Hc.
  destruct (strconv_ParseInt sys group) as [e | g'] eqn:Hparse; [discriminate Hc |].
  cbn in Hc. unfold ret in Hc. injection Hc as <- <-.
  apply bind_Ok_inv in H as (w6 & [] & Hc & H). apply check_Ok_inv in Hc as [Hgrp ->].
  rewrite (bind_update _ _ _ _ _ Hi5) in H.
  match type of H with update i ?f ?w7 = _ =>
    assert (heap w7 !! i = Some (set_fsGroup g' this)) as Hi7
      by (cbn; apply lookup_insert_eq);
    rewrite (update_at i f _ w7 Hi7) in H end.
  injection H as <-.
  exists owner, group, g'. split; [reflexivity |]. split; [exact Hparse |]. split.
  - apply negb_true_iff, andb_false_iff in Hgrp as [Hz | Hg].
    + left. apply negb_false_iff, Z.eqb_eq in Hz. exact Hz.
    + right. apply negb_false_iff, Z.eqb_eq in Hg. exact Hg.
  - split; [exact Hsub |]. cbn. rewrite insert_insert_eq, Hheap. reflexivity.
Qed.

Lemma AddFile_in_Committed_records_the_group_witness :
  exists owner group g,
    splitColon "10001:0" = [owner; group]
    /\ strconv_ParseInt quietSys group = inr g
    /\ (fsGroup webCommitted = 0%Z \/ fsGroup webCommitted = g)
    /\ isSubFolderOfVolumes quietSys webCommitted "/data/app.conf" = true
    /\ heap (fst (AddFile quietSys 0%nat "app.conf" "/data/app.conf" "10001:0"
                    (oneInstance webCommitted)))
       = <[0%nat := set_files
                      (files webCommitted
                       ++ [mkFile (filepath_Join quietSys
                                     (getBuildDir quietSys webCommitted) "/data/app.conf")
                                  "/data/app.conf"])
                      (set_fsGroup g webCommitted)]> (heap (oneInstance webCommitted)).
Proof.
  apply (AddFile_in_Committed_records_the_group quietSys (oneInstance webCommitted) _
           0%nat webCommitted "app.conf" "/data/app.conf" "10001:0");
    reflexivity.
Defined.

(** The group 0 counts as "none recorded": after a file of group 0, a file
    of another group is accepted, and the instance holds files of two
    groups. *)
Lemma AddFile_after_group_zero_takes_any_group :
  let sys :=
    {| validatePort := validatePort quietSys;
       validateFileArgs := validateFileArgs quietSys;
       getBuildDir := getBuildDir quietSys;
       getImageRegistry := getImageRegistry quietSys;
       isSubFolderOfVolumes := isSubFolderOfVolumes quietSys;
       addFileToBuilder := addFileToBuilder quietSys;
       isObservabilityEnabled := isObservabilityEnabled quietSys;
       createOtelCollectorInstance := createOtelCollectorInstance quietSys;
       createBitTwisterInstance := createBitTwisterInstance quietSys;
       deployResources := deployResources quietSys;
       deployPod := deployPod quietSys;
       destroyPod := destroyPod quietSys;
       GetFirstPodFromReplicaSet := GetFirstPodFromReplicaSet quietSys;
       PortForwardPod := PortForwardPod quietSys;
       RunCommandInPod := RunCommandInPod quietSys;
       IsReplicaSetRunning := IsReplicaSetRunning quietSys;
       BitTwisterClient := BitTwisterClient quietSys;
       getFreePortTCP := getFreePortTCP quietSys;
       os_Stat := os_Stat quietSys;
       os_MkdirAll := os_MkdirAll quietSys;
       os_Create := os_Create quietSys;
       os_Open := os_Open quietSys;
       io_Copy := io_Copy quietSys;
       os_CreateTemp := os_CreateTemp quietSys;
       tmp_Write := tmp_Write quietSys;
       tmp_Close := tmp_Close quietSys;
       filepath_Join := filepath_Join quietSys;
       filepath_Dir := filepath_Dir quietSys;
       filepath_Rel := filepath_Rel quietSys;
       filepath_Walk := filepath_Walk quietSys;
       strconv_ParseInt := fun s => if String.eqb s "0" then inr 0%Z else inr 10001%Z;
       selectTickFirst := selectTickFirst quietSys |} in
  let w1 := fst (AddFile sys 0%nat "a" "/data/a" "0:0" (oneInstance webCommitted)) in
  let r2 := AddFile sys 0%nat "b" "/data/b" "10001:10001" w1 in
  snd r2 = Ok tt
  /\ (fun x => (fsGroup x, Dest <$> files x)) <$> heap (fst r2) !! 0%nat
     = Some (10001%Z, ["/data/a"; "/data/b"]).
Proof. vm_compute. split; reflexivity. Qed.

(** * The address of an instance *)

Lemma deref_Ok_inv {A} (o : option A) (w w' : World) (a : A) :
  deref o w = (w', Ok a) -> o = Some a /\ w' = w.
Proof.
  destruct o; cbn; unfold ret, panic; intros H; [| discriminate].
  injection H as <- <-. by split.
Qed.

(** X21.  Once [GetIP] has returned an address, the address is not empty, the
    instance holds the service it was read from, and every further [GetIP]
    returns the same address from the instance, without asking anything of
    the cluster and without writing anything. *)
Theorem GetIP_answers_from_the_instance_once_the_address_is_known
    (errs : Errors) (h : Helpers) (i : ptr) (w w' : World) (ip : string) :
  GetIP errs h i w = (w', Ok ip) ->
  ip <> EmptyString
  /\ (exists x svc,
        heap w' !! i = Some x /\ kubernetesService x = Some svc /\ ClusterIP svc = ip)
  /\ forall errs' h', GetIP errs' h' i w' = (w', Ok ip).
Proof.
  intros H.
  assert (forall (w0 : World) (x : Instance) (svc : Service),
            heap w0 !! i = Some x -> kubernetesService x = Some svc ->
            ClusterIP svc <> EmptyString ->
            forall errs' h', GetIP errs' h' i w0 = (w0, Ok (ClusterIP svc))) as Hknown.
  { intros w0 x svc Hx Hsvc Hip errs' h'. unfold GetIP.
    rewrite (bind_load _ _ _ _ Hx), Hsvc.
    rewrite bool_decide_eq_false_2 by assumption. reflexivity. }
  unfold GetIP in H.
  apply bind_Ok_inv in H as (w1 & this & Hl & H). apply load_Ok_inv in Hl as [-> Hi].
  destruct (match kubernetesService this with
            | Some known => negb (bool_decide (ClusterIP known = EmptyString))
            | None => false
            end) eqn:Hcached.
  - destruct (kubernetesService this) as [known |] eqn:Hk; [| discriminate Hcached].
    apply negb_true_iff, bool_decide_eq_false in Hcached.
    cbn in H. unfold ret in H. injection H as <- <-.
    split; [assumption |]. split; [eauto |].
    exact (Hknown w this known Hi Hk Hcached).
  - apply bind_Ok_inv in H as (w1 & found & _ & H).
    apply bind_Ok_inv in H as (w2 & osvc & _ & H).
    apply bind_Ok_inv in H as (w3 & svc & Hd & H). apply deref_Ok_inv in Hd as [-> ->].
    cbv zeta in H.
    apply bind_Ok_inv in H as (w3 & cur & Hl & H). apply load_Ok_inv in Hl as [-> Hcur].
    apply bind_Ok_inv in H as (w3 & [] & Hc & H). apply check_Ok_inv in Hc as [Hip ->].
    apply negb_true_iff, bool_decide_eq_false in Hip.
    rewrite (bind_update _ _ _ _ _ Hcur) in H. unfold ret in H. injection H as <- <-.
    split; [assumption |].
    assert (heap (set_heap (<[i := set_kubernetesService (Some svc) cur]> (heap w2)) w2)
              !! i = Some (set_kubernetesService (Some svc) cur)) as Hi'
      by (cbn; apply lookup_insert_eq).
    split; [eauto |].
    exact (Hknown _ _ svc Hi' eq_refl Hip).
Qed.

Lemma GetIP_answers_from_the_instance_once_the_address_is_known_witness :
  "10.0.0.7" <> EmptyString
  /\ (exists x svc,
        heap (fst (GetIP sampleErrors quietHelpers 0%nat (oneInstance webStarted)))
          !! 0%nat = Some x
        /\ kubernetesService x = Some svc /\ ClusterIP svc = "10.0.0.7")
  /\ forall errs' h',
       GetIP errs' h' 0%nat
         (fst (GetIP sampleErrors quietHelpers 0%nat (oneInstance webStarted)))
       = (fst (GetIP sampleErrors quietHelpers 0%nat (oneInstance webStarted)),
          Ok "10.0.0.7").
Proof.
  apply (GetIP_answers_from_the_instance_once_the_address_is_known sampleErrors
           quietHelpers 0%nat (oneInstance webStarted)).
  reflexivity.
Defined.

(** When the service is deployed and the second lookup then gives neither
    a service nor an error, [GetIP] dereferences a nil pointer. *)
Lemma GetIP_panics_on_a_nil_service :
  let h := {| NewBuilderFactory := NewBuilderFactory quietHelpers;
              setImageWithGracePeriod := setImageWithGracePeriod quietHelpers;
              deployService := deployService quietHelpers;
              GetService := fun _ _ _ => inr None;
              runningBesideError := runningBesideError quietHelpers |} in
  GetIP sampleErrors h 0%nat (oneInstance webStarted) = (oneInstance webStarted, Panic).
Proof. reflexivity. Qed.

(** * Waiting for the stop *)

Lemma IsRunning_both_eq (sys : Collaborators) (h : Helpers) (w : World) (i : ptr)
    (this : Instance) :
  heap w !! i = Some this ->
  state this = Stopped ->
  IsRunning_both sys h i w
  = (set_log (log w ++ [EvIsReplicaSetRunning (k8sName this)]) w,
     Ok (reported sys h this (log w) 0)).
Proof.
  intros Hi Hst. unfold IsRunning_both. rewrite (bind_load _ _ _ _ Hi).
  assert (IsInState this [Started; Stopped] = true) as ->
    by (unfold IsInState; rewrite Hst; reflexivity).
  cbn [negb]. rewrite bind_call. unfold reported, polls. cbn [repeat].
  rewrite app_nil_r.
  destruct (IsReplicaSetRunning sys (log w) (k8sName this)); reflexivity.
Qed.

(** [IsRunning] is [IsRunning_both] with the boolean dropped when there is
    an error. *)
Lemma IsRunning_of_both (sys : Collaborators) (h : Helpers) (w : World) (i : ptr) :
  IsRunning sys i w
  = match IsRunning_both sys h i w with
    | (w', Ok (running, None)) => (w', Ok running)
    | (w', Ok (_, Some err)) => (w', Fail err)
    | (w', Fail e) => (w', Fail e)
    | (w', Panic) => (w', Panic)
    end.
Proof.
  unfold IsRunning, IsRunning_both, bind, load, check, call, orReturnV, ret, fail.
  destruct (heap w !! i) as [this |]; [| reflexivity].
  destruct (IsInState this [Started; Stopped]); cbn; [| reflexivity].
  destruct (IsReplicaSetRunning sys (log w) (k8sName this)); reflexivity.
Qed.

Lemma reported_shift (sys : Collaborators) (h : Helpers) (this : Instance)
    (l : list Event) (j : nat) :
  reported sys h this (l ++ [EvIsReplicaSetRunning (k8sName this)]) j
  = reported sys h this l (S j).
Proof. unfold reported. rewrite <- !app_assoc, polls_S_app. reflexivity. Qed.

(** A run of the loop of [WaitInstanceIsStopped]. *)
Lemma waitStoppedLoop_run (errs : Errors) (sys : Collaborators) (h : Helpers)
    (i : ptr) (this : Instance) :
  state this = Stopped ->
  forall (rounds : nat) (w : World),
    heap w !! i = Some this ->
    exists (k : nat) (r : Res (option unit)),
      (k <= rounds)%nat
      /\ waitStoppedLoop errs sys h rounds i w = (set_log (log w ++ polls this k) w, r)
      /\ (forall j, (S j < k)%nat -> reported sys h this (log w) j = (true, None))
      /\ match r with
         | Ok (Some _) =>
             (1 <= k)%nat /\ fst (reported sys h this (log w) (k - 1)) = false
         | Ok None =>
             k = rounds
             /\ forall j, (j < k)%nat -> reported sys h this (log w) j = (true, None)
         | Fail e =>
             (1 <= k)%nat
             /\ exists err,
                  reported sys h this (log w) (k - 1) = (true, Some err)
                  /\ e = Wrap (WithParams (ErrCheckingIfInstanceStopped errs)
                                          [PStr (k8sName this)]) err
         | Panic => False
         end.
Proof.
  intros Hst rounds. induction rounds as [| rounds IH]; intros w Hi.
  - exists 0%nat, (Ok None). cbn. rewrite app_nil_r. split; [lia |].
    split; [by destruct w |]. split; [intros j Hj; lia |].
    split; [reflexivity | intros j Hj; lia].
  - cbn [waitStoppedLoop]. unfold bind at 1.
    rewrite (IsRunning_both_eq sys h w i this Hi Hst).
    set (w1 := set_log (log w ++ [EvIsReplicaSetRunning (k8sName this)]) w).
    destruct (reported sys h this (log w) 0) as [running oerr] eqn:Hrep.
    cbn [fst snd]. destruct running; cbn [negb].
    2:{ exists 1%nat, (Ok (Some tt)). split; [lia |]. split; [reflexivity |].
        split; [intros j Hj; lia |]. split; [lia |]. cbn. rewrite Hrep. reflexivity. }
    destruct oerr as [err |].
    { assert (heap w1 !! i = Some this) as Hi1 by exact Hi.
      rewrite (bind_load _ _ _ _ Hi1). eexists 1%nat, _.
      split; [lia |]. split; [reflexivity |]. split; [intros j Hj; lia |].
      split; [lia |]. exists err. cbn. rewrite Hrep. split; reflexivity. }
    destruct (IH w1 Hi) as (k & r & Hk & Hw & Hbefore & Hout).
    exists (S k), r. split; [lia |]. split.
    { rewrite Hw. cbn. rewrite <- app_assoc. reflexivity. }
    assert (forall j, reported sys h this (log w1) j = reported sys h this (log w) (S j))
      as Hshift by (intros j; apply reported_shift).
    split.
    { intros [| j] Hj; [exact Hrep |]. rewrite <- Hshift. apply Hbefore. lia. }
    destruct r as [[[] |] | e |].
    + destruct Hout as [Hk1 Hlast]. split; [lia |].
      replace (S k - 1)%nat with (S (k - 1)) by lia. rewrite <- Hshift. exact Hlast.
    + destruct Hout as [-> Hall]. split; [reflexivity |].
      intros [| j] Hj; [exact Hrep |]. rewrite <- Hshift. apply Hall. lia.
    + destruct Hout as (Hk1 & err & Hlast & ->). split; [lia |]. exists err.
      replace (S k - 1)%nat with (S (k - 1)) by lia. rewrite <- Hshift. by split.
    + contradiction.
Qed.

(** X22.  [WaitInstanceIsStopped] outside Stopped fails at once with the
    state-violation error.  In Stopped it polls the cluster in a loop, and
    the loop ends at the first poll that does not report the replica set
    running: with nil when the reported boolean is false -- also when that
    poll returned an error, which is then dropped -- and with the wrapped
    error when the poll returned an error together with true.  While the
    polls report running without error the loop goes on. *)
Theorem WaitInstanceIsStopped_ends_at_the_first_poll_not_running
    (errs : Errors) (sys : Collaborators) (h : Helpers) (rounds : nat)
    (i : ptr) (w : World) (this : Instance) :
  heap w !! i = Some this ->
  (state this <> Stopped ->
   WaitInstanceIsStopped errs sys h rounds i w
   = (w, Fail (WithParams (ErrWaitingForInstanceStoppedNotAllowed errs)
                          [PStr (State_String (state this))])))
  /\ (state this = Stopped ->
      exists (k : nat) (r : Res (option unit)),
        (k <= rounds)%nat
        /\ WaitInstanceIsStopped errs sys h rounds i w
           = (set_log (log w ++ polls this k) w, r)
        /\ (forall j, (S j < k)%nat -> reported sys h this (log w) j = (true, None))
        /\ match r with
           | Ok (Some _) =>
               (1 <= k)%nat /\ fst (reported sys h this (log w) (k - 1)) = false
           | Ok None =>
               k = rounds
               /\ forall j, (j < k)%nat -> reported sys h this (log w) j = (true, None)
           | Fail e =>
               (1 <= k)%nat
               /\ exists err,
                    reported sys h this (log w) (k - 1) = (true, Some err)
                    /\ e = Wrap (WithParams (ErrCheckingIfInstanceStopped errs)
                                            [PStr (k8sName this)]) err
           | Panic => False
           end).
Proof.
  intros Hi. unfold WaitInstanceIsStopped. rewrite (bind_load _ _ _ _ Hi). split.
  - intros Hst.
    assert (IsInState this [Stopped] = false) as ->.
    { unfold IsInState. cbn. rewrite bool_decide_eq_false_2 by assumption. reflexivity. }
    rewrite bind_check_false. reflexivity.
  - intros Hst.
    assert (IsInState this [Stopped] = true) as ->
      by (unfold IsInState; rewrite Hst; reflexivity).
    rewrite bind_check_true.
    exact (waitStoppedLoop_run errs sys h i this Hst rounds w Hi).
Qed.

(** A poll that fails and reports "not running" ends the wait with nil: the
    error of the poll is not returned. *)
Lemma WaitInstanceIsStopped_ends_at_the_first_poll_not_running_witness :
  WaitInstanceIsStopped sampleErrors failingPollSys quietHelpers 5 0%nat
    (oneInstance webStopped)
  = (set_log [EvIsReplicaSetRunning "web-7f3a"] (oneInstance webStopped), Ok (Some tt))
  /\ exists (k : nat) (r : Res (option unit)),
       (k <= 5)%nat
       /\ WaitInstanceIsStopped sampleErrors failingPollSys quietHelpers 5 0%nat
            (oneInstance webStopped)
          = (set_log (log (oneInstance webStopped) ++ polls webStopped k)
                     (oneInstance webStopped), r).
Proof.
  split; [reflexivity |].
  destruct (WaitInstanceIsStopped_ends_at_the_first_poll_not_running sampleErrors
              failingPollSys quietHelpers 5 0%nat (oneInstance webStopped) webStopped
              eq_refl) as [_ H].
  destruct (H eq_refl) as (k & r & Hk & Hlog & _). exists k, r. split; assumption.
Defined.

(** * The order of the lifecycle *)

Lemma IsInState_not_in (x : Instance) (l : list InstanceState) :
  (forall s, s ∈ l -> state x <> s) -> IsInState x l = false.
Proof.
  unfold IsInState. induction l as [| s l IH]; intros H; [reflexivity |].
  cbn [existsb]. rewrite bool_decide_eq_false_2 by (apply H; left).
  apply IH. intros s' Hs'. apply H. by right.
Qed.

Ltac not_in_states :=
  intros ? Hin; repeat (apply elem_of_cons in Hin as [-> | Hin]; [assumption |]);
  by apply elem_of_nil in Hin.

(** X23.  The operations of the lifecycle and the live operations, called in a
    state that they do not allow, fail with their state-violation error,
    whose parameter is the name of the state, and leave the world as it
    was.  [SetImage] allows None and Started; [Commit] allows Preparing;
    the three starts allow Committed and Stopped; [Stop],
    [SetImageInstant] and [ReadFileFromRunningInstance] allow Started;
    [IsRunning] allows Started and Stopped; [ExecuteCommand] allows
    Preparing and Started.  [SetImageInstant] reports the violation with
    the error value that [SetImage] uses for a started sidecar. *)
Theorem operations_outside_their_states_are_refused
    (errs : Errors) (sys : Collaborators) (h : Helpers) (w : World) (i : ptr)
    (this : Instance) (image filePath : string) (cmd : list string) :
  heap w !! i = Some this ->
  (state this <> StateNone -> state this <> Started ->
   SetImage errs sys h i image w
   = (w, Fail (WithParams (ErrSettingImageNotAllowed errs) (stateParam this))))
  /\ (state this <> Preparing ->
      Commit sys i w = (w, Fail (E ErrCommittingNotAllowed (stateParam this))))
  /\ (state this <> Committed -> state this <> Stopped ->
      StartWithoutWait sys i w = (w, Fail (E ErrStartingNotAllowed (stateParam this)))
      /\ StartAsync sys i w = (w, Fail (E ErrStartingNotAllowed (stateParam this)))
      /\ Start sys i w = (w, Fail (E ErrStartingNotAllowed (stateParam this))))
  /\ (state this <> Started ->
      Stop sys i w = (w, Fail (E ErrStoppingNotAllowed (stateParam this)))
      /\ SetImageInstant errs h i image w
         = (w, Fail (WithParams (ErrSettingImageNotAllowedForSidecarsStarted errs)
                                (stateParam this)))
      /\ ReadFileFromRunningInstance sys i filePath w
         = (w, Fail (E ErrReadingFileNotAllowed (stateParam this))))
  /\ (state this <> Started -> state this <> Stopped ->
      IsRunning sys i w
      = (w, Fail (E ErrCheckingIfInstanceRunningNotAllowed (stateParam this))))
  /\ (state this <> Preparing -> state this <> Started ->
      ExecuteCommand sys i cmd w
      = (w, Fail (E ErrExecutingCommandNotAllowed (stateParam this)))).
Proof.
  intros Hi.
  assert (state this <> Committed -> state this <> Stopped ->
          StartWithoutWait sys i w
          = (w, Fail (E ErrStartingNotAllowed (stateParam this)))) as Hstart.
  { intros H1 H2. unfold StartWithoutWait.
    rewrite (bind_load _ _ _ _ Hi), (IsInState_CS_false _ H1 H2), bind_check_false.
    reflexivity. }
  split; [| split; [| split; [| split; [| split]]]].
  - intros H1 H2. unfold SetImage.
    rewrite (bind_load _ _ _ _ Hi), IsInState_not_in, bind_check_false by not_in_states.
    reflexivity.
  - intros H1. unfold Commit.
    rewrite (bind_load _ _ _ _ Hi), IsInState_not_in, bind_check_false by not_in_states.
    reflexivity.
  - intros H1 H2. split; [exact (Hstart H1 H2) |]. split; [exact (Hstart H1 H2) |].
    unfold Start. rewrite (bind_Fail _ _ _ _ _ (Hstart H1 H2)). reflexivity.
  - intros H1. split; [| split].
    + unfold Stop.
      rewrite (bind_load _ _ _ _ Hi), IsInState_not_in, bind_check_false by not_in_states.
      reflexivity.
    + unfold SetImageInstant.
      rewrite (bind_load _ _ _ _ Hi), IsInState_not_in, bind_check_false by not_in_states.
      reflexivity.
    + unfold ReadFileFromRunningInstance.
      rewrite (bind_load _ _ _ _ Hi), IsInState_not_in, bind_check_false by not_in_states.
      reflexivity.
  - intros H1 H2. unfold IsRunning.
    rewrite (bind_load _ _ _ _ Hi), IsInState_not_in, bind_check_false by not_in_states.
    reflexivity.
  - intros H1 H2. unfold ExecuteCommand.
    rewrite (bind_load _ _ _ _ Hi), IsInState_not_in, bind_check_false by not_in_states.
    reflexivity.
Qed.

Lemma operations_outside_their_states_are_refused_witness :
  SetImage sampleErrors quietSys quietHelpers 0%nat "nginx" (oneInstance webCommitted)
  = (oneInstance webCommitted,
     Fail (WithParams (ErrSettingImageNotAllowed sampleErrors) [PStr "Committed"]))
  /\ Commit quietSys 0%nat (oneInstance webCommitted)
     = (oneInstance webCommitted, Fail (E ErrCommittingNotAllowed [PStr "Committed"]))
  /\ Stop quietSys 0%nat (oneInstance webCommitted)
     = (oneInstance webCommitted, Fail (E ErrStoppingNotAllowed [PStr "Committed"])).
Proof.
  destruct (operations_outside_their_states_are_refused sampleErrors quietSys
              quietHelpers (oneInstance webCommitted) 0%nat webCommitted "nginx" "/etc"
              ["ls"] eq_refl) as (Hset & Hcommit & _ & Hstop & _).
  split; [apply Hset; discriminate |]. split; [apply Hcommit; discriminate |].
  apply Hstop. discriminate.
Defined.

Lemma startCommitted_plain (sys : Collaborators) (w : World) (i : ptr)
    (this : Instance) :
  heap w !! i = Some this ->
  sidecars this = [] ->
  enabled (BitTwister this) = false ->
  isObservabilityEnabled sys this = false ->
  (forall l x, deployResources sys l x = None) ->
  startCommitted sys i this w
  = (set_log (log w ++ [EvDeployResources (k8sName this)]) w, Ok tt).
Proof.
  intros Hi Hsc Hbt Hobs Hres. unfold startCommitted.
  rewrite Hobs, Hbt, !bind_ret, (bind_load _ _ _ _ Hi), Hsc.
  cbn [applyFunctionToInstances].
  unfold wrapWith, deployResourcesOf, bind, call, orReturn, ret.
  rewrite Hres. reflexivity.
Qed.

Lemma StartWithoutWait_committed_plain (sys : Collaborators) (w : World) (i : ptr)
    (this : Instance) :
  heap w !! i = Some this ->
  state this = Committed ->
  isSidecar this = false ->
  sidecars this = [] ->
  enabled (BitTwister this) = false ->
  isObservabilityEnabled sys this = false ->
  (forall l x, deployResources sys l x = None) ->
  (forall l x, deployPod sys l x = None) ->
  StartWithoutWait sys i w
  = (set_heap (<[i := set_state Started this]> (heap w))
       (set_log (log w ++ [EvDeployResources (k8sName this); EvDeployPod (k8sName this)]) w),
     Ok tt).
Proof.
  intros Hi Hst Hns Hsc Hbt Hobs Hres Hpod. unfold StartWithoutWait.
  rewrite (bind_load _ _ _ _ Hi).
  assert (IsInState this [Committed; Stopped] = true) as ->
    by (unfold IsInState; rewrite Hst; reflexivity).
  rewrite bind_check_true, Hsc. cbn [applyFunctionToInstances]. rewrite bind_ret, Hns.
  cbn [negb]. rewrite bind_check_true, bool_decide_eq_true_2 by assumption.
  rewrite (bind_Ok _ _ _ _ _ (startCommitted_plain sys w i this Hi Hsc Hbt Hobs Hres)).
  set (w1 := set_log (log w ++ [EvDeployResources (k8sName this)]) w).
  assert (heap w1 !! i = Some this) as Hi1 by exact Hi.
  rewrite (bind_load _ _ _ _ Hi1).
  unfold bind at 1. unfold wrapWith, deployPodOf, bind at 1, call, orReturn.
  rewrite Hpod. cbn.
  match goal with |- context [bind (update i ?g) ?k ?w2] =>
    assert (heap w2 !! i = Some this) as Hi2 by exact Hi;
    rewrite (bind_update i g this k w2 Hi2)
  end.
  rewrite Hsc. cbn. rewrite <- app_assoc. reflexivity.
Qed.

(** X24.  An instance in state
    'Committed' with no sidecar, no BitTwister and no observability, on a
    cluster that grants every deployment and removal, is started, stopped
    and started again: the three calls succeed, the instance ends in state
    'Started', and the cluster has seen, in this order, the resources
    deployed, the pod deployed, the pod destroyed and the pod deployed
    again.  The resources are deployed by the first start only. *)
Theorem resources_are_deployed_by_the_first_start_only (sys : Collaborators) (w : World)
    (i : ptr) (this : Instance) :
  heap w !! i = Some this ->
  state this = Committed ->
  isSidecar this = false ->
  sidecars this = [] ->
  enabled (BitTwister this) = false ->
  isObservabilityEnabled sys this = false ->
  (forall l x, deployResources sys l x = None) ->
  (forall l x, deployPod sys l x = None) ->
  (forall l x, destroyPod sys l x = None) ->
  exists w',
    (let* _ := StartWithoutWait sys i in
     let* _ := Stop sys i in
     StartWithoutWait sys i) w = (w', Ok tt)
    /\ heap w' !! i = Some (set_state Started this)
    /\ log w' = log w ++ [EvDeployResources (k8sName this); EvDeployPod (k8sName this);
                          EvDestroyPod (k8sName this); EvDeployPod (k8sName this)].
Proof.
  intros Hi Hst Hns Hsc Hbt Hobs Hres Hpod Hdel.
  rewrite (bind_Ok _ _ _ _ _
             (StartWithoutWait_committed_plain sys w i this Hi Hst Hns Hsc Hbt Hobs Hres Hpod)).
  set (w1 := set_heap _ _).
  assert (heap w1 !! i = Some (set_state Started this)) as Hi1
    by (subst w1; cbn; apply lookup_insert_eq).
  assert (Stop sys i w1
          = (set_heap (<[i := set_state Stopped (set_state Started this)]> (heap w1))
               (set_log (log w1 ++ [EvDestroyPod (k8sName this)]) w1), Ok tt)) as Hstop.
  { rewrite (Stop_started_eq sys w1 i _ Hi1 eq_refl), Hdel.
    change (sidecars (set_state Started this)) with (sidecars this). rewrite Hsc.
    reflexivity. }
  rewrite (bind_Ok _ _ _ _ _ Hstop).
  set (w2 := set_heap _ _).
  assert (heap w2 !! i = Some (set_state Stopped (set_state Started this))) as Hi2
    by (subst w2; cbn; apply lookup_insert_eq).
  rewrite (StartWithoutWait_stopped_eq sys w2 i _ Hi2 eq_refl).
  change (sidecars (set_state Stopped (set_state Started this))) with (sidecars this).
  change (isSidecar (set_state Stopped (set_state Started this))) with (isSidecar this).
  rewrite Hsc, Hns, Hpod. cbn.
  eexists. split; [reflexivity |]. split.
  - cbn. rewrite lookup_insert_eq. reflexivity.
  - cbn. rewrite <- !app_assoc. reflexivity.
Qed.

Lemma resources_are_deployed_by_the_first_start_only_witness :
  exists w',
    (let* _ := StartWithoutWait quietSys 0%nat in
     let* _ := Stop quietSys 0%nat in
     StartWithoutWait quietSys 0%nat) (oneInstance webCommitted) = (w', Ok tt)
    /\ heap w' !! 0%nat = Some (set_state Started webCommitted)
    /\ log w' = log (oneInstance webCommitted)
                ++ [EvDeployResources (k8sName webCommitted); EvDeployPod (k8sName webCommitted);
                    EvDestroyPod (k8sName webCommitted); EvDeployPod (k8sName webCommitted)].
Proof.
  apply (resources_are_deployed_by_the_first_start_only quietSys (oneInstance webCommitted)
           0%nat webCommitted); reflexivity.
Defined.

